(** * Context-mixing bit predictor (TComContextMixer.cpp)

    A shallow embedding of the PAQ-style predictor used for NN-based CABAC:
    the logistic tables, the mixer, the probability maps, the hashed context
    maps and the top-level [Predictor], followed by the properties of the
    specification that can be settled on them.

    Conventions.  C [int] values are integers of [Z]; a store into a
    narrower variable is written with the conversion it performs ([u8],
    [u16], [u32], [short], [int]).  [>>] on a signed value is the
    arithmetic shift [Z.shiftr], [&] is [Z.land], [^] is [Z.lxor] and [|]
    is [Z.lor].  An array is a total function from its index to its
    content, updated pointwise; what lies outside the allocated range is
    never read by the code and is 0 in the model.  A pointer into a table is
    the offset of the cell it points to. *)

From Stdlib Require Import ZArith List Bool Lia.
Import ListNotations.
Local Open Scope Z_scope.

(** ** Machine integers *)

Module Int.

Definition u8 (x : Z) : Z := x mod 256.
Definition u16 (x : Z) : Z := x mod 65536.
Definition u32 (x : Z) : Z := x mod 4294967296.

(** two's-complement conversion to a signed 16-bit, resp. 32-bit, value *)
Definition short (x : Z) : Z := (x + 32768) mod 65536 - 32768.
Definition int (x : Z) : Z := (x + 2147483648) mod 4294967296 - 2147483648.

(** the value of a C comparison *)
Definition b2i (b : bool) : Z := if b then 1 else 0.

End Int.
Import Int.

(** ** Arrays and loops *)

Module Arr.

Definition array := Z -> Z.

Definition zeros : array := fun _ => 0.

(** [n] cells, cell [i] holding [f i] *)
Definition init (n : Z) (f : Z -> Z) : array :=
  fun i => if (0 <=? i) && (i <? n) then f i else 0.

Definition set (a : array) (i v : Z) : array :=
  fun k => if k =? i then v else a k.

End Arr.
Import Arr.

(** [for (i = lo; i < hi; ++i) body] *)
Definition for_ {St : Type} (lo hi : Z) (body : Z -> St -> St) (s : St) : St :=
  fold_left (fun s k => body (lo + Z.of_nat k) s) (seq 0 (Z.to_nat (hi - lo))) s.

(** the entry [i] of a constant table *)
Definition tab (l : list Z) (i : Z) : Z := nth (Z.to_nat i) l 0.

(** ** rnd: 32-bit pseudo random number generator *)

Record Random := { rtable : array; ri : Z }.

Definition Random_ctor : Random :=
  let t := Arr.set (Arr.set zeros 0 123456789) 1 987654321 in
  {| rtable :=
       for_ 0 62
         (fun j t => Arr.set t (j + 2) (u32 (u32 (t (j + 1) * 11) + u32 (t j * 23) / 16)))
         t;
     ri := 0 |}.

(** [U32 operator()()] *)
Definition rnd (r : Random) : Z * Random :=
  let i := int (ri r + 1) in
  let v := Z.lxor (rtable r (Z.land (i - 24) 63)) (rtable r (Z.land (i - 55) 63)) in
  (v, {| rtable := Arr.set (rtable r) (Z.land i 63) v; ri := i |}).

(** ** Buf and the global context *)

Record Buf := { b : array; bsize : Z }.

Definition Buf_ctor (i : Z) : Buf := {| b := zeros; bsize := i |}.

(** [c0], [c4], [bpos], [buf] and [pos], set by the predictor and read by
    every model *)
Record Ctx := { c0 : Z; c4 : Z; bpos : Z; buf : Buf; pos : Z }.

Definition Ctx_init : Ctx :=
  {| c0 := 1; c4 := 0; bpos := 0; buf := Buf_ctor 16777216; pos := 0 |}.

(** [buf[i] = v] *)
Definition Buf_store (bf : Buf) (i v : Z) : Buf :=
  {| b := Arr.set (b bf) (Z.land i (bsize bf - 1)) (u8 v); bsize := bsize bf |}.

(** [buf(i)]: the [i]'th byte back from [pos] *)
Definition Buf_back (g : Ctx) (i : Z) : Z :=
  b (buf g) (Z.land (pos g - i) (bsize (buf g) - 1)).

(** ** ilog *)

(** the loop of [Ilog::Ilog()], [n] iterations from index [i] on; the
    entries are listed in the order they are written *)
Fixpoint Ilog_fill (n : nat) (i x : Z) : list Z :=
  match n with
  | O => []
  | S n' =>
      let x := u32 (x + 774541002 / (i * 2 - 1)) in
      u8 (Z.shiftr x 24) :: Ilog_fill n' (i + 1) x
  end.

(** [Ilog::Ilog()]: the entries 0 and 1 stay 0 *)
Definition Ilog_ctor : list Z :=
  0 :: 0 :: Ilog_fill (Z.to_nat 65534) 2 14155776.

(** [int operator()(U16 x)] *)
Definition ilog (x : Z) : Z := tab Ilog_ctor (u16 x).

(** ** The bit-history state table *)

Definition State_table : list (list Z) :=
  [ [1;2;0;0]; [3;5;1;0]; [4;6;0;1]; [7;10;2;0]; [8;12;1;1]; [9;13;1;1];
    [11;14;0;2]; [15;19;3;0]; [16;23;2;1]; [17;24;2;1]; [18;25;2;1];
    [20;27;1;2]; [21;28;1;2]; [22;29;1;2]; [26;30;0;3]; [31;33;4;0];
    [32;35;3;1]; [32;35;3;1]; [32;35;3;1]; [32;35;3;1]; [34;37;2;2];
    [34;37;2;2]; [34;37;2;2]; [34;37;2;2]; [34;37;2;2]; [34;37;2;2];
    [36;39;1;3]; [36;39;1;3]; [36;39;1;3]; [36;39;1;3]; [38;40;0;4];
    [41;43;5;0]; [42;45;4;1]; [42;45;4;1]; [44;47;3;2]; [44;47;3;2];
    [46;49;2;3]; [46;49;2;3]; [48;51;1;4]; [48;51;1;4]; [50;52;0;5];
    [53;43;6;0]; [54;57;5;1]; [54;57;5;1]; [56;59;4;2]; [56;59;4;2];
    [58;61;3;3]; [58;61;3;3]; [60;63;2;4]; [60;63;2;4]; [62;65;1;5];
    [62;65;1;5]; [50;66;0;6]; [67;55;7;0]; [68;57;6;1]; [68;57;6;1];
    [70;73;5;2]; [70;73;5;2]; [72;75;4;3]; [72;75;4;3]; [74;77;3;4];
    [74;77;3;4]; [76;79;2;5]; [76;79;2;5]; [62;81;1;6]; [62;81;1;6];
    [64;82;0;7]; [83;69;8;0]; [84;71;7;1]; [84;71;7;1]; [86;73;6;2];
    [86;73;6;2]; [44;59;5;3]; [44;59;5;3]; [58;61;4;4]; [58;61;4;4];
    [60;49;3;5]; [60;49;3;5]; [76;89;2;6]; [76;89;2;6]; [78;91;1;7];
    [78;91;1;7]; [80;92;0;8]; [93;69;9;0]; [94;87;8;1]; [94;87;8;1];
    [96;45;7;2]; [96;45;7;2]; [48;99;2;7]; [48;99;2;7]; [88;101;1;8];
    [88;101;1;8]; [80;102;0;9]; [103;69;10;0]; [104;87;9;1]; [104;87;9;1];
    [106;57;8;2]; [106;57;8;2]; [62;109;2;8]; [62;109;2;8]; [88;111;1;9];
    [88;111;1;9]; [80;112;0;10]; [113;85;11;0]; [114;87;10;1]; [114;87;10;1];
    [116;57;9;2]; [116;57;9;2]; [62;119;2;9]; [62;119;2;9]; [88;121;1;10];
    [88;121;1;10]; [90;122;0;11]; [123;85;12;0]; [124;97;11;1];
    [124;97;11;1]; [126;57;10;2]; [126;57;10;2]; [62;129;2;10];
    [62;129;2;10]; [98;131;1;11]; [98;131;1;11]; [90;132;0;12];
    [133;85;13;0]; [134;97;12;1]; [134;97;12;1]; [136;57;11;2];
    [136;57;11;2]; [62;139;2;11]; [62;139;2;11]; [98;141;1;12];
    [98;141;1;12]; [90;142;0;13]; [143;95;14;0]; [144;97;13;1];
    [144;97;13;1]; [68;57;12;2]; [68;57;12;2]; [62;81;2;12]; [62;81;2;12];
    [98;147;1;13]; [98;147;1;13]; [100;148;0;14]; [149;95;15;0];
    [150;107;14;1]; [150;107;14;1]; [108;151;1;14]; [108;151;1;14];
    [100;152;0;15]; [153;95;16;0]; [154;107;15;1]; [108;155;1;15];
    [100;156;0;16]; [157;95;17;0]; [158;107;16;1]; [108;159;1;16];
    [100;160;0;17]; [161;105;18;0]; [162;107;17;1]; [108;163;1;17];
    [110;164;0;18]; [165;105;19;0]; [166;117;18;1]; [118;167;1;18];
    [110;168;0;19]; [169;105;20;0]; [170;117;19;1]; [118;171;1;19];
    [110;172;0;20]; [173;105;21;0]; [174;117;20;1]; [118;175;1;20];
    [110;176;0;21]; [177;105;22;0]; [178;117;21;1]; [118;179;1;21];
    [110;180;0;22]; [181;115;23;0]; [182;117;22;1]; [118;183;1;22];
    [120;184;0;23]; [185;115;24;0]; [186;127;23;1]; [128;187;1;23];
    [120;188;0;24]; [189;115;25;0]; [190;127;24;1]; [128;191;1;24];
    [120;192;0;25]; [193;115;26;0]; [194;127;25;1]; [128;195;1;25];
    [120;196;0;26]; [197;115;27;0]; [198;127;26;1]; [128;199;1;26];
    [120;200;0;27]; [201;115;28;0]; [202;127;27;1]; [128;203;1;27];
    [120;204;0;28]; [205;115;29;0]; [206;127;28;1]; [128;207;1;28];
    [120;208;0;29]; [209;125;30;0]; [210;127;29;1]; [128;211;1;29];
    [130;212;0;30]; [213;125;31;0]; [214;137;30;1]; [138;215;1;30];
    [130;216;0;31]; [217;125;32;0]; [218;137;31;1]; [138;219;1;31];
    [130;220;0;32]; [221;125;33;0]; [222;137;32;1]; [138;223;1;32];
    [130;224;0;33]; [225;125;34;0]; [226;137;33;1]; [138;227;1;33];
    [130;228;0;34]; [229;125;35;0]; [230;137;34;1]; [138;231;1;34];
    [130;232;0;35]; [233;125;36;0]; [234;137;35;1]; [138;235;1;35];
    [130;236;0;36]; [237;125;37;0]; [238;137;36;1]; [138;239;1;36];
    [130;240;0;37]; [241;125;38;0]; [242;137;37;1]; [138;243;1;37];
    [130;244;0;38]; [245;135;39;0]; [246;137;38;1]; [138;247;1;38];
    [140;248;0;39]; [249;135;40;0]; [250;69;39;1]; [80;251;1;39];
    [140;252;0;40]; [249;135;41;0]; [250;69;40;1]; [80;251;1;40];
    [140;252;0;41] ].

(** [nex(state,sel)]; the rows 253..255 are zero *)
Definition nex (state sel : Z) : Z :=
  tab (nth (Z.to_nat state) State_table []) sel.

(** ** Squash *)

Definition squash_t : list Z :=
  [ 1; 2; 3; 6; 10; 16; 27; 45; 73; 120; 194; 310; 488; 747; 1101;
    1546; 2047; 2549; 2994; 3348; 3607; 3785; 3901; 3975; 4022;
    4050; 4068; 4079; 4085; 4089; 4092; 4093; 4094 ].

(** [int squash(int d)] *)
Definition squash (d : Z) : Z :=
  if 2047 <? d then 4095
  else if d <? -2047 then 0
  else
    let w := Z.land d 127 in
    let d := Z.shiftr d 7 + 16 in
    Z.shiftr (tab squash_t d * (128 - w) + tab squash_t (d + 1) * w + 64) 7.

(** ** Stretch *)

(** [Stretch::Stretch()]: the sweep of [x] over -2047..2047, each step
    writing [x] into the entries [pi..squash(x)] *)
Definition Stretch_ctor : array :=
  let sweep :=
    for_ (-2047) 2048
      (fun x '(pi, t) =>
         let i := squash x in
         (i + 1, for_ pi (i + 1) (fun j t => Arr.set t j (short x)) t))
      (0, zeros) in
  Arr.set (snd sweep) 4095 (short 2047).

(** the table as the constructor leaves it, entries 0..4095 *)
Definition stretch_t : list Z :=
  Eval vm_compute in map (fun p => Stretch_ctor (Z.of_nat p)) (seq 0 4096).

(** [int operator()(int p)] *)
Definition stretch (p : Z) : Z := tab stretch_t p.

(** ** Mixer *)

(** [int dot_product(short *t, short *w, int n)], [w] starting at the
    offset [wo] of the weight array; the loop steps [i] by 2 *)
Definition dot_product (t w : array) (wo n : Z) : Z :=
  let n := Z.land (n + 7) (-8) in
  for_ 0 (n / 2)
    (fun k sum =>
       let i := 2 * k in
       int (sum + Z.shiftr (int (t i * w (wo + i) + t (i + 1) * w (wo + i + 1))) 8))
    0.

(** [void train(short *t, short *w, int n, int err)] *)
Definition train (t w : array) (wo n err : Z) : array :=
  let n := Z.land (n + 7) (-8) in
  for_ 0 n
    (fun i w =>
       let wt := w (wo + i) + Z.shiftr (Z.shiftr (int (t i * err * 2)) 16 + 1) 1 in
       let wt := if wt <? -32768 then -32768 else wt in
       let wt := if 32767 <? wt then 32767 else wt in
       Arr.set w (wo + i) (short wt))
    w.

Module Mixer.

(** the members of a [Mixer] other than [mp] *)
Record fields := {
  N : Z; M : Z; S : Z;
  tx : array;     (* N inputs from add() *)
  wx : array;     (* N*M weights *)
  cxt : array;    (* S contexts *)
  ncxt : Z;       (* number of contexts (0 to S) *)
  base : Z;       (* offset of next context *)
  nx : Z;         (* number of inputs in tx, 0 to N *)
  pr : array      (* last result (scaled 12 bits) *)
}.

(** a mixer and the mixer [mp] points to, if any *)
#[warnings="-register-all"]
Inductive state := Mk (f : fields) (mp : option state).

Definition own (m : state) : fields := let 'Mk f _ := m in f.
Definition mp (m : state) : option state := let 'Mk _ c := m in c.

(** the training error of context [i] in [update] *)
Definition err (y : Z) (f : fields) (i : Z) : Z :=
  (Z.shiftl y 12 - pr f i) * 7.

(** [void update()] *)
Definition update_f (y : Z) (f : fields) : fields :=
  {| N := N f; M := M f; S := S f;
     tx := tx f;
     wx := for_ 0 (ncxt f)
             (fun i w => train (tx f) w (cxt f i * N f) (nx f) (err y f i))
             (wx f);
     cxt := cxt f; ncxt := 0; base := 0; nx := 0; pr := pr f |}.

Definition update (y : Z) (m : state) : state :=
  let 'Mk f c := m in Mk (update_f y f) c.

(** [void add(int x)] *)
Definition add_f (x : Z) (f : fields) : fields :=
  {| N := N f; M := M f; S := S f;
     tx := Arr.set (tx f) (nx f) (short x);
     wx := wx f; cxt := cxt f; ncxt := ncxt f; base := base f;
     nx := nx f + 1; pr := pr f |}.

Definition add (x : Z) (m : state) : state :=
  let 'Mk f c := m in Mk (add_f x f) c.

(** [void set(int cx, int range)] *)
Definition set_f (cx range : Z) (f : fields) : fields :=
  {| N := N f; M := M f; S := S f;
     tx := tx f; wx := wx f;
     cxt := Arr.set (cxt f) (ncxt f) (base f + cx);
     ncxt := ncxt f + 1; base := base f + range;
     nx := nx f; pr := pr f |}.

Definition set (cx range : Z) (m : state) : state :=
  let 'Mk f c := m in Mk (set_f cx range f) c.

(** [while (nx & 7) tx[nx++] = 0]; it stops within 7 rounds *)
Fixpoint pad (fuel : nat) (f : fields) : fields :=
  match fuel with
  | O => f
  | Datatypes.S fuel' =>
      if Z.land (nx f) 7 =? 0 then f else pad fuel' (add_f 0 f)
  end.

(** [pr[i] = v] *)
Definition set_pr (i v : Z) (f : fields) : fields :=
  {| N := N f; M := M f; S := S f;
     tx := tx f; wx := wx f; cxt := cxt f; ncxt := ncxt f; base := base f;
     nx := nx f; pr := Arr.set (pr f) i v |}.

(** [int p()]; [f] holds the current members of the mixer [m] *)
Fixpoint p_rec (y : Z) (f : fields) (m : state) {struct m} : Z * state :=
  let f := pad 8 f in
  match mp m with
  | Some c =>
      let cf := update_f y (own c) in
      let '(f, cf) :=
        for_ 0 (ncxt f)
          (fun i '(f, cf) =>
             let v := squash (Z.shiftr
                        (dot_product (tx f) (wx f) (cxt f i * N f) (nx f)) 5) in
             (set_pr i v f, add_f (stretch v) cf))
          (f, cf) in
      let cf := set_f 0 1 cf in
      let '(r, c') := p_rec y cf c in
      (r, Mk f (Some c'))
  | None =>
      let v := squash (Z.shiftr (dot_product (tx f) (wx f) 0 (nx f)) 8) in
      (v, Mk (set_pr 0 v f) None)
  end.

Definition p (y : Z) (m : state) : Z * state := p_rec y (own m) m.

(** the member initialisers and the loops of [Mixer::Mixer] *)
Definition ctor_f (n m s w : Z) : fields :=
  let N := Z.land (n + 7) (-8) in
  {| N := N; M := m; S := s;
     tx := zeros;
     wx := Arr.init (N * m) (fun _ => short w);
     cxt := zeros; ncxt := 0; base := 0; nx := 0;
     pr := Arr.init s (fun _ => 2048) |}.

(** [Mixer::Mixer(int n, int m, int s, int w)]; the mixer made for [S > 1]
    has [S = 1] and so no further one *)
Definition ctor (n m s w : Z) : state :=
  Mk (ctor_f n m s w)
     (if 1 <? s then Some (Mk (ctor_f s 1 1 32767) None) else None).

End Mixer.

(** ** APM *)

Module APM.

Record state := {
  index : Z;   (* last p, context *)
  N : Z;       (* number of contexts *)
  t : array    (* [N][33]: p, context -> p *)
}.

(** [int p(int pr, int cxt, int rate)] *)
Definition p (y : Z) (pr cxt rate : Z) (a : state) : Z * state :=
  let pr := stretch pr in
  let g := Z.shiftl y 16 + Z.shiftl y rate - y - y in
  let t1 := Arr.set (t a) (index a)
              (u16 (t a (index a) + Z.shiftr (g - t a (index a)) rate)) in
  let t2 := Arr.set t1 (index a + 1)
              (u16 (t1 (index a + 1) + Z.shiftr (g - t1 (index a + 1)) rate)) in
  let w := Z.land pr 127 in
  let index := Z.shiftr (pr + 2048) 7 + cxt * 33 in
  (Z.shiftr (t2 index * (128 - w) + t2 (index + 1) * w) 11,
   {| index := index; N := N a; t := t2 |}).

(** the loops of [APM::APM(int n)], run as written *)
Definition ctor_loop (n : Z) : array :=
  for_ 0 n
    (fun i t =>
       for_ 0 33
         (fun j t =>
            Arr.set t (i * 33 + j)
              (u16 (if i =? 0 then squash ((j - 16) * 128) * 16 else t j)))
         t)
    zeros.

(** [APM::APM(int n)], the table given by its content: every row is the
    row 0 ([ctor_loop_eq] below) *)
Definition ctor (n : Z) : state :=
  {| index := 0; N := n;
     t := Arr.init (n * 33) (fun k => squash ((k mod 33 - 16) * 128) * 16) |}.

End APM.

(** ** StateMap *)

Module StateMap.

Record state := {
  cxt : Z;   (* context *)
  t : array  (* 256 states -> probability * 64K *)
}.

(** [int p(int cx)] *)
Definition p (y : Z) (cx : Z) (s : state) : Z * state :=
  let t' := Arr.set (t s) (cxt s)
              (u16 (t s (cxt s) + Z.shiftr (Z.shiftl y 16 - t s (cxt s) + 128) 8)) in
  (Z.shiftr (t' cx) 4, {| cxt := cx; t := t' |}).

(** [StateMap::StateMap()] *)
Definition ctor : state :=
  {| cxt := 0;
     t := Arr.init 256
            (fun i =>
               let n0 := nex i 2 in
               let n1 := nex i 3 in
               let n1 := if n0 =? 0 then n1 * 64 else n1 in
               let n0 := if n1 =? 0 then n0 * 64 else n0 in
               u16 (65536 * (n1 + 1) / (n0 + n1 + 2))) |}.

End StateMap.

(** ** hash *)

(** [U32 hash(U32 a, U32 b, U32 c, U32 d, U32 e)] *)
Definition hash5 (a b c d e : Z) : Z :=
  let h := u32 (a * 200002979 + b * 30005491 + c * 50004239
                + d * 70004807 + e * 110002499) in
  Z.lxor (Z.lxor (Z.lxor (Z.lxor (Z.lxor (Z.lxor h (Z.shiftr h 9))
    (Z.shiftr a 2)) (Z.shiftr b 3)) (Z.shiftr c 4)) (Z.shiftr d 5)) (Z.shiftr e 6).

(** the calls with two and three arguments; the others default to
    [0xffffffff], and an [int] argument converts to [U32] *)
Definition hash2 (a b : Z) : Z :=
  hash5 (u32 a) (u32 b) 4294967295 4294967295 4294967295.
Definition hash3 (a b c : Z) : Z :=
  hash5 (u32 a) (u32 b) (u32 c) 4294967295 4294967295.

(** ** BH: checksummed buckets of [B] bytes *)

Module BH.

(** The table of [n + 1] elements of [B] bytes.  The 16-bit checksum that
    heads the element [e] is the cell [chk e]; the bytes 2..B-1 of the
    element are the cells [t (e*B + 2)] .. [t (e*B + B - 1)]. *)
Record state := { B : Z; n : Z; chk : array; t : array }.

Definition M : Z := 8.  (* search limit *)

Definition ctor (B i : Z) : state :=
  {| B := B; n := i - 1; chk := zeros; t := zeros |}.

(** the search loop of [operator[]], from [j] on: an empty element adopts
    the checksum, a matching one ends the search; [M] when none does *)
Fixpoint search (fuel : nat) (j i ck : Z) (h : state) : Z * state :=
  match fuel with
  | O => (j, h)
  | S fuel' =>
      let e := i + j in
      let h := if t h (e * B h + 2) =? 0
               then {| B := B h; n := n h; chk := Arr.set (chk h) e ck; t := t h |}
               else h in
      if chk h e =? ck then (j, h) else search fuel' (j + 1) i ck h
  end.

(** [U8* operator[](U32 i)]: the offset of the byte returned, and the table *)
Definition index (i : Z) (h : state) : Z * state :=
  let ck := Z.land (Z.lxor (Z.shiftr i 16) i) 65535 in
  let i := Z.land (u32 (i * M)) (n h) in
  let '(j, h) := search 8 0 i ck h in
  if j =? 0 then (i * B h + 1, h)
  else
    (* tmp, the element to move to front: its checksum and its bytes *)
    let '(j, tck, tmp) :=
      if j =? M then
        let j := j - 1 in
        let j := if t h ((i + j - 1) * B h + 2) <? t h ((i + j) * B h + 2)
                 then j - 1 else j in
        (j, ck, fun _ : Z => 0)
      else (j, chk h (i + j), fun k => t h ((i + j) * B h + k)) in
    (* memmove(&t[(i+1)*B], &t[i*B], j*B) *)
    let chk1 := fun e => if (i + 1 <=? e) && (e <? i + 1 + j)
                         then chk h (e - 1) else chk h e in
    let t1 := fun a => if ((i + 1) * B h <=? a) && (a <? (i + 1 + j) * B h)
                       then t h (a - B h) else t h a in
    (* memcpy(&t[i*B], tmp, B) *)
    let chk2 := Arr.set chk1 i tck in
    let t2 := fun a => if (i * B h <=? a) && (a <? (i + 1) * B h)
                       then tmp (a - i * B h) else t1 a in
    (i * B h + 1, {| B := B h; n := n h; chk := chk2; t := t2 |}).

End BH.

(** ** mix2 *)

(** [int mix2(Mixer& m, int s, StateMap& sm)] *)
Definition mix2 (y : Z) (m : Mixer.state) (s : Z) (sm : StateMap.state)
  : Z * Mixer.state * StateMap.state :=
  let '(p1, sm) := StateMap.p y s sm in
  let n0 := - b2i (nex s 2 =? 0) in
  let n1 := - b2i (nex s 3 =? 0) in
  let st := Z.shiftr (stretch p1) 2 in
  let m := Mixer.add st m in
  let p1 := Z.shiftr p1 4 in
  let p0 := 255 - p1 in
  let m := Mixer.add (p1 - p0) m in
  let m := Mixer.add (st * (n1 - n0)) m in
  let m := Mixer.add (Z.land p1 n0 - Z.land p0 n1) m in
  let m := Mixer.add (Z.land p1 n1 - Z.land p0 n0) m in
  (b2i (0 <? s), m, sm).

(** ** RunContextMap *)

Module RunContextMap.

Record state := { t : BH.state; cp : Z }.

(** [cp[k] = v] *)
Definition poke (r : state) (k v : Z) : state :=
  {| t := {| BH.B := BH.B (t r); BH.n := BH.n (t r); BH.chk := BH.chk (t r);
             BH.t := Arr.set (BH.t (t r)) (cp r + k) (u8 v) |};
     cp := cp r |}.

(** [cp[k]] *)
Definition peek (r : state) (k : Z) : Z := BH.t (t r) (cp r + k).

(** [cp = t[cx] + 1] *)
Definition point (cx : Z) (r : state) : state :=
  let '(p, h) := BH.index cx (t r) in {| t := h; cp := p + 1 |}.

(** [RunContextMap(int m)] *)
Definition ctor (m : Z) : state :=
  point 0 {| t := BH.ctor 4 (Z.quot m 4); cp := 0 |}.

(** [void set(U32 cx)] *)
Definition set (g : Ctx) (cx : Z) (r : state) : state :=
  let r :=
    if (peek r 0 =? 0) || negb (peek r 1 =? Buf_back g 1)
    then poke (poke r 0 1) 1 (Buf_back g 1)
    else if peek r 0 <? 255 then poke r 0 (peek r 0 + 1)
    else r in
  point cx r.

(** [int p()] *)
Definition p (g : Ctx) (r : state) : Z :=
  if Z.shiftr (peek r 1 + 256) (8 - bpos g) =? c0 g
  then (Z.land (Z.shiftr (peek r 1) (7 - bpos g)) 1 * 2 - 1)
       * ilog (peek r 0 + 1) * 8
  else 0.

(** [int mix(Mixer& m)] *)
Definition mix (g : Ctx) (m : Mixer.state) (r : state) : Z * Mixer.state :=
  (b2i (negb (peek r 0 =? 0)), Mixer.add (p g r) m).

End RunContextMap.

(** ** ContextMap *)

(** the run model kept in [runp[i][0..1]], at a byte boundary: the count
    and the byte after the byte [c1] is seen *)
Definition run_update (count byte c1 : Z) : Z * Z :=
  if count =? 0 then (2, c1)                    (* new context *)
  else if negb (byte =? c1) then (1, c1)        (* different byte in context *)
  else if count <? 254 then (count + 2, byte)   (* same byte in context *)
  else if count =? 255 then (128, byte)
  else (count, byte).

Module ContextMap.

(** The table [t] of [tsize] elements [E] of 64 bytes, as cells at the
    offsets of the members: in the element [e], [chk[i]] is the cell
    [e*64 + 2*i], [last] the cell [e*64 + 14] and [bh[i][k]] the cell
    [e*64 + 15 + 7*i + k].  [cp], [cp0] and [runp] hold such offsets, 0
    being the null pointer. *)
Record state := {
  C : Z;                       (* max number of contexts *)
  tsize : Z;                   (* t.size() *)
  t : array;                   (* bit histories for bits 0-1, 2-4, 5-7 *)
  cp : array;                  (* C pointers to current bit history *)
  cp0 : array;                 (* first element of 7 element array containing cp[i] *)
  cxt : array;                 (* C whole byte contexts (hashes) *)
  runp : array;                (* C [0..3] = count, value, unused, unused *)
  sm : Z -> StateMap.state;    (* C maps of state -> p *)
  cn : Z                       (* next context to set by set() *)
}.

Definition with_t (v : array) (s : state) : state :=
  {| C := C s; tsize := tsize s; t := v; cp := cp s; cp0 := cp0 s;
     cxt := cxt s; runp := runp s; sm := sm s; cn := cn s |}.
Definition with_cp (v : array) (s : state) : state :=
  {| C := C s; tsize := tsize s; t := t s; cp := v; cp0 := cp0 s;
     cxt := cxt s; runp := runp s; sm := sm s; cn := cn s |}.
Definition with_cp0 (v : array) (s : state) : state :=
  {| C := C s; tsize := tsize s; t := t s; cp := cp s; cp0 := v;
     cxt := cxt s; runp := runp s; sm := sm s; cn := cn s |}.
Definition with_cxt (v : array) (s : state) : state :=
  {| C := C s; tsize := tsize s; t := t s; cp := cp s; cp0 := cp0 s;
     cxt := v; runp := runp s; sm := sm s; cn := cn s |}.
Definition with_runp (v : array) (s : state) : state :=
  {| C := C s; tsize := tsize s; t := t s; cp := cp s; cp0 := cp0 s;
     cxt := cxt s; runp := v; sm := sm s; cn := cn s |}.
Definition with_sm (v : Z -> StateMap.state) (s : state) : state :=
  {| C := C s; tsize := tsize s; t := t s; cp := cp s; cp0 := cp0 s;
     cxt := cxt s; runp := runp s; sm := v; cn := cn s |}.
Definition with_cn (v : Z) (s : state) : state :=
  {| C := C s; tsize := tsize s; t := t s; cp := cp s; cp0 := cp0 s;
     cxt := cxt s; runp := runp s; sm := sm s; cn := v |}.

(** the offsets of [chk[i]], [last] and [bh[i][0]] in the element [e] *)
Definition chk_at (e i : Z) : Z := e * 64 + 2 * i.
Definition last_at (e : Z) : Z := e * 64 + 14.
Definition bh_at (e i : Z) : Z := e * 64 + 15 + 7 * i.

(** [memset(&bh[bi][0], 0, 7)] *)
Definition clear7 (a : Z) (t : array) : array :=
  fun k => if (a <=? k) && (k <? a + 7) then 0 else t k.

(** the loop of [E::get] from [i] on, [b] and [bi] the lowest priority
    found so far and its place *)
Fixpoint E_scan (fuel : nat) (e ch i b bi : Z) (t : array) : Z * array :=
  let last := t (last_at e) in
  match fuel with
  | O =>
      let t := Arr.set t (last_at e) (u8 (Z.lor 240 bi)) in
      let t := Arr.set t (chk_at e bi) ch in
      (bh_at e bi, clear7 (bh_at e bi) t)
  | S fuel' =>
      if t (chk_at e i) =? ch
      then (bh_at e i, Arr.set t (last_at e) (u8 (Z.lor (Z.shiftl last 4) i)))
      else
        let pri := t (bh_at e i) in
        if negb (Z.land last 15 =? i) && negb (Z.shiftr last 4 =? i) && (pri <? b)
        then E_scan fuel' e ch (i + 1) pri i t
        else E_scan fuel' e ch (i + 1) b bi t
  end.

(** [U8* E::get(U16 ch)] on the element [e] *)
Definition E_get (e ch : Z) (t : array) : Z * array :=
  let last := t (last_at e) in
  if t (chk_at e (Z.land last 15)) =? ch
  then (bh_at e (Z.land last 15), t)
  else E_scan 7 e ch 0 65535 0 t.

(** [ContextMap::ContextMap(int m, int c)] *)
Definition ctor (m c : Z) : state :=
  {| C := c; tsize := Z.shiftr m 6; t := zeros;
     cp := Arr.init c (fun _ => bh_at 0 0);
     cp0 := Arr.init c (fun _ => bh_at 0 0);
     cxt := zeros;
     runp := Arr.init c (fun _ => bh_at 0 0 + 3);
     sm := fun _ => StateMap.ctor;
     cn := 0 |}.

(** [void set(U32 cx, int next)] *)
Definition set (cx next : Z) (s : state) : state :=
  let i := Z.land (cn s) next in
  let s := with_cn (cn s + 1) s in
  let cx := u32 (cx * 987654323 + i) in
  let cx := Z.lor (u32 (Z.shiftl cx 16)) (Z.shiftr cx 16) in
  with_cxt (Arr.set (cxt s) i (u32 (cx * 123456791 + i))) s.

(** [t[cx + c & t.size() - 1].get(cx >> 16)] *)
Definition lookup (cx c : Z) (s : state) : Z * array :=
  E_get (Z.land (u32 (cx + c)) (tsize s - 1)) (Z.shiftr cx 16) (t s).

(** the block of [mix1] that fills the pending bit histories of the bits
    2-7 of the byte kept in [cp0[i][4]] *)
Definition pending (i : Z) (s : state) : state :=
  let c := t s (cp0 s i + 4) + 256 in
  let '(p, t1) := lookup (cxt s i) (Z.shiftr c 6) s in
  let t1 := Arr.set t1 p (1 + Z.land (Z.shiftr c 5) 1) in
  let t1 := Arr.set t1 (p + 1 + Z.land (Z.shiftr c 5) 1) (1 + Z.land (Z.shiftr c 4) 1) in
  let t1 := Arr.set t1 (p + 3 + Z.land (Z.shiftr c 4) 3) (1 + Z.land (Z.shiftr c 3) 1) in
  let s := with_t t1 s in
  let '(p, t2) := lookup (cxt s i) (Z.shiftr c 3) s in
  let t2 := Arr.set t2 p (1 + Z.land (Z.shiftr c 2) 1) in
  let t2 := Arr.set t2 (p + 1 + Z.land (Z.shiftr c 2) 1) (1 + Z.land (Z.shiftr c 1) 1) in
  let t2 := Arr.set t2 (p + 3 + Z.land (Z.shiftr c 1) 3) (1 + Z.land c 1) in
  let s := with_t t2 s in
  with_t (Arr.set (t s) (cp0 s i + 6) 0) s.

(** the body of the loop of [mix1] for the context [i] *)
Definition mix1_body (g : Ctx) (cc bp c1 y1 : Z) (i : Z)
  (st : Z * Mixer.state * Random * state) : Z * Mixer.state * Random * state :=
  let '(result, m, r, s) := st in
  (* Update model with y *)
  let '(r, s) :=
    if cp s i =? 0 then (r, s)
    else
      let ns := nex (t s (cp s i)) y1 in
      let '(ns, r) :=
        if 204 <=? ns then
          let '(v, r) := rnd r in
          if u32 (Z.shiftl v (Z.shiftr (452 - ns) 3)) =? 0 then (ns, r)
          else (ns - 4, r)
        else (ns, r) in
      (r, with_t (Arr.set (t s) (cp s i) (u8 ns)) s) in
  (* Update context pointers *)
  let s :=
    if (1 <? bpos g) && (t s (runp s i) =? 0)
    then with_cp (Arr.set (cp s) i 0) s
    else if (bpos g =? 1) || (bpos g =? 3) || (bpos g =? 6)
    then with_cp (Arr.set (cp s) i (cp0 s i + 1 + Z.land cc 1)) s
    else if (bpos g =? 4) || (bpos g =? 7)
    then with_cp (Arr.set (cp s) i (cp0 s i + 3 + Z.land cc 3)) s
    else
      let '(p, t1) := lookup (cxt s i) cc s in
      let s := with_t t1 s in
      let s := with_cp (Arr.set (cp s) i p) s in
      let s := with_cp0 (Arr.set (cp0 s) i p) s in
      if bpos g =? 0 then
        (* Update pending bit histories for bits 2-7 *)
        let s := if t s (cp0 s i + 3) =? 2 then pending i s else s in
        (* Update run count of previous context; a cell the code leaves
           as it is gets its own value again *)
        let '(count, byte) := run_update (t s (runp s i)) (t s (runp s i + 1)) c1 in
        let s := with_t (Arr.set (Arr.set (t s) (runp s i) (u8 count))
                           (runp s i + 1) (u8 byte)) s in
        with_runp (Arr.set (runp s) i (cp0 s i + 3)) s
      else s in
  (* predict from last byte in context *)
  let rc := t s (runp s i) in
  let m :=
    if Z.shiftr (t s (runp s i + 1) + 256) (8 - bp) =? cc then
      let b := Z.land (Z.shiftr (t s (runp s i + 1)) (7 - bp)) 1 * 2 - 1 in
      let c := Z.shiftl (ilog (rc + 1)) (2 + Z.land (Z.lnot rc) 1) in
      Mixer.add (b * c) m
    else Mixer.add 0 m in
  (* predict from bit context *)
  let '(res, m, smi) := mix2 y1 m (if cp s i =? 0 then 0 else t s (cp s i)) (sm s i) in
  let s := with_sm (fun k => if k =? i then smi else sm s k) s in
  (result + res, m, r, s).

(** [int mix1(Mixer& m, int cc, int bp, int c1, int y1)] *)
Definition mix1 (g : Ctx) (cc bp c1 y1 : Z) (m : Mixer.state) (r : Random) (s : state)
  : Z * Mixer.state * Random * state :=
  let '(result, m, r, s) := for_ 0 (cn s) (mix1_body g cc bp c1 y1) (0, m, r, s) in
  let s := if bp =? 7 then with_cn 0 s else s in
  (result, m, r, s).

(** [int mix(Mixer& m)] *)
Definition mix (y : Z) (g : Ctx) (m : Mixer.state) (r : Random) (s : state)
  : Z * Mixer.state * Random * state :=
  mix1 g (c0 g) (bpos g) (Buf_back g 1) y m r s.

End ContextMap.

(** ** contextModel2 *)

Module ContextModel2.

(** the enumerators of [Filetype] used here, numbered as the declaration
    [{DEFAULT, JPEG, EXE, TEXT}] kept in the file's comment has them *)
Definition DEFAULT : Z := 0.
Definition EXE : Z := 2.

(** the function's static variables *)
Record state := {
  cm : ContextMap.state;
  rcm7 : RunContextMap.state;
  rcm9 : RunContextMap.state;
  rcm10 : RunContextMap.state;
  m : Mixer.state;
  cxt : array;      (* order 0-11 contexts *)
  filetype : Z;
  size : Z          (* bytes remaining in block *)
}.

(** their initialisers; [MEM] is a macro of the build *)
Definition ctor (MEM : Z) : state :=
  {| cm := ContextMap.ctor (MEM * 32) 9;
     rcm7 := RunContextMap.ctor MEM;
     rcm9 := RunContextMap.ctor MEM;
     rcm10 := RunContextMap.ctor MEM;
     m := Mixer.ctor 800 3088 7 128;
     cxt := zeros;
     filetype := DEFAULT;
     size := 0 |}.

(** [int contextModel2()] *)
Definition run (y : Z) (g : Ctx) (r : Random) (s : state) : Z * Random * state :=
  (* Parse filetype and size *)
  let '(filetype, size) :=
    if bpos g =? 0 then
      let size := int (size s - 1) in
      let filetype := if size =? -1 then Buf_back g 1 else filetype s in
      if size =? -5 then
        let size :=
          int (Z.lor (Z.lor (Z.lor (Z.shiftl (Buf_back g 4) 24)
                                   (Z.shiftl (Buf_back g 3) 16))
                            (Z.shiftl (Buf_back g 2) 8))
                     (Buf_back g 1)) in
        (filetype, if filetype =? EXE then int (size + 8) else size)
      else (filetype, size)
    else (filetype s, size s) in
  let m := Mixer.update y (m s) in
  let m := Mixer.add 256 m in
  (* Normal model *)
  let '(cxt, cm, rcm7, rcm9, rcm10) :=
    if bpos g =? 0 then
      (* update order 0-11 context hashes, i = 15 down to 1 *)
      let cxt :=
        for_ 0 15
          (fun k c =>
             let i := 15 - k in
             Arr.set c i (u32 (c (i - 1) * 257 + Z.land (c4 g) 255 + 1)))
          (cxt s) in
      let cm := for_ 0 7 (fun i cm => ContextMap.set (cxt i) (-1) cm) (cm s) in
      let rcm7 := RunContextMap.set g (cxt 7) (rcm7 s) in
      let cm := ContextMap.set (cxt 8) (-1) cm in
      let rcm9 := RunContextMap.set g (cxt 10) (rcm9 s) in
      let rcm10 := RunContextMap.set g (cxt 12) (rcm10 s) in
      let cm := ContextMap.set (cxt 14) (-1) cm in
      (cxt, cm, rcm7, rcm9, rcm10)
    else (cxt s, cm s, rcm7 s, rcm9 s, rcm10 s) in
  let '(order, m, r, cm) := ContextMap.mix y g m r cm in
  let '(_, m) := RunContextMap.mix g m rcm7 in
  let '(_, m) := RunContextMap.mix g m rcm9 in
  let '(_, m) := RunContextMap.mix g m rcm10 in
  let order := order - 2 in
  let order := if order <? 0 then 0 else order in
  let c1 := Buf_back g 1 in
  let c2 := Buf_back g 2 in
  let c3 := Buf_back g 3 in
  let m := Mixer.set (c1 + 8) 264 m in
  let m := Mixer.set (c0 g) 256 m in
  let m := Mixer.set (order + 8 * Z.land (Z.shiftr (c4 g) 5) 7
                      + 64 * b2i (c1 =? c2) + 128 * b2i (filetype =? EXE)) 256 m in
  let m := Mixer.set c2 256 m in
  let m := Mixer.set c3 256 m in
  let c :=
    if negb (bpos g =? 0) then
      let c := u32 (Z.shiftl (c0 g) (8 - bpos g)) in
      let c := if bpos g =? 1 then u32 (c + c3 / 2) else c in
      u32 (Z.min (bpos g) 5 * 256 + c1 / 32 + 8 * (c2 / 32) + Z.land c 192)
    else u32 (c3 / 128 + Z.shiftr (c4 g) 31 * 2 + 4 * (c2 / 64) + Z.land c1 240) in
  let m := Mixer.set c 1536 m in
  let '(pr, m) := Mixer.p y m in
  (pr,
   r,
   {| cm := cm; rcm7 := rcm7; rcm9 := rcm9; rcm10 := rcm10; m := m;
      cxt := cxt; filetype := filetype; size := size |}).

End ContextModel2.

(** ** Predictor *)

Module Predictor.

(** the member [pr], the static maps of [update], and the globals the
    predictor sets or that its models keep *)
Record state := {
  pr : Z;                       (* next prediction *)
  a : APM.state;
  a1 : APM.state; a2 : APM.state; a3 : APM.state;
  a4 : APM.state; a5 : APM.state; a6 : APM.state;
  g : Ctx;                      (* c0, c4, bpos, buf, pos *)
  rnd : Random;
  cm2 : ContextModel2.state
}.

(** the first [Predictor::Predictor()] of a program: the member [pr], and
    the globals and the statics at their initial values *)
Definition ctor (MEM : Z) : state :=
  {| pr := 2048;
     a := APM.ctor 256;
     a1 := APM.ctor 65536; a2 := APM.ctor 65536; a3 := APM.ctor 65536;
     a4 := APM.ctor 65536; a5 := APM.ctor 65536; a6 := APM.ctor 65536;
     g := Ctx_init;
     rnd := Random_ctor;
     cm2 := ContextModel2.ctor MEM |}.


(** Modelled from the spec: [Predictor::p()], declared in the header, is
    the current 12-bit probability, the member [pr]. *)
Definition p (s : state) : Z := pr s.

(** the first block of [update]: pos, bpos, c0, c4, buf *)
Definition update_ctx (y : Z) (g : Ctx) : Ctx :=
  let c := c0 g + (c0 g + y) in
  let g :=
    if 256 <=? c then
      {| c0 := 1;
         c4 := u32 (Z.shiftl (c4 g) 8 + c - 256);
         bpos := bpos g;
         buf := Buf_store (buf g) (pos g) c;
         pos := int (pos g + 1) |}
    else
      {| c0 := c; c4 := c4 g; bpos := bpos g; buf := buf g; pos := pos g |} in
  {| c0 := c0 g; c4 := c4 g; bpos := Z.land (bpos g + 1) 7;
     buf := buf g; pos := pos g |}.

(** [void Predictor::update()], [y] being the bit just coded *)
Definition update (y : Z) (s : state) : state :=
  (* Update global context: pos, bpos, c0, c4, buf *)
  let g := update_ctx y (g s) in
  (* Filter the context model with APMs *)
  let '(pr0, r, cm2) := ContextModel2.run y g (rnd s) (cm2 s) in
  let c1 := Buf_back g 1 in
  let c2 := Buf_back g 2 in
  let c3 := Buf_back g 3 in
  let '(pr, a) := APM.p y pr0 (c0 g) 7 (a s) in
  let '(pr1, a1) := APM.p y pr0 (c0 g + 256 * c1) 7 (a1 s) in
  let '(pr2, a2) :=
    APM.p y pr0 (Z.lxor (c0 g) (Z.land (hash2 c1 c2) 65535)) 7 (a2 s) in
  let '(pr3, a3) :=
    APM.p y pr0 (Z.lxor (c0 g) (Z.land (hash3 c1 c2 c3) 65535)) 7 (a3 s) in
  let pr0 := Z.shiftr (pr0 + pr1 + pr2 + pr3 + 2) 2 in
  let '(pr1, a4) := APM.p y pr (c0 g + 256 * c1) 7 (a4 s) in
  let '(pr2, a5) :=
    APM.p y pr (Z.lxor (c0 g) (Z.land (hash2 c1 c2) 65535)) 7 (a5 s) in
  let '(pr3, a6) :=
    APM.p y pr (Z.lxor (c0 g) (Z.land (hash3 c1 c2 c3) 65535)) 7 (a6 s) in
  let pr := Z.shiftr (pr + pr1 + pr2 + pr3 + 2) 2 in
  let pr := Z.shiftr (pr + pr0 + 1) 1 in
  {| pr := pr; a := a; a1 := a1; a2 := a2; a3 := a3; a4 := a4; a5 := a5;
     a6 := a6; g := g; rnd := r; cm2 := cm2 |}.

(** the predictor after the bits of [bits], coded in order *)
Definition run (MEM : Z) (bits : list bool) : state :=
  fold_left (fun s y => update (b2i y) s) bits (ctor MEM).

(** the values [p()] shows the coder: before the first bit and after each
    [update] *)
Fixpoint outputs (s : state) (bits : list bool) : list Z :=
  p s ::
  match bits with
  | [] => []
  | y :: bits' => outputs (update (b2i y) s) bits'
  end.

End Predictor.

(** ** ProgramChecker, Array and String *)

Module ProgramChecker.

(** [memused] and [maxmem]; the clock is not modelled *)
Record state := { memused : Z; maxmem : Z }.

Definition ctor : state := {| memused := 0; maxmem := 0 |}.

(** [void alloc(int n)] *)
Definition alloc (n : Z) (p : state) : state :=
  let m := int (memused p + n) in
  {| memused := m; maxmem := if maxmem p <? m then m else maxmem p |}.

End ProgramChecker.

Module newArray.

Section Instance.

(** the template arguments: [ALIGN], and [sizeof(T)] for the element
    type, whose values are integers here, 0 standing for zero bits *)
Variables (ALIGN sizeofT : Z).

(** [data] lists the [reserved] elements allocated, and is empty for a
    null pointer; where the block lies ([ptr], and the alignment of [data]
    in it) does not show in the elements and is left out.  [calloc] is
    taken to succeed.  An operation returns [None] where the code reads or
    writes outside the block. *)
Record state := { n : Z; reserved : Z; data : list Z }.

(** [void create(int i)] *)
Definition create (i : Z) (pc : ProgramChecker.state) : state * ProgramChecker.state :=
  if i <=? 0 then ({| n := i; reserved := i; data := [] |}, pc)
  else
    let sz := int (ALIGN + i * sizeofT) in
    ({| n := i; reserved := i; data := repeat 0 (Z.to_nat i) |},
     ProgramChecker.alloc sz pc).

(** [explicit newArray(int i)] *)
Definition ctor (i : Z) (pc : ProgramChecker.state) : state * ProgramChecker.state :=
  create i pc.

(** [~newArray()] *)
Definition dtor (a : state) (pc : ProgramChecker.state) : ProgramChecker.state :=
  ProgramChecker.alloc (int (- ALIGN - n a * sizeofT)) pc.

(** [T& operator[](int i)], read: no bounds check is compiled in *)
Definition get (a : state) (i : Z) : option Z :=
  if (0 <=? i) && (i <? reserved a) then Some (nth (Z.to_nat i) (data a) 0) else None.

(** [int size() const] *)
Definition size (a : state) : Z := n a.

(** [void resize(int i)] *)
Definition resize (i : Z) (a : state) (pc : ProgramChecker.state)
  : option (state * ProgramChecker.state) :=
  if i <=? reserved a then Some ({| n := i; reserved := reserved a; data := data a |}, pc)
  else
    let saven := n a in
    let '(a', pc) := create i pc in
    if 0 <? reserved a then          (* saveptr, and so savedata *)
      let k := Z.min i saven in
      if (0 <=? k) && (k <=? reserved a) && (k <=? reserved a') then
        (* memcpy(data, savedata, sizeof(T)*min(i, saven)) *)
        Some ({| n := n a'; reserved := reserved a';
                 data := firstn (Z.to_nat k) (data a) ++ skipn (Z.to_nat k) (data a') |},
              ProgramChecker.alloc (int (- ALIGN - n a' * sizeofT)) pc)
      else None
    else Some (a', pc).

(** [void pop_back()] *)
Definition pop_back (a : state) : state :=
  if 0 <? n a then {| n := n a - 1; reserved := reserved a; data := data a |} else a.

(** [data[i] = x] *)
Fixpoint store (l : list Z) (i : nat) (x : Z) : list Z :=
  match l, i with
  | [], _ => []
  | _ :: l', O => x :: l'
  | v :: l', S i' => v :: store l' i' x
  end.

(** [void push_back(const T& x)] *)
Definition push_back (x : Z) (a : state) (pc : ProgramChecker.state)
  : option (state * ProgramChecker.state) :=
  let r :=
    if n a =? reserved a then
      let saven := n a in
      match resize (Z.max 1 (int (n a * 2))) a pc with
      | Some (a', pc) => Some ({| n := saven; reserved := reserved a'; data := data a' |}, pc)
      | None => None
      end
    else Some (a, pc) in
  match r with
  | Some (a, pc) =>
      if (0 <=? n a) && (n a <? reserved a)
      then Some ({| n := n a + 1; reserved := reserved a;
                    data := store (data a) (Z.to_nat (n a)) x |}, pc)
      else None
  | None => None
  end.

End Instance.

End newArray.

Module String.

(** a [String] is a [newArray<char>]: no alignment, elements of 1 byte *)
Definition state := newArray.state.

(** the loop [while ( *s ) push_back( *s++ )] of [operator+=]; [s] lists
    the bytes at the pointer, which must hold a NUL *)
Fixpoint push_chars (s : list Z) (a : state) (pc : ProgramChecker.state)
  : option (state * ProgramChecker.state) :=
  match s with
  | [] => None
  | c :: s' =>
      if c =? 0 then Some (a, pc)
      else
        match newArray.push_back 0 1 c a pc with
        | Some (a, pc) => push_chars s' a pc
        | None => None
        end
  end.

(** [void operator+=(const char* s)] *)
Definition plus_eq (s : list Z) (a : state) (pc : ProgramChecker.state)
  : option (state * ProgramChecker.state) :=
  let a := newArray.pop_back a in
  match push_chars s a pc with
  | Some (a, pc) => newArray.push_back 0 1 0 a pc
  | None => None
  end.

(** [String(const char* s)] *)
Definition ctor (s : list Z) (pc : ProgramChecker.state)
  : option (state * ProgramChecker.state) :=
  let '(a, pc) := newArray.ctor 0 1 1 pc in
  plus_eq s a pc.

(** [const char* c_str() const]: the bytes at [&( *this)[0]], up to the
    end of the block *)
Definition c_str (a : state) : list Z := newArray.data a.

End String.

(** ** Finite ranges, for properties settled by enumeration *)

(** the [n] integers from [lo] on *)
Definition zrange (lo : Z) (n : nat) : list Z :=
  map (fun k => lo + Z.of_nat k) (seq 0 n).

(** ** A mixer driven through its interface *)

(** one coding step of a mixer with a single input [x] and a single weight
    set: [add], [set], [p], then [update] on the bit [y] *)
Definition Mixer_round (x y : Z) (m : Mixer.state) : Mixer.state :=
  let m := Mixer.add x m in
  let m := Mixer.set 0 1 m in
  let '(_, m) := Mixer.p y m in
  Mixer.update y m.

Fixpoint Mixer_rounds (n : nat) (x y : Z) (m : Mixer.state) : Mixer.state :=
  match n with
  | O => m
  | S n' => Mixer_rounds n' x y (Mixer_round x y m)
  end.

(** every weight of the mixer is a [short] *)
Definition wx_ok (f : Mixer.fields) : Prop :=
  forall k, -32768 <= Mixer.wx f k <= 32767.

(** every stored prediction is a 12-bit probability *)
Definition pr_ok (f : Mixer.fields) : Prop :=
  forall i, 0 <= Mixer.pr f i <= 4095.

(** ** One step of train *)

(** the change [train] adds to a weight for the input [t] and the error
    [err], and the clamp it applies to the sum *)
Definition train_step (t err : Z) : Z :=
  Z.shiftr (Z.shiftr (int (t * err * 2)) 16 + 1) 1.

Definition sat16 (x : Z) : Z :=
  if x <? -32768 then -32768 else if 32767 <? x then 32767 else x.

(** ** The run model, as the specification words it *)

(** "new-context -> (2, c1); byte-mismatch -> (1, c1); byte-match ->
    count += 2 (saturates by wrapping: 255 -> 128)" *)
Definition run_update_spec (count byte c1 : Z) : Z * Z :=
  if count =? 0 then (2, c1)
  else if negb (byte =? c1) then (1, c1)
  else if count =? 255 then (128, byte)
  else (count + 2, byte).

(** the run model after [n] further bytes equal to [c1] *)
Fixpoint run_repeat (n : nat) (c1 : Z) (cb : Z * Z) : Z * Z :=
  match n with
  | O => cb
  | S n' => run_repeat n' c1 (run_update (fst cb) (snd cb) c1)
  end.

(** ** A StateMap asked for one context again and again *)

(** the probabilities returned by [n] calls [p(cx)], the bit being [y]
    throughout *)
Fixpoint StateMap_calls (n : nat) (y cx : Z) (s : StateMap.state) : list Z :=
  match n with
  | O => []
  | S n' =>
      let '(r, s') := StateMap.p y cx s in
      r :: StateMap_calls n' y cx s'
  end.

(** the training of an entry [v] in [p], as stored *)
Definition sm_train (y v : Z) : Z :=
  u16 (v + Z.shiftr (Z.shiftl y 16 - v + 128) 8).

(** an entry trained [n] times *)
Fixpoint sm_trained (n : nat) (y v : Z) : Z :=
  match n with
  | O => v
  | S n' => sm_trained n' y (sm_train y v)
  end.

(** every entry of the table is a 16-bit value *)
Definition sm_ok (s : StateMap.state) : Prop :=
  forall k, 0 <= StateMap.t s k <= 65535.

(** ** The global context *)

(** what holds of [c0], [bpos], [c4] and [buf] between two calls of
    [update]: [c0] is the bits of the current byte under a leading 1, and
    the last byte of [c4] is the last byte of [buf] *)
Definition ctx_ok (g : Ctx) : Prop :=
  bsize (buf g) = 16777216 /\
  0 <= bpos g <= 7 /\
  2 ^ bpos g <= c0 g < 2 ^ (bpos g + 1) /\
  Z.land (c4 g) 255 = Buf_back g 1.

(** every entry of the table of an APM is a 16-bit value *)
Definition apm_ok (a : APM.state) : Prop :=
  forall k, 0 <= APM.t a k <= 65535.

(** ** The predictor between two calls *)

(** the tables of the seven APMs hold 16-bit values and [pr] is a 12-bit
    probability *)
Definition pred_ok (s : Predictor.state) : Prop :=
  0 <= Predictor.pr s <= 4095 /\
  apm_ok (Predictor.a s) /\
  apm_ok (Predictor.a1 s) /\ apm_ok (Predictor.a2 s) /\ apm_ok (Predictor.a3 s) /\
  apm_ok (Predictor.a4 s) /\ apm_ok (Predictor.a5 s) /\ apm_ok (Predictor.a6 s).

(** ** What is checked of squash and stretch at every argument *)

(** the conjunction checked at every [d], on the values [s] of
    [stretch (squash d)] and [q], [q0] of [squash] at [s] and at [d] *)
Definition band_ok (d s q q0 : Z) : bool :=
  (d - 127 <=? s) && (s <=? d) && (q =? q0)
  && implb ((-897 <=? d) && (d <=? 899)) (Z.abs (s - d) <=? 1).

Definition stretch_squash_ok (d : Z) : bool :=
  band_ok d (stretch (squash d)) (squash (stretch (squash d))) (squash d).

(** the conjunction checked at every [p], on the value [q] of
    [squash (stretch p)] *)
Definition unband_ok (p q : Z) : bool :=
  (p - 1 <=? q) && (q <=? p + 3) && implb (p <=? 4094) (p <=? q).

Definition squash_stretch_ok (p : Z) : bool := unband_ok p (squash (stretch p)).

(** ** The table of a new APM *)

(** the content of the table: every row is the row 0 *)
Definition apm_row (k : Z) : Z := squash ((k mod 33 - 16) * 128) * 16.

(** ** The stored predictions of a mixer and of the mixer it feeds *)

Fixpoint state_pr_ok (m : Mixer.state) : Prop :=
  match m with
  | Mixer.Mk f c =>
      pr_ok f /\ match c with Some c' => state_pr_ok c' | None => True end
  end.

(** the mixer in the state threaded through the loop of [mix1] *)
Definition mixer_of (st : Z * Mixer.state * Random * ContextMap.state) : Mixer.state :=
  snd (fst (fst st)).

(** ** llog *)

(** [int llog(U32 x)] *)
Definition llog (x : Z) : Z :=
  if 16777216 <=? x then 256 + ilog (Z.shiftr x 16)
  else if 65536 <=? x then 128 + ilog (Z.shiftr x 8)
  else ilog x.

(** ** Checks over whole tables *)

(** the list never falls *)
Fixpoint sortedb (l : list Z) : bool :=
  match l with
  | a :: ((c :: _) as t) => (a <=? c) && sortedb t
  | _ => true
  end.

(** what is checked of [stretch] at every probability below 4095: it is
    reached by [squash], and not one step earlier *)
Definition stretch_least_ok (p : Z) : bool :=
  (p <=? squash (stretch p))
  && ((stretch p =? -2047) || (squash (stretch p - 1) <? p)).

(** what is checked of every bit-history state [s]: where it leads, what
    the counts of the next state are, and how it compares with the state
    after it *)
Definition state_ok (s : Z) : bool :=
  (1 <=? nex s 0) && (nex s 0 <=? 252) && (1 <=? nex s 1) && (nex s 1 <=? 252)
  && (1 <=? nex (nex s 0) 2) && (1 <=? nex (nex s 1) 3)
  && (nex (nex s 1) 2 <=? nex s 2) && (nex (nex s 0) 3 <=? nex s 3).

(** the probability a new StateMap gives the state [i] *)
Definition sm_init_ok (i : Z) : bool :=
  let t := StateMap.t StateMap.ctor i in
  (24 <=? t) && (t <=? 65511) && Bool.eqb (32768 <=? t) (nex i 2 <=? nex i 3).

(** the bit-history state after the bits of [bits], from [s] *)
Definition nex_run (bits : list bool) (s : Z) : Z :=
  fold_left (fun s y => nex s (b2i y)) bits s.

(** ** An APM asked for one probability and context again and again *)

(** the probabilities returned by [n] calls [p(pr, cx)] at the default
    rate 7, the bit being [y] throughout *)
Fixpoint APM_calls (n : nat) (y pr cx : Z) (a : APM.state) : list Z :=
  match n with
  | O => []
  | S n' =>
      let '(r, a') := APM.p y pr cx 7 a in
      r :: APM_calls n' y pr cx a'
  end.

(** the training of an entry [v] in [p] at the rate 7, as stored *)
Definition apm_train (y v : Z) : Z :=
  u16 (v + Z.shiftr (Z.shiftl y 16 + Z.shiftl y 7 - y - y - v) 7).

Fixpoint apm_trained (n : nat) (y v : Z) : Z :=
  match n with
  | O => v
  | S n' => apm_trained n' y (apm_train y v)
  end.

(** what a table as the constructor leaves it returns for [pr], in a
    context whose row was never trained *)
Definition apm_interp (pr : Z) : Z :=
  let s := stretch pr in
  let w := Z.land s 127 in
  let j := Z.shiftr (s + 2048) 7 in
  Z.shiftr (apm_row j * (128 - w) + apm_row (j + 1) * w) 11.

Definition apm_interp_ok (pr : Z) : bool :=
  (pr - 1 <=? apm_interp pr) && (apm_interp pr <=? pr + 3).

(** ** Whole bytes through the predictor *)

(** the bits of a byte as the coder sends them, the high bit first *)
Definition byte_bits (x : Z) : list bool :=
  map (fun k => Z.testbit x k) [7; 6; 5; 4; 3; 2; 1; 0].

Definition bytes_bits (l : list Z) : list bool := flat_map byte_bits l.

(** the first block of [update] along the bits of [bits] *)
Definition ctx_run (bits : list bool) (g : Ctx) : Ctx :=
  fold_left (fun g y => Predictor.update_ctx (b2i y) g) bits g.

(** the [i]'th byte back in [l], 1 being the last; 0 beyond its start *)
Definition back (l : list Z) (i : Z) : Z :=
  if (1 <=? i) && (i <=? Z.of_nat (length l))
  then nth (Z.to_nat (Z.of_nat (length l) - i)) l 0
  else 0.

(** a byte is the sum of its bits *)
Definition byte_sum_ok (x : Z) : bool :=
  x =? 128 * b2i (Z.testbit x 7) + 64 * b2i (Z.testbit x 6)
       + 32 * b2i (Z.testbit x 5) + 16 * b2i (Z.testbit x 4)
       + 8 * b2i (Z.testbit x 3) + 4 * b2i (Z.testbit x 2)
       + 2 * b2i (Z.testbit x 1) + b2i (Z.testbit x 0).

(** ** A mixer given its context sets *)

(** the calls [set(cx, range)] of [l], in order *)
Definition Mixer_sets (l : list (Z * Z)) (f : Mixer.fields) : Mixer.fields :=
  fold_left (fun f cr => Mixer.set_f (fst cr) (snd cr) f) l f.

(** the sum of the ranges of [l] *)
Definition ranges (l : list (Z * Z)) : Z :=
  fold_right (fun cr s => snd cr + s) 0 l.

(** ** The bucket of a key in a BH table *)

(** the first element of the bucket, and the checksum, that
    [operator[]] computes for [key] *)
Definition BH_bucket (key : Z) (h : BH.state) : Z :=
  Z.land (u32 (key * BH.M)) (BH.n h).
Definition BH_check (key : Z) : Z :=
  Z.land (Z.lxor (Z.shiftr key 16) key) 65535.

(** the element [e] is in use under another checksum than [ck] *)
Definition BH_other (h : BH.state) (ck e : Z) : Prop :=
  BH.t h (e * BH.B h + 2) <> 0 /\ BH.chk h e <> ck.

(** the element [e] is free, or holds the checksum [ck] *)
Definition BH_match (h : BH.state) (ck e : Z) : Prop :=
  BH.t h (e * BH.B h + 2) = 0 \/ BH.chk h e = ck.

(** a table whose elements are all in use, the element 457 under the
    checksum 12345 and the others under 0 *)
Definition BH_second : BH.state :=
  {| BH.B := 4; BH.n := 1023;
     BH.chk := fun e => if e =? 457 then 12345 else 0;
     BH.t := fun a => a mod 251 + 1 |}.

(** a table whose elements are all in use under the checksum 0 *)
Definition BH_full : BH.state :=
  {| BH.B := 4; BH.n := 1023; BH.chk := fun _ => 0; BH.t := fun _ => 1 |}.

(** ** The slots of a ContextMap element *)

(** the slot [k] of the element [e] is one of the last 2 accessed, as the
    nibbles of [last] record them *)
Definition E_recent (t : array) (e k : Z) : Prop :=
  Z.land (t (ContextMap.last_at e)) 15 = k \/ Z.shiftr (t (ContextMap.last_at e)) 4 = k.

(** what the loop of [E::get] keeps in [b] and [bi] when it reaches the
    slot [i]: the lowest priority of the slots before [i] that are not
    among the last 2 accessed, and the first slot that has it *)
Definition E_lowest (t : array) (e i b bi : Z) : Prop :=
  (b = 65535 /\ bi = 0 /\
   forall k, 0 <= k < i -> ~ E_recent t e k -> 65535 <= t (ContextMap.bh_at e k)) \/
  (0 <= bi < i /\ ~ E_recent t e bi /\ t (ContextMap.bh_at e bi) = b /\
   forall k, 0 <= k < i -> ~ E_recent t e k -> b <= t (ContextMap.bh_at e k)).

(** ** The sizes the predictor works with *)

(** the buffer holds bytes and [c4] is a 32-bit value *)
Definition buf_ok (g : Ctx) : Prop :=
  (forall k, 0 <= b (buf g) k <= 255) /\ 0 <= c4 g < 4294967296.

(** [f'] has the sizes and the selected weight sets of [f] *)
Definition same_sel (f f' : Mixer.fields) : Prop :=
  Mixer.N f' = Mixer.N f /\ Mixer.M f' = Mixer.M f /\ Mixer.S f' = Mixer.S f /\
  Mixer.cxt f' = Mixer.cxt f /\ Mixer.ncxt f' = Mixer.ncxt f /\
  Mixer.base f' = Mixer.base f.

(** [m'] is [m] after [k] more inputs *)
Definition grows (m m' : Mixer.state) (k : Z) : Prop :=
  Mixer.nx (Mixer.own m') = Mixer.nx (Mixer.own m) + k /\
  same_sel (Mixer.own m) (Mixer.own m').

(** the bounds of the masked terms of the last selector of [contextModel2] *)
Definition mask_ok (k : Z) : bool :=
  (0 <=? Z.land k 192) && (Z.land k 192 <=? 192) &&
  (0 <=? Z.land k 240) && (Z.land k 240 <=? 240).

(** the six weight sets [contextModel2] selects: each within the range
    given to [set], the ranges one after the other *)
Definition sel_ok (f : Mixer.fields) : Prop :=
  Mixer.ncxt f = 6 /\ Mixer.base f = 2824 /\
  0 <= Mixer.cxt f 0 < 264 /\ 264 <= Mixer.cxt f 1 < 520 /\
  520 <= Mixer.cxt f 2 < 776 /\ 776 <= Mixer.cxt f 3 < 1032 /\
  1032 <= Mixer.cxt f 4 < 1288 /\ 1288 <= Mixer.cxt f 5 < 2824.

(** ** The outputs of rnd *)

(** the generator after [n] calls, and the value the next call returns *)
Fixpoint rnd_state (n : nat) (r : Random) : Random :=
  match n with
  | O => r
  | S n' => snd (rnd (rnd_state n' r))
  end.
Definition rnd_out (n : nat) (r : Random) : Z := fst (rnd (rnd_state n r)).

(** the table holds 32-bit values *)
Definition rnd_ok (r : Random) : Prop := forall k, 0 <= rtable r k < 4294967296.

(** ** The pointers of a ContextMap *)




(** the two steps of the body of the loop of [mix1] that act on the
    ContextMap: the update of the bit history under [cp[i]] to the state
    [ns], and the update of the context pointers *)
Definition cm_hist (ns i : Z) (s : ContextMap.state) : ContextMap.state :=
  if ContextMap.cp s i =? 0 then s
  else ContextMap.with_t (Arr.set (ContextMap.t s) (ContextMap.cp s i) (u8 ns)) s.

Definition cm_point (g : Ctx) (cc c1 i : Z) (s : ContextMap.state) : ContextMap.state :=
  if (1 <? bpos g) && (ContextMap.t s (ContextMap.runp s i) =? 0)
  then ContextMap.with_cp (Arr.set (ContextMap.cp s) i 0) s
  else if (bpos g =? 1) || (bpos g =? 3) || (bpos g =? 6)
  then ContextMap.with_cp
         (Arr.set (ContextMap.cp s) i (ContextMap.cp0 s i + 1 + Z.land cc 1)) s
  else if (bpos g =? 4) || (bpos g =? 7)
  then ContextMap.with_cp
         (Arr.set (ContextMap.cp s) i (ContextMap.cp0 s i + 3 + Z.land cc 3)) s
  else
    let '(p, t1) := ContextMap.lookup (ContextMap.cxt s i) cc s in
    let s := ContextMap.with_t t1 s in
    let s := ContextMap.with_cp (Arr.set (ContextMap.cp s) i p) s in
    let s := ContextMap.with_cp0 (Arr.set (ContextMap.cp0 s) i p) s in
    if bpos g =? 0 then
      let s := if ContextMap.t s (ContextMap.cp0 s i + 3) =? 2
               then ContextMap.pending i s else s in
      let '(count, byte) :=
        run_update (ContextMap.t s (ContextMap.runp s i))
                   (ContextMap.t s (ContextMap.runp s i + 1)) c1 in
      let s := ContextMap.with_t
                 (Arr.set (Arr.set (ContextMap.t s) (ContextMap.runp s i) (u8 count))
                          (ContextMap.runp s i + 1) (u8 byte)) s in
      ContextMap.with_runp (Arr.set (ContextMap.runp s) i (ContextMap.cp0 s i + 3)) s
    else s.

(** ** The elements of an Array *)

(** the size is within the block allocated, whose elements [data] lists *)
Definition arr_wf (a : newArray.state) : Prop :=
  0 <= newArray.n a <= newArray.reserved a /\
  Z.of_nat (length (newArray.data a)) = newArray.reserved a.

(** the [size()] elements of the array *)
Definition arr_view (a : newArray.state) : list Z :=
  firstn (Z.to_nat (newArray.n a)) (newArray.data a).


(** * Properties *)

(** ** Enumeration over a range *)

Lemma zrange_In (lo : Z) (n : nat) (d : Z) :
  lo <= d < lo + Z.of_nat n -> In d (zrange lo n).
Proof.
  intros H. unfold zrange. apply in_map_iff.
  exists (Z.to_nat (d - lo)). split; [lia|].
  apply in_seq. lia.
Qed.

Lemma forallb_zrange (f : Z -> bool) (lo : Z) (n : nat) :
  forallb f (zrange lo n) = true ->
  forall d, lo <= d < lo + Z.of_nat n -> f d = true.
Proof.
  intros H d Hd. rewrite forallb_forall in H. apply H, zrange_In, Hd.
Qed.

(** ** Squash and stretch *)

Lemma squash_t_range (i : Z) : 0 <= tab squash_t i <= 4094.
Proof.
  unfold tab. set (n := Z.to_nat i). clearbody n.
  do 33 (destruct n as [|n]; [simpl; lia|]).
  destruct n; simpl; lia.
Qed.

(** [squash] returns a 12-bit probability, whatever its argument. *)
Lemma squash_range (d : Z) : 0 <= squash d <= 4095.
Proof.
  unfold squash.
  destruct (2047 <? d); [lia|].
  destruct (d <? -2047); [lia|].
  set (w := Z.land d 127).
  assert (Hw : 0 <= w < 128).
  { unfold w. change 127 with (Z.ones 7). rewrite Z.land_ones by lia.
    apply Z.mod_pos_bound. lia. }
  pose proof (squash_t_range (Z.shiftr d 7 + 16)) as H1.
  pose proof (squash_t_range (Z.shiftr d 7 + 16 + 1)) as H2.
  rewrite Z.shiftr_div_pow2 with (n := 7) by lia.
  change (2 ^ 7) with 128.
  split.
  - apply Z.div_pos; nia.
  - apply Z.div_le_upper_bound; nia.
Qed.

Lemma band_ok_spec (d s q q0 : Z) :
  band_ok d s q q0 = true ->
  d - 127 <= s <= d /\ q = q0 /\ (-897 <= d <= 899 -> Z.abs (s - d) <= 1).
Proof.
  unfold band_ok. intros H.
  apply andb_prop in H as [H H4]. apply andb_prop in H as [H H3].
  apply andb_prop in H as [H1 H2].
  split; [lia|]. split; [lia|].
  intros Hb.
  destruct (-897 <=? d) eqn:E1; [|lia].
  destruct (d <=? 899) eqn:E2; [|lia].
  cbn [andb implb] in H4. lia.
Qed.

Lemma stretch_squash_enum : forallb stretch_squash_ok (zrange (-2047) 4095) = true.
Proof. vm_cast_no_check (eq_refl true). Qed.

(** C3, as the code has it: over the whole domain [stretch (squash d)] is
    the least argument with the same [squash] value, at most 127 below [d];
    the band of width 1 holds on -897..899 only. *)
Theorem stretch_squash_band (d : Z) :
  -2047 <= d <= 2047 ->
  d - 127 <= stretch (squash d) <= d /\
  squash (stretch (squash d)) = squash d /\
  (-897 <= d <= 899 -> Z.abs (stretch (squash d) - d) <= 1).
Proof.
  intros Hd. apply band_ok_spec.
  apply (forallb_zrange _ _ _ stretch_squash_enum d). lia.
Qed.

Lemma stretch_squash_band_witness :
  -2047 <= -1024 <= 2047 /\
  -1024 - 127 <= stretch (squash (-1024)) <= -1024.
Proof.
  split; [lia|]. exact (proj1 (stretch_squash_band (-1024) ltac:(lia))).
Defined.

(** C3 as stated fails at d = -1024: squash is 73 on -1026..-1024 and
    stretch 73 is the first of them. *)
Lemma stretch_squash_not_within_1 :
  ~ Z.abs (stretch (squash (-1024)) - -1024) <= 1.
Proof. vm_compute. intros H. apply H. reflexivity. Qed.

Lemma unband_ok_spec (p q : Z) :
  unband_ok p q = true ->
  p - 1 <= q <= p + 3 /\ (p <= 4094 -> p <= q).
Proof.
  unfold unband_ok. intros H.
  apply andb_prop in H as [H H3]. apply andb_prop in H as [H1 H2].
  split; [lia|]. intros Hp.
  destruct (p <=? 4094) eqn:E; [|lia].
  cbn [implb] in H3. lia.
Qed.

Lemma squash_stretch_enum : forallb squash_stretch_ok (zrange 0 4096) = true.
Proof. vm_cast_no_check (eq_refl true). Qed.

(** C4, as the code has it: [squash (stretch p)] is within 3 of [p]; it
    is [p] or up to 3 more for [p] up to 4094, and it is 4094 at 4095. *)
Theorem squash_stretch_band (p : Z) :
  0 <= p <= 4095 ->
  Z.abs (squash (stretch p) - p) <= 3 /\
  (p <= 4094 -> p <= squash (stretch p) <= p + 3) /\
  (p = 4095 -> squash (stretch p) = 4094).
Proof.
  intros Hp.
  pose proof (unband_ok_spec p _
    (forallb_zrange _ _ _ squash_stretch_enum p ltac:(lia))) as [H1 H2].
  split; [lia|]. split; [intros H; specialize (H2 H); lia|].
  intros ->. vm_compute. reflexivity.
Qed.

Lemma squash_stretch_band_witness :
  0 <= 2048 <= 4095 /\ 2048 <= squash (stretch 2048) <= 2048 + 3.
Proof.
  split; [lia|].
  exact (proj1 (proj2 (squash_stretch_band 2048 ltac:(lia))) ltac:(lia)).
Defined.

(** C4 as stated fails at p = 2048: stretch 2048 is 1 and squash 1 is
    2051. *)
Lemma squash_stretch_not_within_1 :
  ~ Z.abs (squash (stretch 2048) - 2048) <= 1.
Proof. vm_compute. intros H. apply H. reflexivity. Qed.

(** ** Integer conversions, arrays and loops *)

Lemma u8_range (x : Z) : 0 <= u8 x <= 255.
Proof. unfold u8. pose proof (Z.mod_pos_bound x 256). lia. Qed.

Lemma u16_range (x : Z) : 0 <= u16 x <= 65535.
Proof. unfold u16. pose proof (Z.mod_pos_bound x 65536). lia. Qed.

Lemma u32_range (x : Z) : 0 <= u32 x <= 4294967295.
Proof. unfold u32. pose proof (Z.mod_pos_bound x 4294967296). lia. Qed.

Lemma short_range (x : Z) : -32768 <= short x <= 32767.
Proof. unfold short. pose proof (Z.mod_pos_bound (x + 32768) 65536). lia. Qed.

Lemma short_id (x : Z) : -32768 <= x <= 32767 -> short x = x.
Proof. intros H. unfold short. rewrite Z.mod_small; lia. Qed.

Lemma u8_id (x : Z) : 0 <= x <= 255 -> u8 x = x.
Proof. intros H. unfold u8. apply Z.mod_small. lia. Qed.

Lemma u16_id (x : Z) : 0 <= x <= 65535 -> u16 x = x.
Proof. intros H. unfold u16. apply Z.mod_small. lia. Qed.

Lemma int_id (x : Z) : -2147483648 <= x <= 2147483647 -> int x = x.
Proof. intros H. unfold int. rewrite Z.mod_small; lia. Qed.

Lemma set_eq (a : array) (i v : Z) : Arr.set a i v i = v.
Proof. unfold Arr.set. now rewrite Z.eqb_refl. Qed.

Lemma set_neq (a : array) (i v k : Z) : k <> i -> Arr.set a i v k = a k.
Proof. intros H. unfold Arr.set. apply Z.eqb_neq in H. now rewrite H. Qed.

(** a property of every cell survives a store of a value that has it *)
Lemma set_all (P : Z -> Prop) (a : array) (i v : Z) :
  (forall k, P (a k)) -> P v -> forall k, P (Arr.set a i v k).
Proof.
  intros Ha Hv k. unfold Arr.set. destruct (k =? i); auto.
Qed.

Lemma init_all (P : Z -> Prop) (n : Z) (f : Z -> Z) :
  P 0 -> (forall k, 0 <= k < n -> P (f k)) -> forall k, P (Arr.init n f k).
Proof.
  intros H0 Hf k. unfold Arr.init.
  destruct (0 <=? k) eqn:E1; destruct (k <? n) eqn:E2; simpl; auto.
  apply Hf. lia.
Qed.

(** loop invariants *)
Lemma for_inv {St : Type} (P : St -> Prop) (lo hi : Z) (body : Z -> St -> St) (s : St) :
  P s ->
  (forall i s, lo <= i < hi -> P s -> P (body i s)) ->
  P (for_ lo hi body s).
Proof.
  intros Hs Hb. unfold for_.
  assert (Hk : forall k, In k (seq 0 (Z.to_nat (hi - lo))) ->
                         lo <= lo + Z.of_nat k < hi).
  { intros k Hk. apply in_seq in Hk. lia. }
  revert s Hs Hk. generalize (seq 0 (Z.to_nat (hi - lo))) as l.
  induction l as [|k l IH]; intros s Hs Hk; simpl; [exact Hs|].
  apply IH.
  - apply Hb; [apply Hk; now left | exact Hs].
  - intros k' Hk'. apply Hk. now right.
Qed.

Lemma for_nil {St : Type} (lo hi : Z) (body : Z -> St -> St) (s : St) :
  hi <= lo -> for_ lo hi body s = s.
Proof.
  intros H. unfold for_. replace (Z.to_nat (hi - lo)) with O by lia. reflexivity.
Qed.

(** a loop invariant that follows the index *)
Lemma for_ind {St : Type} (P : Z -> St -> Prop) (lo hi : Z)
    (body : Z -> St -> St) (s : St) :
  lo <= hi ->
  P lo s ->
  (forall i s, lo <= i < hi -> P i s -> P (i + 1) (body i s)) ->
  P hi (for_ lo hi body s).
Proof.
  intros Hle Hs Hb. unfold for_.
  replace hi with (lo + Z.of_nat (Z.to_nat (hi - lo))) at 1 by lia.
  assert (Hn : (Z.to_nat (hi - lo) <= Z.to_nat (hi - lo))%nat) by lia.
  revert Hn. generalize (Z.to_nat (hi - lo)) at 1 3 4 as n.
  induction n as [|n IH]; intros Hn.
  - simpl. replace (lo + 0) with lo by lia. exact Hs.
  - rewrite seq_S, fold_left_app. cbn [fold_left Nat.add].
    replace (lo + Z.of_nat (S n)) with (lo + Z.of_nat n + 1) by lia.
    apply Hb; [lia|]. apply IH. lia.
Qed.

(** ** Mixer: the weights *)

(** the weight written by one step of [train] is the clamped sum; the
    store into the [short] cell does not wrap *)
Lemma train_store (w t e : Z) :
  let wt := w + Z.shiftr (Z.shiftr (int (t * e * 2)) 16 + 1) 1 in
  let wt := if wt <? -32768 then -32768 else wt in
  let wt := if 32767 <? wt then 32767 else wt in
  short wt = wt /\ -32768 <= wt <= 32767.
Proof.
  cbv zeta.
  set (wt := w + Z.shiftr (Z.shiftr (int (t * e * 2)) 16 + 1) 1).
  clearbody wt.
  destruct (wt <? -32768) eqn:E1.
  - simpl. split; [reflexivity | lia].
  - destruct (32767 <? wt) eqn:E2.
    + split; [reflexivity | lia].
    + assert (-32768 <= wt <= 32767) by lia.
      split; [apply short_id; lia | lia].
Qed.

Lemma train_ok (t w : array) (wo n e : Z) :
  (forall k, -32768 <= w k <= 32767) ->
  forall k, -32768 <= train t w wo n e k <= 32767.
Proof.
  intros Hw. unfold train.
  apply (for_inv (fun w : array => forall k, -32768 <= w k <= 32767)); [exact Hw|].
  intros i w' _ Hw' k.
  apply (set_all (fun v => -32768 <= v <= 32767)); [exact Hw'|].
  destruct (train_store (w' (wo + i)) (t i) e) as [-> H]. exact H.
Qed.

Lemma sat16_range (x : Z) : -32768 <= sat16 x <= 32767.
Proof. unfold sat16. destruct (x <? -32768) eqn:E1; [lia|]. destruct (32767 <? x) eqn:E2; lia. Qed.

(** one step of [train] stores the clamped sum *)
Lemma train_store_sat (w t e : Z) :
  short (let wt := w + Z.shiftr (Z.shiftr (int (t * e * 2)) 16 + 1) 1 in
         let wt := if wt <? -32768 then -32768 else wt in
         if 32767 <? wt then 32767 else wt)
  = sat16 (w + train_step t e).
Proof.
  destruct (train_store w t e) as [H _]. cbv zeta in H. cbv zeta. rewrite H.
  unfold sat16, train_step.
  set (wt := w + Z.shiftr (Z.shiftr (int (t * e * 2)) 16 + 1) 1).
  destruct (wt <? -32768) eqn:E1; [reflexivity|]. reflexivity.
Qed.

(** [train] on the row at [wo]: every weight of the row becomes the
    clamped sum, once; the other weights stay *)
Lemma train_row (t w : array) (wo n e : Z) : forall k,
  train t w wo n e k =
  if (wo <=? k) && (k <? wo + Z.land (n + 7) (-8))
  then sat16 (w k + train_step (t (k - wo)) e) else w k.
Proof.
  unfold train. set (n' := Z.land (n + 7) (-8)).
  destruct (Z_le_gt_dec 0 n') as [Hn | Hn].
  - apply (for_ind (fun i (w' : array) => forall k,
             w' k = if (wo <=? k) && (k <? wo + i)
                    then sat16 (w k + train_step (t (k - wo)) e) else w k)); [exact Hn | |].
    + intros k. destruct (Z.leb_spec wo k), (Z.ltb_spec k (wo + 0)); cbn [andb];
        try reflexivity; lia.
    + intros i w' Hi Hw' k. cbv zeta. rewrite train_store_sat.
      unfold Arr.set. destruct (Z.eqb_spec k (wo + i)) as [-> | Hne].
      * replace ((wo <=? wo + i) && (wo + i <? wo + (i + 1))) with true
          by (symmetry; apply andb_true_intro; split; [apply Z.leb_le | apply Z.ltb_lt]; lia).
        rewrite Hw'.
        replace ((wo <=? wo + i) && (wo + i <? wo + i)) with false
          by (symmetry; apply andb_false_iff; right; apply Z.ltb_ge; lia).
        replace (wo + i - wo) with i by lia. reflexivity.
      * rewrite Hw'.
        destruct (Z.leb_spec wo k), (Z.ltb_spec k (wo + i)), (Z.ltb_spec k (wo + (i + 1)));
          cbn [andb]; try reflexivity; lia.
  - intros k. rewrite for_nil by lia.
    destruct (Z.leb_spec wo k), (Z.ltb_spec k (wo + n')); cbn [andb]; try reflexivity; lia.
Qed.

(** C5, as the code has it: [update] leaves every weight in the range of
    the clamp of [train], -32768..32767; and where the rows of the
    selected contexts do not overlap, the weight of each input in each of
    them is the old weight plus the step of [train], clamped to that range:
    a sum that leaves the range stops at its end and does not wrap. *)
Theorem Mixer_update_weights (y : Z) (f : Mixer.fields) :
  wx_ok f ->
  let n := Z.land (Mixer.nx f + 7) (-8) in
  wx_ok (Mixer.update_f y f) /\
  ((forall i i', 0 <= i < i' -> i' < Mixer.ncxt f ->
      Mixer.cxt f i * Mixer.N f + n <= Mixer.cxt f i' * Mixer.N f \/
      Mixer.cxt f i' * Mixer.N f + n <= Mixer.cxt f i * Mixer.N f) ->
   forall i j, 0 <= i < Mixer.ncxt f -> 0 <= j < n ->
     Mixer.wx (Mixer.update_f y f) (Mixer.cxt f i * Mixer.N f + j)
     = sat16 (Mixer.wx f (Mixer.cxt f i * Mixer.N f + j)
              + train_step (Mixer.tx f j) (Mixer.err y f i))).
Proof.
  intros Hw. cbv zeta. split.
  - unfold wx_ok, Mixer.update_f. cbn [Mixer.wx].
    apply (for_inv (fun w : array => forall k, -32768 <= w k <= 32767)); [exact Hw|].
    intros i w _ Hw'. apply train_ok. exact Hw'.
  - intros Hd i j Hi Hj. unfold Mixer.update_f. cbn [Mixer.wx].
    set (n := Z.land (Mixer.nx f + 7) (-8)) in *.
    set (row := fun i => Mixer.cxt f i * Mixer.N f).
    assert (Hrows : forall a c, 0 <= a < Mixer.ncxt f -> 0 <= c < Mixer.ncxt f -> a <> c ->
                      row a + n <= row c \/ row c + n <= row a).
    { intros a c Ha Hc Hne. unfold row.
      destruct (Z_lt_ge_dec a c) as [Hlt | Hge].
      - apply Hd; lia.
      - destruct (Hd c a ltac:(lia) ltac:(lia)) as [H | H]; [right | left]; exact H. }
    assert (Hinv : forall m, 0 <= m <= Mixer.ncxt f ->
              let w' := for_ 0 m
                          (fun i w => train (Mixer.tx f) w (Mixer.cxt f i * Mixer.N f)
                                        (Mixer.nx f) (Mixer.err y f i))
                          (Mixer.wx f) in
              (forall i' j', 0 <= i' < m -> 0 <= j' < n ->
                 w' (row i' + j')
                 = sat16 (Mixer.wx f (row i' + j')
                          + train_step (Mixer.tx f j') (Mixer.err y f i'))) /\
              (forall k, (forall i', 0 <= i' < m -> k < row i' \/ row i' + n <= k) ->
                 w' k = Mixer.wx f k)).
    { intros m Hm. cbv zeta.
      apply (for_ind (fun m (w' : array) =>
               m <= Mixer.ncxt f ->
               (forall i' j', 0 <= i' < m -> 0 <= j' < n ->
                  w' (row i' + j')
                  = sat16 (Mixer.wx f (row i' + j')
                           + train_step (Mixer.tx f j') (Mixer.err y f i'))) /\
               (forall k, (forall i', 0 <= i' < m -> k < row i' \/ row i' + n <= k) ->
                  w' k = Mixer.wx f k))); [lia | | | lia].
      - intros _. split; [intros i' j' Hi'; lia | intros k _; reflexivity].
      - intros a w' Ha IH Ha1. destruct (IH ltac:(lia)) as [IH1 IH2].
        fold (row a). fold n. split.
        + intros i' j' Hi' Hj'. rewrite train_row. fold n.
          destruct (Z.eq_dec i' a) as [-> | Hne].
          * replace ((row a <=? row a + j') && (row a + j' <? row a + n)) with true
              by (symmetry; apply andb_true_intro; split;
                  [apply Z.leb_le | apply Z.ltb_lt]; lia).
            rewrite IH2.
            -- replace (row a + j' - row a) with j' by lia. reflexivity.
            -- intros c Hc. destruct (Hrows a c ltac:(lia) ltac:(lia) ltac:(lia)); lia.
          * replace ((row a <=? row i' + j') && (row i' + j' <? row a + n)) with false.
            -- apply IH1; lia.
            -- symmetry. destruct (Hrows a i' ltac:(lia) ltac:(lia) ltac:(lia)).
               ++ apply andb_false_iff; right; apply Z.ltb_ge; lia.
               ++ apply andb_false_iff; left; apply Z.leb_gt; lia.
        + intros k Hk. rewrite train_row. fold n.
          destruct (Hk a ltac:(lia)).
          * replace (row a <=? k) with false by (symmetry; apply Z.leb_gt; lia).
            cbn [andb]. apply IH2. intros c Hc. apply Hk. lia.
          * replace (k <? row a + n) with false by (symmetry; apply Z.ltb_ge; lia).
            rewrite andb_false_r. apply IH2. intros c Hc. apply Hk. lia. }
    destruct (Hinv (Mixer.ncxt f) ltac:(lia)) as [H1 _].
    exact (H1 i j Hi Hj).
Qed.

Lemma ctor_wx_ok (n m s w : Z) : wx_ok (Mixer.ctor_f n m s w).
Proof.
  unfold wx_ok, Mixer.ctor_f. simpl.
  apply (init_all (fun v => -32768 <= v <= 32767)); [lia|].
  intros k _. apply short_range.
Qed.

(** a mixer with one weight set at 32700 and the input 2047: on a 1
    predicted at 2048 the step is 448, and the sum 33148 is stored as
    32767 *)
Lemma Mixer_update_weights_witness :
  wx_ok (Mixer.set_f 0 1 (Mixer.add_f 2047 (Mixer.ctor_f 8 1 1 32700))) /\
  Mixer.wx (Mixer.update_f 1 (Mixer.set_f 0 1 (Mixer.add_f 2047 (Mixer.ctor_f 8 1 1 32700)))) 0
  = 32767.
Proof.
  assert (Hw : wx_ok (Mixer.set_f 0 1 (Mixer.add_f 2047 (Mixer.ctor_f 8 1 1 32700))))
    by exact (ctor_wx_ok 8 1 1 32700).
  split; [exact Hw|].
  exact (proj2 (Mixer_update_weights 1
                  (Mixer.set_f 0 1 (Mixer.add_f 2047 (Mixer.ctor_f 8 1 1 32700))) Hw)
           ltac:(intros i i' Hi Hi'; cbn in Hi'; lia) 0 0 ltac:(cbn; lia) ltac:(cbn; lia)).
Defined.

(** C5 as stated fails.  One step of [train] already takes a weight of
    -32700 to -32768 (input 2047, error -28665, the error of a zero bit
    predicted at 4095); and a mixer made by [Mixer(8, 1, 1, 0)] and given
    the input 1000 before each of 320 zero bits has its first weight at
    -32768 after the last [update]. *)
Lemma Mixer_update_weight_32768 :
  train (Arr.init 8 (fun _ => 2047)) (Arr.init 8 (fun _ => -32700)) 0 8 (-28665) 0
    = -32768 /\
  ~ Z.abs (Mixer.wx (Mixer.own (Mixer_rounds 320 1000 0 (Mixer.ctor 8 1 1 0))) 0)
    <= 32767.
Proof.
  split; [vm_compute; reflexivity|].
  replace (Mixer.wx (Mixer.own (Mixer_rounds 320 1000 0 (Mixer.ctor 8 1 1 0))) 0)
    with (-32768) by (vm_compute; reflexivity).
  simpl. lia.
Qed.

(** ** Mixer: the training error *)

Lemma squash_pr_ok (f : Mixer.fields) (i d : Z) :
  pr_ok f -> pr_ok (Mixer.set_pr i (squash d) f).
Proof.
  intros H. unfold pr_ok, Mixer.set_pr. simpl.
  apply (set_all (fun v => 0 <= v <= 4095)); [exact H | apply squash_range].
Qed.

Lemma ctor_pr_ok (n m s w : Z) : pr_ok (Mixer.ctor_f n m s w).
Proof.
  unfold pr_ok, Mixer.ctor_f. simpl.
  apply (init_all (fun v => 0 <= v <= 4095)); intros; lia.
Qed.

(** the error for a bit and a 12-bit prediction *)
Lemma err_range (y p : Z) :
  y = 0 \/ y = 1 -> 0 <= p <= 4095 ->
  -32768 <= (Z.shiftl y 12 - p) * 7 < 32768.
Proof.
  intros [-> | ->] Hp.
  - change (Z.shiftl 0 12) with 0. lia.
  - change (Z.shiftl 1 12) with 4096. lia.
Qed.

(** C7: with a bit [y] and 12-bit stored predictions, the error of every
    context in [update] lies strictly within +-32768. *)
Theorem Mixer_err_bound (y : Z) (f : Mixer.fields) (i : Z) :
  y = 0 \/ y = 1 ->
  pr_ok f ->
  -32768 <= Mixer.err y f i < 32768 /\ Z.abs (Mixer.err y f i) < 32768.
Proof.
  intros Hy Hp. unfold Mixer.err.
  pose proof (err_range y (Mixer.pr f i) Hy (Hp i)). lia.
Qed.

Lemma Mixer_err_bound_witness :
  (1 = 0 \/ 1 = 1) /\ pr_ok (Mixer.ctor_f 800 3088 7 128) /\
  Z.abs (Mixer.err 1 (Mixer.ctor_f 800 3088 7 128) 0) < 32768.
Proof.
  split; [now right|]. split; [apply ctor_pr_ok|].
  exact (proj2 (Mixer_err_bound 1 (Mixer.ctor_f 800 3088 7 128) 0
                  (or_intror eq_refl) (ctor_pr_ok 800 3088 7 128))).
Defined.

(** ** The global context *)

Lemma land_ones24 (x : Z) : Z.land x 16777215 = x mod 16777216.
Proof. change 16777215 with (Z.ones 24). now rewrite Z.land_ones by lia. Qed.

Lemma land_255 (x : Z) : Z.land x 255 = x mod 256.
Proof. change 255 with (Z.ones 8). now rewrite Z.land_ones by lia. Qed.

Lemma land_7 (x : Z) : Z.land x 7 = x mod 8.
Proof. change 7 with (Z.ones 3). now rewrite Z.land_ones by lia. Qed.

(** the slot read by [buf(1)] after [pos++] is the slot just written *)
Lemma back1_slot (p : Z) :
  Z.land (int (p + 1) - 1) 16777215 = Z.land p 16777215.
Proof.
  rewrite !land_ones24. unfold int.
  replace ((p + 1 + 2147483648) mod 4294967296 - 2147483648 - 1)
    with (p + (- 256 * ((p + 1 + 2147483648) / 4294967296)) * 16777216)
    by (pose proof (Z.div_mod (p + 1 + 2147483648) 4294967296 ltac:(lia)); lia).
  apply Z.mod_add. lia.
Qed.

(** the low byte of [c4] after a byte [v] is shifted in *)
Lemma c4_low (c v : Z) : 0 <= v <= 255 ->
  Z.land (u32 (Z.shiftl c 8 + v)) 255 = v.
Proof.
  intros Hv. rewrite land_255. unfold u32.
  rewrite Z.shiftl_mul_pow2 by lia. change (2 ^ 8) with 256.
  pose proof (Z.div_mod (c * 256 + v) 4294967296 ltac:(lia)) as H.
  replace ((c * 256 + v) mod 4294967296)
    with (v + (c - 16777216 * ((c * 256 + v) / 4294967296)) * 256) by lia.
  rewrite Z.mod_add by lia. apply Z.mod_small. lia.
Qed.

(** the step of the global context, by cases on the bits already in [c0];
    a byte is committed exactly when [bpos] is 7 *)
Lemma update_ctx_step (y : Z) (g : Ctx) :
  y = 0 \/ y = 1 -> ctx_ok g ->
  let g' := Predictor.update_ctx y g in
  ctx_ok g' /\
  (256 <=? c0 g + (c0 g + y)) = (bpos g =? 7) /\
  (if bpos g =? 7
   then c0 g' = 1 /\ bpos g' = 0 /\ pos g' = int (pos g + 1) /\
        b (buf g') (Z.land (pos g) (bsize (buf g) - 1)) = 2 * c0 g + y - 256 /\
        Z.land (c4 g') 255 = 2 * c0 g + y - 256 /\
        Buf_back g' 1 = 2 * c0 g + y - 256
   else c0 g' = 2 * c0 g + y /\ bpos g' = bpos g + 1 /\ pos g' = pos g /\
        buf g' = buf g /\ c4 g' = c4 g).
Proof.
  intros Hy (Hs & Hb & Hc & H4). cbv zeta.
  assert (Hcases : bpos g = 0 \/ bpos g = 1 \/ bpos g = 2 \/ bpos g = 3 \/
                   bpos g = 4 \/ bpos g = 5 \/ bpos g = 6 \/ bpos g = 7) by lia.
  unfold Predictor.update_ctx.
  destruct (Z.eq_dec (bpos g) 7) as [E7 | N7].
  - (* the eighth bit *)
    rewrite E7 in Hc. change (2 ^ 7) with 128 in Hc. change (2 ^ (7 + 1)) with 256 in Hc.
    assert (Hge : (256 <=? c0 g + (c0 g + y)) = true) by (apply Z.leb_le; lia).
    rewrite Hge, E7. cbn [c0 c4 bpos buf pos Z.eqb Pos.eqb].
    change (Z.land (7 + 1) 7) with 0.
    assert (Hbyte : u8 (c0 g + (c0 g + y)) = 2 * c0 g + y - 256).
    { unfold u8.
      replace (c0 g + (c0 g + y)) with (2 * c0 g + y - 256 + 1 * 256) by lia.
      rewrite Z.mod_add by lia. apply Z.mod_small. lia. }
    assert (Hc4 : Z.land (u32 (Z.shiftl (c4 g) 8 + (c0 g + (c0 g + y)) - 256)) 255
                  = 2 * c0 g + y - 256).
    { replace (Z.shiftl (c4 g) 8 + (c0 g + (c0 g + y)) - 256)
        with (Z.shiftl (c4 g) 8 + (2 * c0 g + y - 256)) by lia.
      apply c4_low. lia. }
    assert (Hback : Buf_back
              {| c0 := 1;
                 c4 := u32 (Z.shiftl (c4 g) 8 + (c0 g + (c0 g + y)) - 256);
                 bpos := 0;
                 buf := Buf_store (buf g) (pos g) (c0 g + (c0 g + y));
                 pos := int (pos g + 1) |} 1 = 2 * c0 g + y - 256).
    { unfold Buf_back, Buf_store. cbn [buf pos b bsize]. rewrite Hs.
      change (16777216 - 1) with 16777215.
      rewrite back1_slot, set_eq. exact Hbyte. }
    split; [|split; [reflexivity|]].
    + unfold ctx_ok. cbn [c0 c4 bpos buf pos].
      split; [unfold Buf_store; cbn [bsize]; exact Hs|].
      split; [lia|]. split; [change (2 ^ 0) with 1; change (2 ^ (0 + 1)) with 2; lia|].
      rewrite Hc4, Hback. reflexivity.
    + repeat split; try reflexivity; try assumption.
      unfold Buf_store. cbn [b bsize]. rewrite set_eq. exact Hbyte.
  - (* a bit within the byte *)
    assert (Hlt : (256 <=? c0 g + (c0 g + y)) = false).
    { apply Z.leb_gt.
      destruct Hcases as [E|[E|[E|[E|[E|[E|[E|E]]]]]]]; try lia;
        rewrite E in Hc; cbn in Hc; lia. }
    rewrite Hlt. cbn [c0 c4 bpos buf pos].
    assert (Hn : (bpos g =? 7) = false) by (apply Z.eqb_neq; exact N7).
    rewrite Hn.
    assert (Hbp : Z.land (bpos g + 1) 7 = bpos g + 1).
    { rewrite land_7. apply Z.mod_small. lia. }
    rewrite Hbp.
    split; [|split; [reflexivity|]].
    + unfold ctx_ok. cbn [c0 c4 bpos buf pos].
      split; [exact Hs|]. split; [lia|].
      split.
      * destruct Hcases as [E|[E|[E|[E|[E|[E|[E|E]]]]]]]; try lia;
          rewrite E in Hc |- *; cbn in Hc |- *; lia.
      * exact H4.
    + repeat split; lia.
Qed.

Lemma ctx_ok_init : ctx_ok Ctx_init.
Proof.
  unfold ctx_ok, Ctx_init, Buf_back, Buf_ctor. cbn [c0 c4 bpos buf pos b bsize].
  repeat split; try lia; reflexivity.
Qed.

Lemma b2i_bit (y : bool) : b2i y = 0 \/ b2i y = 1.
Proof. destruct y; [now right | now left]. Qed.

Ltac break_let :=
  match goal with
  | |- context [match ?e with pair _ _ => _ end] => destruct e
  end.

(** [update] moves the global context by its first block alone *)
Lemma Predictor_update_g (y : Z) (s : Predictor.state) :
  Predictor.g (Predictor.update y s) = Predictor.update_ctx y (Predictor.g s).
Proof.
  unfold Predictor.update. repeat break_let. reflexivity.
Qed.

Lemma run_snoc (MEM : Z) (bits : list bool) (y : bool) :
  Predictor.run MEM (bits ++ [y]) = Predictor.update (b2i y) (Predictor.run MEM bits).
Proof. unfold Predictor.run. now rewrite fold_left_app. Qed.

Lemma run_ctx_ok (MEM : Z) (bits : list bool) :
  ctx_ok (Predictor.g (Predictor.run MEM bits)).
Proof.
  induction bits as [|y bits IH] using rev_ind.
  - exact ctx_ok_init.
  - rewrite run_snoc, Predictor_update_g.
    apply (update_ctx_step (b2i y) _ (b2i_bit y) IH).
Qed.

Lemma ctx_ok_c0 (g : Ctx) : ctx_ok g -> 1 <= c0 g <= 255 /\ 0 <= bpos g <= 7.
Proof.
  intros (_ & Hb & Hc & _). split; [|exact Hb].
  assert (Hcases : bpos g = 0 \/ bpos g = 1 \/ bpos g = 2 \/ bpos g = 3 \/
                   bpos g = 4 \/ bpos g = 5 \/ bpos g = 6 \/ bpos g = 7) by lia.
  destruct Hcases as [E|[E|[E|[E|[E|[E|[E|E]]]]]]];
    rewrite E in Hc; cbn in Hc; lia.
Qed.

(** C6: whatever bits were coded, [c0] is in 1..255 and [bpos] in 0..7
    before and after an [update]; the update commits a byte exactly when it
    folds in the eighth bit, and then the byte is stored at [pos], becomes
    the low byte of [c4] and [c0] restarts at 1; otherwise the bit is
    appended to [c0] and nothing else moves. *)
Theorem Predictor_global_context (MEM : Z) (bits : list bool) (y : bool) :
  let g := Predictor.g (Predictor.run MEM bits) in
  let g' := Predictor.g (Predictor.update (b2i y) (Predictor.run MEM bits)) in
  (1 <= c0 g <= 255 /\ 0 <= bpos g <= 7) /\
  (1 <= c0 g' <= 255 /\ 0 <= bpos g' <= 7) /\
  (256 <=? c0 g + (c0 g + b2i y)) = (bpos g =? 7) /\
  (if bpos g =? 7
   then c0 g' = 1 /\ bpos g' = 0 /\ pos g' = int (pos g + 1) /\
        b (buf g') (Z.land (pos g) (bsize (buf g) - 1)) = 2 * c0 g + b2i y - 256 /\
        Z.land (c4 g') 255 = 2 * c0 g + b2i y - 256 /\
        Buf_back g' 1 = 2 * c0 g + b2i y - 256
   else c0 g' = 2 * c0 g + b2i y /\ bpos g' = bpos g + 1 /\ pos g' = pos g /\
        buf g' = buf g /\ c4 g' = c4 g).
Proof.
  cbv zeta. rewrite Predictor_update_g.
  pose proof (run_ctx_ok MEM bits) as Hg.
  destruct (update_ctx_step (b2i y) _ (b2i_bit y) Hg) as (Hg' & Hc & Hstep).
  split; [exact (ctx_ok_c0 _ Hg)|].
  split; [exact (ctx_ok_c0 _ Hg')|].
  split; [exact Hc | exact Hstep].
Qed.

(** C10: whatever bits were coded, the low byte of [c4] is [buf(1)], the
    byte completed last (0 in both before the first byte). *)
Theorem Predictor_c4_buf (MEM : Z) (bits : list bool) :
  let g := Predictor.g (Predictor.run MEM bits) in
  Z.land (c4 g) 255 = Buf_back g 1.
Proof.
  cbv zeta. destruct (run_ctx_ok MEM bits) as (_ & _ & _ & H). exact H.
Qed.

(** ** The run model of ContextMap *)

(** C8, as the code has it: the count restarts at 2 in a new context and
    at 1 on another byte; on the same byte it grows by 2 below 254, stays
    at 254 and goes from 255 to 128.  It differs from the specification's
    wording at the count 254 only, and what it leaves fits the two bytes
    of the run model. *)
Theorem run_update_cases (count byte c1 : Z) :
  0 <= count <= 255 -> 0 <= byte <= 255 -> 0 <= c1 <= 255 ->
  run_update count byte c1 =
    (if count =? 0 then (2, c1)
     else if negb (byte =? c1) then (1, c1)
     else if count <? 254 then (count + 2, byte)
     else if count =? 254 then (254, byte)
     else (128, byte)) /\
  (0 <= fst (run_update count byte c1) <= 255 /\
   0 <= snd (run_update count byte c1) <= 255) /\
  (run_update count byte c1 = run_update_spec count byte c1 <->
   ~ (count = 254 /\ byte = c1)).
Proof.
  intros Hc Hb H1. unfold run_update, run_update_spec.
  destruct (count =? 0) eqn:E0.
  { split; [reflexivity|]. split; [simpl; lia|]. split; [lia | reflexivity]. }
  apply Z.eqb_neq in E0.
  destruct (byte =? c1) eqn:Eb; cbn [negb].
  2:{ apply Z.eqb_neq in Eb. split; [reflexivity|].
      split; [simpl; lia|]. split; [lia | reflexivity]. }
  apply Z.eqb_eq in Eb.
  destruct (count <? 254) eqn:E254.
  { apply Z.ltb_lt in E254.
    replace (count =? 255) with false by (symmetry; apply Z.eqb_neq; lia).
    split; [reflexivity|]. split; [simpl; lia|]. split; [lia | reflexivity]. }
  apply Z.ltb_ge in E254.
  destruct (count =? 255) eqn:E255.
  { apply Z.eqb_eq in E255.
    replace (count =? 254) with false by (symmetry; apply Z.eqb_neq; lia).
    split; [reflexivity|]. split; [simpl; lia|]. split; [lia | reflexivity]. }
  apply Z.eqb_neq in E255.
  assert (count = 254) as -> by lia. cbn [Z.eqb Pos.eqb].
  split; [reflexivity|]. split; [simpl; lia|].
  split; [intros H; inversion H | intros H; exfalso; apply H; split; [reflexivity | exact Eb]].
Qed.

Lemma run_update_cases_witness :
  (0 <= 254 <= 255 /\ 0 <= 65 <= 255 /\ 0 <= 65 <= 255) /\
  run_update 254 65 65 = (254, 65).
Proof.
  split; [lia|].
  exact (proj1 (run_update_cases 254 65 65 ltac:(lia) ltac:(lia) ltac:(lia))).
Defined.

(** C8 as stated fails at the count 254, reached after 127 equal bytes in
    a new context: one more equal byte leaves it at 254, neither 2 higher
    nor wrapped. *)
Lemma run_update_254 :
  run_repeat 127 65 (0, 0) = (254, 65) /\
  run_update 254 65 65 = (254, 65) /\
  run_update 254 65 65 <> run_update_spec 254 65 65.
Proof.
  split; [vm_compute; reflexivity|].
  split; [reflexivity|]. vm_compute. intros H. discriminate H.
Qed.

(** ** StateMap under a constant bit *)

(** the training step on a 16-bit entry, for the bit 1: it does not wrap,
    does not lower the entry, and keeps the order of entries *)
Lemma train_one (v : Z) : 0 <= v <= 65535 -> v <= sm_train 1 v <= 65535.
Proof.
  intros Hv. unfold sm_train. change (Z.shiftl 1 16) with 65536.
  rewrite Z.shiftr_div_pow2 by lia. change (2 ^ 8) with 256.
  pose proof (Z.div_mod (65536 - v + 128) 256 ltac:(lia)) as Hd.
  pose proof (Z.mod_pos_bound (65536 - v + 128) 256 ltac:(lia)) as Hm.
  rewrite u16_id by lia. lia.
Qed.

Lemma train_one_mono (v v' : Z) :
  0 <= v <= v' -> v' <= 65535 -> sm_train 1 v <= sm_train 1 v'.
Proof.
  intros Hv Hv'. unfold sm_train. change (Z.shiftl 1 16) with 65536.
  rewrite !Z.shiftr_div_pow2 by lia. change (2 ^ 8) with 256.
  pose proof (Z.div_mod (65536 - v + 128) 256 ltac:(lia)).
  pose proof (Z.mod_pos_bound (65536 - v + 128) 256 ltac:(lia)).
  pose proof (Z.div_mod (65536 - v' + 128) 256 ltac:(lia)).
  pose proof (Z.mod_pos_bound (65536 - v' + 128) 256 ltac:(lia)).
  rewrite !u16_id by lia. lia.
Qed.

(** for the bit 0 *)
Lemma train_zero (v : Z) : 0 <= v <= 65535 -> 0 <= sm_train 0 v <= v.
Proof.
  intros Hv. unfold sm_train. change (Z.shiftl 0 16) with 0.
  rewrite Z.shiftr_div_pow2 by lia. change (2 ^ 8) with 256.
  pose proof (Z.div_mod (0 - v + 128) 256 ltac:(lia)) as Hd.
  pose proof (Z.mod_pos_bound (0 - v + 128) 256 ltac:(lia)) as Hm.
  rewrite u16_id by lia. lia.
Qed.

Lemma train_zero_mono (v v' : Z) :
  0 <= v <= v' -> v' <= 65535 -> sm_train 0 v <= sm_train 0 v'.
Proof.
  intros Hv Hv'. unfold sm_train. change (Z.shiftl 0 16) with 0.
  rewrite !Z.shiftr_div_pow2 by lia. change (2 ^ 8) with 256.
  pose proof (Z.div_mod (0 - v + 128) 256 ltac:(lia)).
  pose proof (Z.mod_pos_bound (0 - v + 128) 256 ltac:(lia)).
  pose proof (Z.div_mod (0 - v' + 128) 256 ltac:(lia)).
  pose proof (Z.mod_pos_bound (0 - v' + 128) 256 ltac:(lia)).
  rewrite !u16_id by lia. lia.
Qed.

Lemma trained_S (n : nat) (y v : Z) :
  sm_trained (S n) y v = sm_train y (sm_trained n y v).
Proof.
  revert v. induction n as [|n IH]; intros v; [reflexivity|].
  change (sm_trained (S (S n)) y v) with (sm_trained (S n) y (sm_train y v)).
  rewrite IH. reflexivity.
Qed.

Lemma trained_add (n m : nat) (y v : Z) :
  sm_trained (n + m) y v = sm_trained m y (sm_trained n y v).
Proof.
  revert v. induction n as [|n IH]; intros v; [reflexivity|]. simpl. apply IH.
Qed.

(** training again and again under 1: the entry stays 16-bit, only rises,
    and a higher start stays higher *)
Lemma trained_one (n : nat) : forall v v',
  0 <= v <= v' -> v' <= 65535 ->
  v <= sm_trained n 1 v <= sm_trained n 1 v' /\ sm_trained n 1 v' <= 65535.
Proof.
  induction n as [|n IH]; intros v v' Hv Hv'; simpl; [lia|].
  pose proof (train_one v ltac:(lia)). pose proof (train_one v' ltac:(lia)).
  pose proof (train_one_mono v v' Hv Hv').
  specialize (IH (sm_train 1 v) (sm_train 1 v') ltac:(lia) ltac:(lia)). lia.
Qed.

Lemma trained_zero (n : nat) : forall v v',
  0 <= v <= v' -> v' <= 65535 ->
  sm_trained n 0 v <= sm_trained n 0 v' <= v' /\ 0 <= sm_trained n 0 v.
Proof.
  induction n as [|n IH]; intros v v' Hv Hv'; simpl; [lia|].
  pose proof (train_zero v ltac:(lia)). pose proof (train_zero v' ltac:(lia)).
  pose proof (train_zero_mono v v' Hv Hv').
  specialize (IH (sm_train 0 v) (sm_train 0 v') ltac:(lia) ltac:(lia)). lia.
Qed.

(** 1565 steps take the lowest entry to 65409, where the training under 1
    stops, and the highest to 128, where the training under 0 stops *)
Lemma trained_1565 : sm_trained 1565 1 0 = 65409 /\ sm_trained 1565 0 65535 = 128.
Proof. split; vm_compute; reflexivity. Qed.

Lemma trained_one_late (n : nat) (v : Z) :
  (1565 <= n)%nat -> 0 <= v <= 65535 -> 65409 <= sm_trained n 1 v.
Proof.
  intros Hn Hv. replace n with (1565 + (n - 1565))%nat by lia.
  rewrite trained_add.
  destruct (trained_one 1565 0 v ltac:(lia) ltac:(lia)) as [H1 H2].
  rewrite (proj1 trained_1565) in H1.
  pose proof (trained_one (n - 1565) (sm_trained 1565 1 v) (sm_trained 1565 1 v)
                ltac:(lia) ltac:(lia)).
  lia.
Qed.

Lemma trained_zero_late (n : nat) (v : Z) :
  (1565 <= n)%nat -> 0 <= v <= 65535 -> sm_trained n 0 v <= 128.
Proof.
  intros Hn Hv. replace n with (1565 + (n - 1565))%nat by lia.
  rewrite trained_add.
  destruct (trained_zero 1565 v 65535 ltac:(lia) ltac:(lia)) as [H1 H2].
  rewrite (proj2 trained_1565) in H1.
  pose proof (trained_zero (n - 1565) (sm_trained 1565 0 v) (sm_trained 1565 0 v)
                ltac:(lia) ltac:(lia)).
  lia.
Qed.

Lemma shiftr4_le (a c : Z) : a <= c -> Z.shiftr a 4 <= Z.shiftr c 4.
Proof.
  intros H. rewrite !Z.shiftr_div_pow2 by lia. apply Z.div_le_mono; lia.
Qed.

Lemma shiftr4_range (v : Z) : 0 <= v <= 65535 -> 0 <= Z.shiftr v 4 <= 4095.
Proof.
  intros H. rewrite Z.shiftr_div_pow2 by lia. change (2 ^ 4) with 16.
  pose proof (Z.div_mod v 16 ltac:(lia)).
  pose proof (Z.mod_pos_bound v 16 ltac:(lia)). lia.
Qed.

Lemma calls_S (n : nat) (y cx : Z) (s : StateMap.state) :
  StateMap_calls (S n) y cx s =
  fst (StateMap.p y cx s) :: StateMap_calls n y cx (snd (StateMap.p y cx s)).
Proof. simpl. destruct (StateMap.p y cx s). reflexivity. Qed.

(** the calls, exactly: the first one trains the entry of [cx] only if
    [cx] is the context asked last, every later one trains it, and each
    returns the top 12 bits of the entry *)
Lemma calls_nth (y cx : Z) (n : nat) : forall (s : StateMap.state) (k : nat),
  (k < n)%nat ->
  nth k (StateMap_calls n y cx s) 0 =
  Z.shiftr (sm_trained (k + (if StateMap.cxt s =? cx then 1 else 0)) y
              (StateMap.t s cx)) 4.
Proof.
  induction n as [|n IH]; intros s k Hk; [lia|].
  rewrite calls_S. unfold StateMap.p at 1 2. cbn [fst snd].
  destruct k as [|k]; cbn [nth Nat.add].
  - destruct (StateMap.cxt s =? cx) eqn:E.
    + apply Z.eqb_eq in E. rewrite E, set_eq. reflexivity.
    + apply Z.eqb_neq in E. rewrite set_neq by congruence. reflexivity.
  - rewrite IH by lia. cbn [StateMap.cxt StateMap.t]. rewrite Z.eqb_refl.
    f_equal. replace (k + 1)%nat with (S k) by lia.
    destruct (StateMap.cxt s =? cx) eqn:E.
    + apply Z.eqb_eq in E. rewrite E, set_eq.
      replace (S (k + 1)) with (S (S k)) by lia. reflexivity.
    + apply Z.eqb_neq in E. rewrite set_neq by congruence.
      replace (S (k + 0)) with (S k) by lia. reflexivity.
Qed.

(** C9: for any context [cx] and any 16-bit table, the probabilities
    returned by repeated calls [p(cx)] under the constant bit 1 never fall,
    stay within 0..4095 and are at least 4088 from the 1566th call on;
    under the constant bit 0 they never rise and are at most 8 from the
    1566th call on. *)
Theorem StateMap_constant_bit (s : StateMap.state) (cx : Z) (n : nat) :
  sm_ok s ->
  let ones := StateMap_calls n 1 cx s in
  let zeros := StateMap_calls n 0 cx s in
  (forall k, (S k < n)%nat -> nth k ones 0 <= nth (S k) ones 0) /\
  (forall k, (k < n)%nat -> 0 <= nth k ones 0 <= 4095) /\
  (forall k, (1565 <= k < n)%nat -> 4088 <= nth k ones 0) /\
  (forall k, (S k < n)%nat -> nth (S k) zeros 0 <= nth k zeros 0) /\
  (forall k, (k < n)%nat -> 0 <= nth k zeros 0 <= 4095) /\
  (forall k, (1565 <= k < n)%nat -> nth k zeros 0 <= 8).
Proof.
  intros Hs. cbv zeta. pose proof (Hs cx) as Hv.
  set (b := if StateMap.cxt s =? cx then 1%nat else 0%nat).
  split; [|split; [|split; [|split; [|split]]]]; intros k Hk;
    rewrite ?calls_nth by lia; fold b.
  - apply shiftr4_le. change (S k + b)%nat with (S (k + b)). rewrite trained_S.
    destruct (trained_one (k + b) _ _ (conj (proj1 Hv) (Z.le_refl _)) (proj2 Hv)).
    apply train_one. lia.
  - apply shiftr4_range.
    destruct (trained_one (k + b) _ _ (conj (proj1 Hv) (Z.le_refl _)) (proj2 Hv)). lia.
  - change 4088 with (Z.shiftr 65409 4). apply shiftr4_le.
    apply trained_one_late; [lia | exact Hv].
  - apply shiftr4_le. change (S k + b)%nat with (S (k + b)). rewrite trained_S.
    destruct (trained_zero (k + b) _ _ (conj (proj1 Hv) (Z.le_refl _)) (proj2 Hv)).
    apply train_zero. lia.
  - apply shiftr4_range.
    destruct (trained_zero (k + b) _ _ (conj (proj1 Hv) (Z.le_refl _)) (proj2 Hv)). lia.
  - change 8 with (Z.shiftr 128 4). apply shiftr4_le.
    apply trained_zero_late; [lia | exact Hv].
Qed.

Lemma sm_ok_ctor : sm_ok StateMap.ctor.
Proof.
  unfold sm_ok, StateMap.ctor. cbn [StateMap.t].
  apply (init_all (fun v => 0 <= v <= 65535)); [lia|].
  intros k _. apply u16_range.
Qed.

Lemma StateMap_constant_bit_witness :
  sm_ok StateMap.ctor /\
  (forall k, (S k < 4)%nat ->
     nth k (StateMap_calls 4 1 0 StateMap.ctor) 0
     <= nth (S k) (StateMap_calls 4 1 0 StateMap.ctor) 0).
Proof.
  split; [exact sm_ok_ctor|].
  exact (proj1 (StateMap_constant_bit StateMap.ctor 0 4 sm_ok_ctor)).
Defined.

(** ** APM *)

Lemma land_127 (x : Z) : 0 <= Z.land x 127 <= 127.
Proof.
  change (Z.land x 127) with (Z.land x (Z.ones 7)). rewrite Z.land_ones by lia.
  change (2 ^ 7) with 128. pose proof (Z.mod_pos_bound x 128 ltac:(lia)). lia.
Qed.

(** the interpolation of two 16-bit entries is a 12-bit probability *)
Lemma interpolate_range (u v w : Z) :
  0 <= u <= 65535 -> 0 <= v <= 65535 -> 0 <= w <= 127 ->
  0 <= Z.shiftr (u * (128 - w) + v * w) 11 <= 4095.
Proof.
  intros Hu Hv Hw. rewrite Z.shiftr_div_pow2 by lia. change (2 ^ 11) with 2048.
  pose proof (Z.div_mod (u * (128 - w) + v * w) 2048 ltac:(lia)).
  pose proof (Z.mod_pos_bound (u * (128 - w) + v * w) 2048 ltac:(lia)).
  nia.
Qed.

(** [APM::p] returns a 12-bit probability and keeps the table 16-bit,
    whatever its arguments *)
Lemma APM_p_ok (y pr cxt rate : Z) (a : APM.state) :
  apm_ok a ->
  0 <= fst (APM.p y pr cxt rate a) <= 4095 /\ apm_ok (snd (APM.p y pr cxt rate a)).
Proof.
  intros Ha. unfold APM.p. cbn [fst snd].
  set (g := Z.shiftl y 16 + Z.shiftl y rate - y - y).
  set (t1 := Arr.set (APM.t a) (APM.index a) _).
  set (t2 := Arr.set t1 (APM.index a + 1) _).
  assert (H1 : forall k, 0 <= t1 k <= 65535).
  { apply (set_all (fun v => 0 <= v <= 65535)); [exact Ha | apply u16_range]. }
  assert (H2 : forall k, 0 <= t2 k <= 65535).
  { apply (set_all (fun v => 0 <= v <= 65535)); [exact H1 | apply u16_range]. }
  split.
  - apply interpolate_range; [apply H2 | apply H2 | apply land_127].
  - exact H2.
Qed.

Lemma apm_ok_ctor (n : Z) : apm_ok (APM.ctor n).
Proof.
  unfold apm_ok, APM.ctor. cbn [APM.t].
  apply (init_all (fun v => 0 <= v <= 65535)); [lia|].
  intros k _. pose proof (squash_range ((k mod 33 - 16) * 128)). lia.
Qed.

(** ** Mixer: the prediction *)

Lemma p_rec_eq (y : Z) (f : Mixer.fields) (m : Mixer.state) :
  Mixer.p_rec y f m =
  let f := Mixer.pad 8 f in
  match Mixer.mp m with
  | Some c =>
      let cf := Mixer.update_f y (Mixer.own c) in
      let '(f, cf) :=
        for_ 0 (Mixer.ncxt f)
          (fun i '(f, cf) =>
             let v := squash (Z.shiftr
                        (dot_product (Mixer.tx f) (Mixer.wx f)
                           (Mixer.cxt f i * Mixer.N f) (Mixer.nx f)) 5) in
             (Mixer.set_pr i v f, Mixer.add_f (stretch v) cf))
          (f, cf) in
      let cf := Mixer.set_f 0 1 cf in
      let '(r, c') := Mixer.p_rec y cf c in
      (r, Mixer.Mk f (Some c'))
  | None =>
      let v := squash (Z.shiftr
                 (dot_product (Mixer.tx f) (Mixer.wx f) 0 (Mixer.nx f)) 8) in
      (v, Mixer.Mk (Mixer.set_pr 0 v f) None)
  end.
Proof. destruct m as [f0 c]. reflexivity. Qed.

(** [Mixer::p] returns a 12-bit probability: the value of [squash] at the
    innermost mixer *)
Lemma p_rec_range : forall (m : Mixer.state) (y : Z) (f : Mixer.fields),
  0 <= fst (Mixer.p_rec y f m) <= 4095.
Proof.
  fix IH 1. intros [f0 [c|]] y f; rewrite p_rec_eq; cbv zeta; cbn [Mixer.mp].
  - destruct (for_ _ _ _ _) as [f1 cf1].
    pose proof (IH c y (Mixer.set_f 0 1 cf1)) as H.
    destruct (Mixer.p_rec y (Mixer.set_f 0 1 cf1) c) as [r c']. exact H.
  - cbn [fst]. apply squash_range.
Qed.

Lemma Mixer_p_range (y : Z) (m : Mixer.state) : 0 <= fst (Mixer.p y m) <= 4095.
Proof. unfold Mixer.p. apply p_rec_range. Qed.

(** ** contextModel2 and the predictor *)

Lemma ContextModel2_run_range (y : Z) (g : Ctx) (r : Random) (s : ContextModel2.state) :
  0 <= fst (fst (ContextModel2.run y g r s)) <= 4095.
Proof.
  unfold ContextModel2.run.
  repeat first
    [ match goal with
      | |- context [match Mixer.p ?y ?m with pair _ _ => _ end] =>
          pose proof (Mixer_p_range y m); destruct (Mixer.p y m)
      end
    | break_let ].
  cbn [fst] in *. assumption.
Qed.

Lemma avg4_range (p0 p1 p2 p3 : Z) :
  0 <= p0 <= 4095 -> 0 <= p1 <= 4095 -> 0 <= p2 <= 4095 -> 0 <= p3 <= 4095 ->
  0 <= Z.shiftr (p0 + p1 + p2 + p3 + 2) 2 <= 4095.
Proof.
  intros. rewrite Z.shiftr_div_pow2 by lia. change (2 ^ 2) with 4.
  pose proof (Z.div_mod (p0 + p1 + p2 + p3 + 2) 4 ltac:(lia)).
  pose proof (Z.mod_pos_bound (p0 + p1 + p2 + p3 + 2) 4 ltac:(lia)). lia.
Qed.

Lemma avg2_range (p0 p1 : Z) :
  0 <= p0 <= 4095 -> 0 <= p1 <= 4095 -> 0 <= Z.shiftr (p0 + p1 + 1) 1 <= 4095.
Proof.
  intros. rewrite Z.shiftr_div_pow2 by lia. change (2 ^ 1) with 2.
  pose proof (Z.div_mod (p0 + p1 + 1) 2 ltac:(lia)).
  pose proof (Z.mod_pos_bound (p0 + p1 + 1) 2 ltac:(lia)). lia.
Qed.

Ltac break_apm :=
  match goal with
  | |- context [match APM.p ?y ?p ?c ?r ?a with pair _ _ => _ end] =>
      let H := fresh "Hp" in
      pose proof (APM_p_ok y p c r a ltac:(assumption)) as H;
      destruct (APM.p y p c r a); cbn [fst snd] in H; destruct H
  end.

Lemma pred_ok_update (y : Z) (s : Predictor.state) :
  pred_ok s -> pred_ok (Predictor.update y s).
Proof.
  intros (Hpr & H0 & H1 & H2 & H3 & H4 & H5 & H6).
  unfold Predictor.update.
  pose proof (ContextModel2_run_range y (Predictor.update_ctx y (Predictor.g s))
                (Predictor.rnd s) (Predictor.cm2 s)) as Hc.
  destruct (ContextModel2.run _ _ _ _) as [[pr0 r] cm2]. cbn [fst] in Hc.
  repeat break_apm.
  unfold pred_ok. cbn [Predictor.pr Predictor.a Predictor.a1 Predictor.a2
    Predictor.a3 Predictor.a4 Predictor.a5 Predictor.a6].
  split; [|repeat (split; [assumption|]); assumption].
  apply avg2_range; apply avg4_range; assumption.
Qed.

Lemma pred_ok_ctor (MEM : Z) : pred_ok (Predictor.ctor MEM).
Proof.
  unfold pred_ok, Predictor.ctor. cbn [Predictor.pr Predictor.a Predictor.a1
    Predictor.a2 Predictor.a3 Predictor.a4 Predictor.a5 Predictor.a6].
  split; [lia|]. repeat (split; [apply apm_ok_ctor|]). apply apm_ok_ctor.
Qed.

Lemma pred_ok_fold (bits : list bool) : forall s,
  pred_ok s -> pred_ok (fold_left (fun s y => Predictor.update (b2i y) s) bits s).
Proof.
  induction bits as [|y bits IH]; intros s Hs; simpl; [exact Hs|].
  apply IH, pred_ok_update, Hs.
Qed.

Lemma outputs_range (bits : list bool) : forall s,
  pred_ok s -> Forall (fun v => 0 <= v <= 4095) (Predictor.outputs s bits).
Proof.
  induction bits as [|y bits IH]; intros s Hs; simpl.
  - constructor; [exact (proj1 Hs) | constructor].
  - constructor; [exact (proj1 Hs)|]. apply IH, pred_ok_update, Hs.
Qed.

(** C1: a new predictor shows 2048, and whatever bits are coded, the
    probability shown after each [update] is in 0..4095. *)
Theorem Predictor_p_range (MEM : Z) (bits : list bool) :
  Predictor.p (Predictor.ctor MEM) = 2048 /\
  0 <= Predictor.p (Predictor.run MEM bits) <= 4095 /\
  Forall (fun v => 0 <= v <= 4095) (Predictor.outputs (Predictor.ctor MEM) bits).
Proof.
  split; [reflexivity|]. split.
  - exact (proj1 (pred_ok_fold bits _ (pred_ok_ctor MEM))).
  - apply outputs_range, pred_ok_ctor.
Qed.


Lemma outputs_length (bits : list bool) : forall s,
  length (Predictor.outputs s bits) = S (length bits).
Proof.
  induction bits as [|y bits IH]; intros s; simpl; [reflexivity|].
  now rewrite IH.
Qed.







(** ** The table of a new APM *)

Lemma apm_row_u16 (k : Z) : u16 (apm_row k) = apm_row k.
Proof.
  apply u16_id. unfold apm_row.
  pose proof (squash_range ((k mod 33 - 16) * 128)). lia.
Qed.

(** the loops of the constructor fill the table with what [APM.ctor]
    states *)
Lemma ctor_loop_eq (n : Z) : 0 <= n ->
  forall k, APM.ctor_loop n k = APM.t (APM.ctor n) k.
Proof.
  intros Hn. unfold APM.ctor_loop, APM.ctor. cbn [APM.t].
  apply (for_ind (fun i (t : array) => forall k, t k = Arr.init (i * 33) apm_row k));
    [exact Hn | intros k; unfold Arr.init, zeros;
                destruct (0 <=? k) eqn:E0; cbn [andb]; [|reflexivity];
                apply Z.leb_le in E0;
                replace (k <? 0 * 33) with false by (symmetry; apply Z.ltb_ge; lia);
                reflexivity|].
  intros i t Hi Ht.
  replace ((i + 1) * 33) with (i * 33 + 33) by lia.
  apply (for_ind (fun j (t : array) => forall k, t k = Arr.init (i * 33 + j) apm_row k));
    [lia | intros k; rewrite Ht; f_equal; lia|].
  intros j t' Hj Ht' k.
  unfold Arr.set, Arr.init.
  destruct (k =? i * 33 + j) eqn:Ek.
  - apply Z.eqb_eq in Ek. subst k.
    replace ((0 <=? i * 33 + j) && (i * 33 + j <? i * 33 + (j + 1))) with true
      by (symmetry; apply andb_true_intro; split; [apply Z.leb_le | apply Z.ltb_lt]; lia).
    assert (Hrow : apm_row (i * 33 + j) = squash ((j - 16) * 128) * 16).
    { unfold apm_row. rewrite Z.add_comm, Z.mod_add by lia.
      rewrite Z.mod_small by lia. reflexivity. }
    destruct (i =? 0) eqn:Ei.
    + rewrite <- Hrow. apply apm_row_u16.
    + apply Z.eqb_neq in Ei. rewrite Ht'. unfold Arr.init.
      replace ((0 <=? j) && (j <? i * 33 + j)) with true
        by (symmetry; apply andb_true_intro; split; [apply Z.leb_le | apply Z.ltb_lt]; lia).
      rewrite apm_row_u16, Hrow. unfold apm_row. rewrite Z.mod_small by lia. reflexivity.
  - apply Z.eqb_neq in Ek. rewrite Ht'. unfold Arr.init.
    destruct (0 <=? k) eqn:E0; cbn [andb]; [|reflexivity].
    apply Z.leb_le in E0.
    destruct (k <? i * 33 + j) eqn:E1.
    + apply Z.ltb_lt in E1.
      replace (k <? i * 33 + (j + 1)) with true by (symmetry; apply Z.ltb_lt; lia).
      reflexivity.
    + apply Z.ltb_ge in E1.
      replace (k <? i * 33 + (j + 1)) with false by (symmetry; apply Z.ltb_ge; lia).
      reflexivity.
Qed.

(** ** The training error in the running predictor *)

(** what C7 assumes of the stored predictions holds of the mixer of
    [contextModel2], and of the mixer it feeds, whatever bits are coded:
    only [p] writes [pr], and it writes values of [squash] *)

Lemma add_pr_ok (x : Z) (m : Mixer.state) :
  state_pr_ok m -> state_pr_ok (Mixer.add x m).
Proof. destruct m as [f c]. exact (fun H => H). Qed.

Lemma set_pr_ok (cx range : Z) (m : Mixer.state) :
  state_pr_ok m -> state_pr_ok (Mixer.set cx range m).
Proof. destruct m as [f c]. exact (fun H => H). Qed.

Lemma update_pr_ok (y : Z) (m : Mixer.state) :
  state_pr_ok m -> state_pr_ok (Mixer.update y m).
Proof. destruct m as [f c]. exact (fun H => H). Qed.

Lemma pad_pr_ok (fuel : nat) : forall f, pr_ok f -> pr_ok (Mixer.pad fuel f).
Proof.
  induction fuel as [|fuel IH]; intros f Hf; simpl; [exact Hf|].
  destruct (Z.land (Mixer.nx f) 7 =? 0); [exact Hf|]. apply IH. exact Hf.
Qed.

Lemma p_rec_pr_ok : forall (m : Mixer.state) (y : Z) (f : Mixer.fields),
  pr_ok f ->
  match Mixer.mp m with Some c => state_pr_ok c | None => True end ->
  state_pr_ok (snd (Mixer.p_rec y f m)).
Proof.
  fix IH 1. intros [f0 [c|]] y f Hf Hc; rewrite p_rec_eq; cbv zeta; cbn [Mixer.mp] in *.
  - pose proof (pad_pr_ok 8 f Hf) as Hpad.
    assert (Hloop : pr_ok (fst (for_ 0 (Mixer.ncxt (Mixer.pad 8 f))
              (fun i '(f, cf) =>
                 let v := squash (Z.shiftr
                            (dot_product (Mixer.tx f) (Mixer.wx f)
                               (Mixer.cxt f i * Mixer.N f) (Mixer.nx f)) 5) in
                 (Mixer.set_pr i v f, Mixer.add_f (stretch v) cf))
              (Mixer.pad 8 f, Mixer.update_f y (Mixer.own c)))) /\
            pr_ok (snd (for_ 0 (Mixer.ncxt (Mixer.pad 8 f))
              (fun i '(f, cf) =>
                 let v := squash (Z.shiftr
                            (dot_product (Mixer.tx f) (Mixer.wx f)
                               (Mixer.cxt f i * Mixer.N f) (Mixer.nx f)) 5) in
                 (Mixer.set_pr i v f, Mixer.add_f (stretch v) cf))
              (Mixer.pad 8 f, Mixer.update_f y (Mixer.own c))))).
    { apply (for_inv (fun st : Mixer.fields * Mixer.fields =>
                        pr_ok (fst st) /\ pr_ok (snd st))).
      - split; [exact Hpad|]. destruct c as [cf cc]. exact (proj1 Hc).
      - intros i [f1 cf1] _ [H1 H2]. cbn [fst snd] in *. split.
        + apply squash_pr_ok, H1.
        + exact H2. }
    destruct (for_ _ _ _ _) as [f1 cf1]. cbn [fst snd] in Hloop.
    destruct Hloop as [H1 H2].
    assert (Hcc : match Mixer.mp c with Some c0 => state_pr_ok c0 | None => True end).
    { destruct c as [cf cc]. exact (proj2 Hc). }
    pose proof (IH c y (Mixer.set_f 0 1 cf1) H2 Hcc) as Hrec.
    destruct (Mixer.p_rec y (Mixer.set_f 0 1 cf1) c) as [r c']. cbn [snd] in *.
    split; [exact H1 | exact Hrec].
  - cbn [snd]. split; [|exact I]. apply squash_pr_ok, pad_pr_ok, Hf.
Qed.

Lemma p_pr_ok (y : Z) (m : Mixer.state) :
  state_pr_ok m -> state_pr_ok (snd (Mixer.p y m)).
Proof.
  intros H. unfold Mixer.p. destruct m as [f c].
  apply p_rec_pr_ok; [exact (proj1 H) | exact (proj2 H)].
Qed.

Lemma ctor_state_pr_ok (n m s w : Z) : state_pr_ok (Mixer.ctor n m s w).
Proof.
  unfold Mixer.ctor. cbn [state_pr_ok]. split; [apply ctor_pr_ok|].
  destruct (1 <? s); [|exact I]. cbn [state_pr_ok]. split; [apply ctor_pr_ok | exact I].
Qed.

Lemma mix2_pr_ok (y : Z) (m : Mixer.state) (s : Z) (sm : StateMap.state) :
  state_pr_ok m -> state_pr_ok (snd (fst (mix2 y m s sm))).
Proof.
  intros H. unfold mix2. destruct (StateMap.p y s sm) as [p1 sm']. cbn [fst snd].
  repeat apply add_pr_ok. exact H.
Qed.

Lemma rcm_mix_pr_ok (g : Ctx) (m : Mixer.state) (r : RunContextMap.state) :
  state_pr_ok m -> state_pr_ok (snd (RunContextMap.mix g m r)).
Proof. intros H. unfold RunContextMap.mix. cbn [snd]. apply add_pr_ok, H. Qed.

Lemma mix1_body_pr_ok (g : Ctx) (cc bp c1 y1 i : Z)
    (st : Z * Mixer.state * Random * ContextMap.state) :
  state_pr_ok (mixer_of st) ->
  state_pr_ok (mixer_of (ContextMap.mix1_body g cc bp c1 y1 i st)).
Proof.
  destruct st as [[[result m] r] s]. unfold mixer_of. cbn [fst snd]. intros Hm.
  unfold ContextMap.mix1_body.
  repeat first
    [ match goal with
      | |- context [match mix2 ?y ?m ?s ?sm with pair _ _ => _ end] =>
          let H := fresh "Hmix" in
          assert (H : state_pr_ok m) by
            (first [ exact Hm | apply add_pr_ok; exact Hm
                   | destruct (_ =? _); apply add_pr_ok; exact Hm ]);
          apply (mix2_pr_ok y m s sm) in H;
          destruct (mix2 y m s sm) as [[? ?] ?]
      end
    | break_let ].
  cbn [fst snd] in *. assumption.
Qed.

Lemma cm_mix_pr_ok (y : Z) (g : Ctx) (m : Mixer.state) (r : Random)
    (s : ContextMap.state) :
  state_pr_ok m ->
  state_pr_ok (mixer_of (ContextMap.mix y g m r s)).
Proof.
  intros Hm. unfold ContextMap.mix, ContextMap.mix1.
  assert (H : state_pr_ok (mixer_of
            (for_ 0 (ContextMap.cn s)
               (ContextMap.mix1_body g (c0 g) (bpos g) (Buf_back g 1) y) (0, m, r, s)))).
  { apply (for_inv (fun st => state_pr_ok (mixer_of st))); [exact Hm|].
    intros i st _ Hst. apply mix1_body_pr_ok, Hst. }
  destruct (for_ _ _ _ _) as [[[result m'] r'] s']. exact H.
Qed.

(** [contextModel2] keeps it *)
Lemma ContextModel2_run_pr_ok (y : Z) (g : Ctx) (r : Random) (s : ContextModel2.state) :
  state_pr_ok (ContextModel2.m s) ->
  state_pr_ok (ContextModel2.m (snd (ContextModel2.run y g r s))).
Proof.
  intros Hm. unfold ContextModel2.run.
  pose proof (add_pr_ok 256 _ (update_pr_ok y _ Hm)) as H0.
  repeat first
    [ match goal with
      | |- context [match ContextMap.mix ?y ?g ?m ?r ?s with pair _ _ => _ end] =>
          let H := fresh "Hcm" in
          pose proof (cm_mix_pr_ok y g m r s H0) as H;
          destruct (ContextMap.mix y g m r s) as [[[? ?] ?] ?];
          unfold mixer_of in H; cbn [fst snd] in H
      | |- context [match RunContextMap.mix ?g ?m ?r with pair _ _ => _ end] =>
          let H := fresh "Hrcm" in
          pose proof (rcm_mix_pr_ok g m r ltac:(assumption)) as H;
          destruct (RunContextMap.mix g m r); cbn [snd] in H
      | |- context [match Mixer.p ?y ?m with pair _ _ => _ end] =>
          let H := fresh "Hp" in
          assert (H : state_pr_ok (snd (Mixer.p y m)))
            by (apply p_pr_ok; repeat apply set_pr_ok; assumption);
          destruct (Mixer.p y m); cbn [snd] in H
      end
    | break_let ].
  cbn [snd ContextModel2.m]. assumption.
Qed.

Lemma Predictor_update_cm2 (y : Z) (s : Predictor.state) :
  Predictor.cm2 (Predictor.update y s) =
  snd (ContextModel2.run y (Predictor.update_ctx y (Predictor.g s))
         (Predictor.rnd s) (Predictor.cm2 s)).
Proof.
  unfold Predictor.update.
  destruct (ContextModel2.run _ _ _ _) as [[pr0 r] cm2].
  repeat break_let. reflexivity.
Qed.

Lemma run_mixer_pr_ok (MEM : Z) (bits : list bool) :
  state_pr_ok (ContextModel2.m (Predictor.cm2 (Predictor.run MEM bits))).
Proof.
  induction bits as [|y bits IH] using rev_ind.
  - apply ctor_state_pr_ok.
  - rewrite run_snoc, Predictor_update_cm2. apply ContextModel2_run_pr_ok, IH.
Qed.

(** so the assertion of [update] holds in every run: for the mixer of
    [contextModel2] and for the mixer it feeds *)
Lemma Predictor_mixer_err (MEM : Z) (bits : list bool) (y : bool) (i : Z) :
  let m := ContextModel2.m (Predictor.cm2 (Predictor.run MEM bits)) in
  -32768 <= Mixer.err (b2i y) (Mixer.own m) i < 32768 /\
  match Mixer.mp m with
  | Some c => -32768 <= Mixer.err (b2i y) (Mixer.own c) i < 32768
  | None => True
  end.
Proof.
  cbv zeta. pose proof (run_mixer_pr_ok MEM bits) as H.
  destruct (ContextModel2.m _) as [f c]. cbn [Mixer.own Mixer.mp state_pr_ok] in *.
  destruct H as [Hf Hc]. split.
  - apply err_range; [apply b2i_bit | apply Hf].
  - destruct c as [[cf cc]|]; [|exact I]. cbn [Mixer.own state_pr_ok] in *.
    apply err_range; [apply b2i_bit | apply (proj1 Hc)].
Qed.

(** ** Sample values *)

Example squash_sample :
  map squash [-2048; -2047; -1024; 0; 1; 1024; 2047; 2048]
  = [0; 1; 73; 2047; 2051; 4022; 4094; 4095].
Proof. vm_compute. reflexivity. Qed.

Example stretch_sample :
  map stretch [0; 1; 73; 2047; 2048; 4094; 4095]
  = [-2047; -2047; -1026; 0; 1; 1984; 2047].
Proof. vm_compute. reflexivity. Qed.

Example ilog_sample : map ilog [0; 1; 2; 3; 4; 16; 256; 65535] = [0; 0; 16; 25; 32; 64; 128; 255].
Proof. vm_compute. reflexivity. Qed.

Example rnd_sample :
  rtable Random_ctor 2 = 2451732073 /\ fst (rnd Random_ctor) = 2423102128.
Proof. split; vm_compute; reflexivity. Qed.

(** the first bit of a stream, 0: the mixer sees the bias 256 and three
    silent run maps, its six weight sets give 2063 each, the final mixer
    2090, and the APMs leave it there *)
Example Predictor_sample :
  Predictor.outputs (Predictor.ctor 2097152) [false; false; false]
  = [2048; 2090; 2074; 2058].
Proof. vm_compute. reflexivity. Qed.

(** * Further properties of the code *)

(** ** The tables *)

Lemma sortedb_head (l : list Z) : forall a,
  sortedb (a :: l) = true -> forall j, (j < length l)%nat -> a <= nth j l 0.
Proof.
  induction l as [|c l IH]; intros a H j Hj; [simpl in Hj; lia|].
  cbn [sortedb] in H. apply andb_prop in H as [Hac Hs]. apply Z.leb_le in Hac.
  destruct j as [|j]; cbn [nth]; [exact Hac|].
  specialize (IH c Hs j ltac:(simpl in Hj; lia)). lia.
Qed.

Lemma sortedb_nth (l : list Z) :
  sortedb l = true ->
  forall i j, (i <= j < length l)%nat -> nth i l 0 <= nth j l 0.
Proof.
  induction l as [|a l IH]; intros H i j Hij; [simpl in Hij; lia|].
  destruct i as [|i].
  - destruct j as [|j]; cbn [nth]; [lia|].
    apply (sortedb_head l a H). simpl in Hij. lia.
  - destruct j as [|j]; [lia|]. cbn [nth]. apply IH; [|simpl in Hij; lia].
    destruct l as [|c l]; [reflexivity|].
    cbn [sortedb] in H. apply andb_prop in H as [_ H]. exact H.
Qed.

Lemma forallb_nth (f : Z -> bool) (l : list Z) :
  forallb f l = true -> forall i, (i < length l)%nat -> f (nth i l 0) = true.
Proof.
  intros H i Hi. rewrite forallb_forall in H. apply H, nth_In, Hi.
Qed.

(** *** squash *)

Lemma squash_step_enum :
  forallb (fun d => squash d <=? squash (d + 1)) (zrange (-2049) 4099) = true.
Proof. vm_cast_no_check (eq_refl true). Qed.

Lemma squash_step (d : Z) : squash d <= squash (d + 1).
Proof.
  destruct (Z_lt_ge_dec d (-2049)) as [Hlo | Hlo].
  - unfold squash.
    replace (2047 <? d) with false by (symmetry; apply Z.ltb_ge; lia).
    replace (2047 <? d + 1) with false by (symmetry; apply Z.ltb_ge; lia).
    replace (d <? -2047) with true by (symmetry; apply Z.ltb_lt; lia).
    replace (d + 1 <? -2047) with true by (symmetry; apply Z.ltb_lt; lia).
    lia.
  - destruct (Z_lt_ge_dec d 2050) as [Hhi | Hhi].
    + apply Z.leb_le.
      apply (forallb_zrange _ _ _ squash_step_enum d). lia.
    + unfold squash.
      replace (2047 <? d) with true by (symmetry; apply Z.ltb_lt; lia).
      replace (2047 <? d + 1) with true by (symmetry; apply Z.ltb_lt; lia).
      lia.
Qed.

(** [squash] never falls *)
Lemma squash_mono (d d' : Z) : d <= d' -> squash d <= squash d'.
Proof.
  intros Hle.
  replace d' with (d + Z.of_nat (Z.to_nat (d' - d))) by lia.
  induction (Z.to_nat (d' - d)) as [|n IH]; [replace (d + Z.of_nat 0) with d by lia; lia|].
  replace (d + Z.of_nat (S n)) with (d + Z.of_nat n + 1) by lia.
  pose proof (squash_step (d + Z.of_nat n)). lia.
Qed.

(** [squash] never falls, over all of [int], and it is 0 below -2047 and
    4095 above 2047 only: within the domain it stays in 1..4094. *)
Theorem squash_monotone (d d' : Z) :
  d <= d' ->
  squash d <= squash d' /\
  (d < -2047 -> squash d = 0) /\ (2047 < d -> squash d = 4095) /\
  (-2047 <= d <= 2047 -> 1 <= squash d <= 4094).
Proof.
  intros Hle. split; [|split; [|split]].
  - apply squash_mono, Hle.
  - intros H. unfold squash.
    replace (2047 <? d) with false by (symmetry; apply Z.ltb_ge; lia).
    replace (d <? -2047) with true by (symmetry; apply Z.ltb_lt; lia). reflexivity.
  - intros H. unfold squash.
    replace (2047 <? d) with true by (symmetry; apply Z.ltb_lt; lia). reflexivity.
  - intros H.
    assert (Hlo : squash (-2047) <= squash d) by (apply squash_mono; lia).
    assert (Hhi : squash d <= squash 2047) by (apply squash_mono; lia).
    change (squash (-2047)) with 1 in Hlo. change (squash 2047) with 4094 in Hhi. lia.
Qed.

Lemma squash_monotone_witness :
  -5 <= 7 /\ squash (-5) <= squash 7.
Proof.
  split; [lia|]. exact (proj1 (squash_monotone (-5) 7 ltac:(lia))).
Defined.

(** *** stretch *)

Lemma stretch_t_length : length stretch_t = 4096%nat.
Proof. reflexivity. Qed.

Lemma stretch_t_sorted : sortedb stretch_t = true.
Proof. vm_cast_no_check (eq_refl true). Qed.

Lemma stretch_t_bounds :
  forallb (fun v => (-2047 <=? v) && (v <=? 2047)) stretch_t = true.
Proof. vm_cast_no_check (eq_refl true). Qed.

Lemma stretch_least_enum : forallb stretch_least_ok (zrange 0 4095) = true.
Proof. vm_cast_no_check (eq_refl true). Qed.

(** [stretch] returns a logit in -2047..2047 *)
Lemma stretch_range (p : Z) : 0 <= p <= 4095 -> -2047 <= stretch p <= 2047.
Proof.
  intros Hp. unfold stretch, tab.
  pose proof (forallb_nth _ _ stretch_t_bounds (Z.to_nat p)
                ltac:(rewrite stretch_t_length; lia)) as H.
  cbv beta in H. apply andb_prop in H as [H1 H2]. lia.
Qed.

(** [stretch] returns a logit in -2047..2047 and never falls. *)
Theorem stretch_monotone (p p' : Z) :
  0 <= p <= p' -> p' <= 4095 ->
  -2047 <= stretch p <= 2047 /\ stretch p <= stretch p'.
Proof.
  intros Hp Hp'. split; [apply stretch_range; lia|]. unfold stretch, tab.
  - apply sortedb_nth; [exact stretch_t_sorted|]. rewrite stretch_t_length. lia.
Qed.

Lemma stretch_monotone_witness :
  (0 <= 100 <= 3000 /\ 3000 <= 4095) /\ stretch 100 <= stretch 3000.
Proof.
  split; [lia|]. exact (proj2 (stretch_monotone 100 3000 ltac:(lia) ltac:(lia))).
Defined.

(** [stretch p] is the least logit whose [squash] reaches [p]: for a
    probability below 4095 and a logit of the domain, [stretch p <= d]
    exactly when [p <= squash d]. *)
Theorem stretch_least (p d : Z) :
  0 <= p <= 4094 -> -2047 <= d <= 2047 ->
  (stretch p <= d <-> p <= squash d).
Proof.
  intros Hp Hd.
  pose proof (forallb_zrange _ _ _ stretch_least_enum p ltac:(lia)) as H.
  unfold stretch_least_ok in H. apply andb_prop in H as [H1 H2].
  apply Z.leb_le in H1. split.
  - intros Hle. pose proof (squash_mono _ _ Hle). lia.
  - intros Hle. destruct (Z_le_gt_dec (stretch p) d) as [Hok | Hgt]; [exact Hok|].
    exfalso. apply orb_prop in H2 as [H2 | H2].
    + apply Z.eqb_eq in H2. lia.
    + apply Z.ltb_lt in H2.
      pose proof (squash_mono d (stretch p - 1) ltac:(lia)). lia.
Qed.

Lemma stretch_least_witness :
  (0 <= 2048 <= 4094 /\ -2047 <= 1 <= 2047) /\ (stretch 2048 <= 1 <-> 2048 <= squash 1).
Proof.
  split; [lia|]. exact (stretch_least 2048 1 ltac:(lia) ltac:(lia)).
Defined.

(** *** ilog and llog *)

Lemma Ilog_fill_length (n : nat) : forall i x, length (Ilog_fill n i x) = n.
Proof. induction n as [|n IH]; intros i x; simpl; [reflexivity | now rewrite IH]. Qed.

Lemma Ilog_ctor_length : Z.of_nat (length Ilog_ctor) = 65536.
Proof. unfold Ilog_ctor. cbn [length]. rewrite Ilog_fill_length. lia. Qed.

Lemma Ilog_sorted : sortedb Ilog_ctor = true.
Proof. vm_cast_no_check (eq_refl true). Qed.

Lemma Ilog_bounds : forallb (fun v => (0 <=? v) && (v <=? 255)) Ilog_ctor = true.
Proof. vm_cast_no_check (eq_refl true). Qed.

Lemma ilog_pow2_enum :
  forallb (fun k => ilog (2 ^ k) =? 16 * k) (zrange 0 16) = true.
Proof. vm_cast_no_check (eq_refl true). Qed.

Lemma ilog_mono (x x' : Z) : 0 <= x <= x' -> x' <= 65535 -> ilog x <= ilog x'.
Proof.
  intros Hx Hx'. unfold ilog, tab. rewrite !u16_id by lia.
  apply sortedb_nth; [exact Ilog_sorted|].
  pose proof Ilog_ctor_length. lia.
Qed.

Lemma ilog_range (x : Z) : 0 <= ilog x <= 255.
Proof.
  unfold ilog, tab.
  pose proof (u16_range x) as Hu. pose proof Ilog_ctor_length as Hl.
  pose proof (forallb_nth _ _ Ilog_bounds (Z.to_nat (u16 x)) ltac:(lia)) as H.
  cbv beta in H. apply andb_prop in H as [H1 H2]. lia.
Qed.

(** [ilog] is in 0..255, never falls over 0..65535, and is exactly
    16 log2 at the powers of two. *)
Theorem ilog_monotone (x x' k : Z) :
  0 <= x <= x' -> x' <= 65535 -> 0 <= k <= 15 ->
  0 <= ilog x <= ilog x' /\ ilog x' <= 255 /\ ilog (2 ^ k) = 16 * k.
Proof.
  intros Hx Hx' Hk.
  pose proof (ilog_range x). pose proof (ilog_range x').
  pose proof (ilog_mono x x' Hx Hx').
  split; [lia|]. split; [lia|].
  apply Z.eqb_eq. apply (forallb_zrange _ _ _ ilog_pow2_enum k). lia.
Qed.

Lemma ilog_monotone_witness :
  (0 <= 3 <= 1000 /\ 1000 <= 65535 /\ 0 <= 10 <= 15) /\ ilog (2 ^ 10) = 16 * 10.
Proof.
  split; [lia|].
  exact (proj2 (proj2 (ilog_monotone 3 1000 10 ltac:(lia) ltac:(lia) ltac:(lia)))).
Defined.

Lemma llog_pow2_enum :
  forallb (fun k => llog (2 ^ k) =? 16 * k) (zrange 0 32) = true.
Proof. vm_cast_no_check (eq_refl true). Qed.

Lemma ilog_256 : ilog 256 = 128.
Proof. vm_cast_no_check (eq_refl 128). Qed.

Lemma shiftr_bounds (x a c : Z) (n : Z) :
  0 <= n -> a * 2 ^ n <= x < c * 2 ^ n -> a <= Z.shiftr x n < c.
Proof.
  intros Hn Hx. rewrite Z.shiftr_div_pow2 by lia.
  assert (0 < 2 ^ n) by (apply Z.pow_pos_nonneg; lia).
  split.
  - apply Z.div_le_lower_bound; lia.
  - apply Z.div_lt_upper_bound; lia.
Qed.

Lemma shiftr_mono (x x' n : Z) : 0 <= n -> x <= x' -> Z.shiftr x n <= Z.shiftr x' n.
Proof.
  intros Hn H. rewrite !Z.shiftr_div_pow2 by lia.
  apply Z.div_le_mono; [apply Z.pow_pos_nonneg; lia | exact H].
Qed.

(** [llog] carries [ilog] to 32 bits without a break: it never falls over
    0..2^32-1, stays in 0..511, and is exactly 16 log2 at the powers of
    two. *)
Theorem llog_monotone (x x' k : Z) :
  0 <= x <= x' -> x' <= 4294967295 -> 0 <= k <= 31 ->
  0 <= llog x <= llog x' /\ llog x' <= 511 /\ llog (2 ^ k) = 16 * k.
Proof.
  intros Hx Hx' Hk.
  assert (Hpow : llog (2 ^ k) = 16 * k).
  { apply Z.eqb_eq. apply (forallb_zrange _ _ _ llog_pow2_enum k). lia. }
  split; [|split; [|exact Hpow]].
  - unfold llog.
    destruct (16777216 <=? x) eqn:E1; destruct (16777216 <=? x') eqn:E1';
      try (apply Z.leb_le in E1); try (apply Z.leb_le in E1');
      try (apply Z.leb_gt in E1); try (apply Z.leb_gt in E1'); try lia.
    + pose proof (shiftr_bounds x 256 65536 16 ltac:(lia) ltac:(lia)).
      pose proof (shiftr_bounds x' 256 65536 16 ltac:(lia) ltac:(lia)).
      pose proof (shiftr_mono x x' 16 ltac:(lia) ltac:(lia)).
      pose proof (ilog_mono (Z.shiftr x 16) (Z.shiftr x' 16) ltac:(lia) ltac:(lia)).
      pose proof (ilog_range (Z.shiftr x 16)). lia.
    + pose proof (shiftr_bounds x' 256 65536 16 ltac:(lia) ltac:(lia)).
      pose proof (ilog_mono 256 (Z.shiftr x' 16) ltac:(lia) ltac:(lia)) as Hm.
      rewrite ilog_256 in Hm.
      destruct (65536 <=? x) eqn:E2;
        [apply Z.leb_le in E2 | apply Z.leb_gt in E2].
      * pose proof (ilog_range (Z.shiftr x 8)). lia.
      * pose proof (ilog_range x). lia.
    + destruct (65536 <=? x) eqn:E2; destruct (65536 <=? x') eqn:E2';
        try (apply Z.leb_le in E2); try (apply Z.leb_le in E2');
        try (apply Z.leb_gt in E2); try (apply Z.leb_gt in E2'); try lia.
      * pose proof (shiftr_bounds x 256 65536 8 ltac:(lia) ltac:(lia)).
        pose proof (shiftr_bounds x' 256 65536 8 ltac:(lia) ltac:(lia)).
        pose proof (shiftr_mono x x' 8 ltac:(lia) ltac:(lia)).
        pose proof (ilog_mono (Z.shiftr x 8) (Z.shiftr x' 8) ltac:(lia) ltac:(lia)).
        pose proof (ilog_range (Z.shiftr x 8)). lia.
      * pose proof (shiftr_bounds x' 256 65536 8 ltac:(lia) ltac:(lia)).
        pose proof (ilog_mono 256 (Z.shiftr x' 8) ltac:(lia) ltac:(lia)) as Hm.
        rewrite ilog_256 in Hm. pose proof (ilog_range x). lia.
      * pose proof (ilog_mono x x' ltac:(lia) ltac:(lia)).
        pose proof (ilog_range x). lia.
  - unfold llog.
    destruct (16777216 <=? x'); [|destruct (65536 <=? x')].
    + pose proof (ilog_range (Z.shiftr x' 16)). lia.
    + pose proof (ilog_range (Z.shiftr x' 8)). lia.
    + pose proof (ilog_range x'). lia.
Qed.

Lemma llog_monotone_witness :
  (0 <= 65535 <= 65536 /\ 65536 <= 4294967295 /\ 0 <= 20 <= 31) /\
  llog 65535 <= llog 65536.
Proof.
  split; [lia|].
  exact (proj2 (proj1 (llog_monotone 65535 65536 20 ltac:(lia) ltac:(lia) ltac:(lia)))).
Defined.

(** *** The bit-history states *)

Lemma state_enum : forallb state_ok (zrange 0 253) = true.
Proof. vm_cast_no_check (eq_refl true). Qed.

Lemma state_ok_spec (s : Z) : 0 <= s <= 252 ->
  (1 <= nex s 0 <= 252 /\ 1 <= nex s 1 <= 252) /\
  (1 <= nex (nex s 0) 2 /\ 1 <= nex (nex s 1) 3) /\
  (nex (nex s 1) 2 <= nex s 2 /\ nex (nex s 0) 3 <= nex s 3).
Proof.
  intros Hs.
  pose proof (forallb_zrange _ _ _ state_enum s ltac:(lia)) as H.
  unfold state_ok in H.
  repeat (apply andb_prop in H; destruct H as [H ?]).
  repeat match goal with
         | H : (_ <=? _) = true |- _ => apply Z.leb_le in H
         end.
  lia.
Qed.

(** From a state in 0..252 any bits lead to a state in 0..252, and after
    one bit or more to a state in 1..252: never to a reserved state and
    never back to the empty state 0.  The state after a 1 counts a 1, and
    no more 0s than the state before; likewise after a 0. *)
Theorem nex_closed (bits : list bool) (s : Z) :
  0 <= s <= 252 ->
  0 <= nex_run bits s <= 252 /\
  (bits <> [] -> 1 <= nex_run bits s) /\
  (1 <= nex (nex s 1) 3 /\ nex (nex s 1) 2 <= nex s 2) /\
  (1 <= nex (nex s 0) 2 /\ nex (nex s 0) 3 <= nex s 3).
Proof.
  intros Hs. split; [|split].
  - revert s Hs. induction bits as [|y bits IH]; intros s Hs; [exact Hs|].
    unfold nex_run in *. cbn [fold_left]. apply IH.
    pose proof (state_ok_spec s Hs). destruct y; cbn [b2i]; lia.
  - intros Hne. destruct bits as [|y bits]; [congruence|].
    unfold nex_run. cbn [fold_left].
    assert (H1 : 1 <= nex s (b2i y) <= 252).
    { pose proof (state_ok_spec s Hs). destruct y; cbn [b2i]; lia. }
    clear Hne. revert H1. generalize (nex s (b2i y)) as s1. clear s Hs.
    induction bits as [|z bits IH]; intros s1 H1; cbn [fold_left]; [lia|].
    apply IH. pose proof (state_ok_spec s1 ltac:(lia)). destruct z; cbn [b2i]; lia.
  - pose proof (state_ok_spec s Hs). lia.
Qed.

Lemma nex_closed_witness :
  0 <= 0 <= 252 /\ 0 <= nex_run [true; true; false] 0 <= 252.
Proof.
  split; [lia|]. exact (proj1 (nex_closed [true; true; false] 0 ltac:(lia))).
Defined.

Lemma state_priority_sorted :
  sortedb (map (fun s => nex s 2 + nex s 3) (zrange 0 253)) = true.
Proof. vm_cast_no_check (eq_refl true). Qed.

Lemma zrange_length (lo : Z) (n : nat) : length (zrange lo n) = n.
Proof. unfold zrange. now rewrite length_map, length_seq. Qed.

Lemma map_zrange_nth (f : Z -> Z) (lo : Z) (n i : nat) :
  (i < n)%nat -> nth i (map f (zrange lo n)) 0 = f (lo + Z.of_nat i).
Proof.
  intros Hi. unfold zrange. rewrite map_map.
  rewrite (nth_indep _ 0 ((fun k => f (lo + Z.of_nat k)) O))
    by (rewrite length_map, length_seq; exact Hi).
  rewrite (map_nth (fun k => f (lo + Z.of_nat k))), seq_nth by exact Hi.
  reflexivity.
Qed.

(** The states are numbered by the bits they have seen: a higher state
    counts at least as many bits, [n0 + n1], as a lower one, so the state
    number that ContextMap uses as a replacement priority prefers the
    histories seen more often. *)
Theorem nex_priority (s s' : Z) :
  0 <= s <= s' -> s' <= 252 ->
  nex s 2 + nex s 3 <= nex s' 2 + nex s' 3.
Proof.
  intros Hs Hs'.
  pose proof (sortedb_nth _ state_priority_sorted (Z.to_nat s) (Z.to_nat s')) as H.
  rewrite length_map, zrange_length in H.
  specialize (H ltac:(lia)).
  rewrite !map_zrange_nth in H by lia.
  replace (0 + Z.of_nat (Z.to_nat s)) with s in H by lia.
  replace (0 + Z.of_nat (Z.to_nat s')) with s' in H by lia.
  exact H.
Qed.

Lemma nex_priority_witness :
  (0 <= 3 <= 200 /\ 200 <= 252) /\ nex 3 2 + nex 3 3 <= nex 200 2 + nex 200 3.
Proof.
  split; [lia|]. exact (nex_priority 3 200 ltac:(lia) ltac:(lia)).
Defined.

(** *** The table of a new StateMap *)

Lemma sm_init_enum : forallb sm_init_ok (zrange 0 256) = true.
Proof. vm_cast_no_check (eq_refl true). Qed.

(** A new StateMap gives every state a probability strictly between 0
    and 1 (24..65511 of 65536), at least 1/2 exactly for the states that
    have seen no more 0s than 1s, and returns 2048 for the empty state. *)
Theorem StateMap_ctor_table (i : Z) :
  0 <= i <= 255 ->
  24 <= StateMap.t StateMap.ctor i <= 65511 /\
  (32768 <= StateMap.t StateMap.ctor i <-> nex i 2 <= nex i 3) /\
  StateMap.t StateMap.ctor 0 = 32768.
Proof.
  intros Hi.
  pose proof (forallb_zrange _ _ _ sm_init_enum i ltac:(lia)) as H.
  unfold sm_init_ok in H. cbv zeta in H.
  apply andb_prop in H as [H H3]. apply andb_prop in H as [H1 H2].
  apply Z.leb_le in H1, H2. apply Bool.eqb_prop in H3.
  split; [lia|]. split; [|reflexivity].
  rewrite <- Z.leb_le, H3, Z.leb_le. reflexivity.
Qed.

Lemma StateMap_ctor_table_witness :
  0 <= 1 <= 255 /\ 24 <= StateMap.t StateMap.ctor 1 <= 65511.
Proof.
  split; [lia|]. exact (proj1 (StateMap_ctor_table 1 ltac:(lia))).
Defined.

(** ** APM *)

(** the place of a stretched probability among the 33 points of a row *)
Lemma apm_slot (pr : Z) : 0 <= pr <= 4095 ->
  0 <= Z.shiftr (stretch pr + 2048) 7 <= 31.
Proof.
  intros Hp. pose proof (stretch_range pr Hp) as Hs.
  pose proof (shiftr_bounds (stretch pr + 2048) 0 32 7 ltac:(lia)) as H.
  change (2 ^ 7) with 128 in H. specialize (H ltac:(lia)). lia.
Qed.

(** [p] reads and trains inside the table only: for a probability in
    0..4095 and a context in 0..N-1 the two entries it leaves selected lie
    in the row of the context, and it has written no entry but the two
    selected before. *)
Theorem APM_p_in_table (y pr cx rate : Z) (a : APM.state) :
  0 <= pr <= 4095 -> 0 <= cx < APM.N a ->
  let a' := snd (APM.p y pr cx rate a) in
  (cx * 33 <= APM.index a' /\ APM.index a' + 1 < (cx + 1) * 33) /\
  (0 <= APM.index a' /\ APM.index a' + 1 < APM.N a * 33) /\
  APM.N a' = APM.N a /\
  (forall k, k <> APM.index a -> k <> APM.index a + 1 -> APM.t a' k = APM.t a k).
Proof.
  intros Hp Hc. unfold APM.p. cbn [snd APM.index APM.N APM.t].
  pose proof (apm_slot pr Hp) as Hj.
  split; [lia|]. split; [nia|]. split; [reflexivity|].
  intros k H1 H2. rewrite !set_neq by assumption. reflexivity.
Qed.

Lemma APM_p_in_table_witness :
  (0 <= 2048 <= 4095 /\ 0 <= 3 < APM.N (APM.ctor 256)) /\
  APM.index (snd (APM.p 1 2048 3 7 (APM.ctor 256))) + 1 < (3 + 1) * 33.
Proof.
  split; [split; [lia | cbn; lia]|].
  exact (proj2 (proj1 (APM_p_in_table 1 2048 3 7 (APM.ctor 256)
                         ltac:(lia) ltac:(cbn; lia)))).
Defined.

Lemma apm_interp_enum : forallb apm_interp_ok (zrange 0 4096) = true.
Proof. vm_cast_no_check (eq_refl true). Qed.

Lemma apm_row_mod (cx j : Z) : 0 <= j <= 32 -> apm_row (j + cx * 33) = apm_row j.
Proof.
  intros Hj. unfold apm_row. rewrite Z.mod_add by lia.
  rewrite Z.mod_small by lia. reflexivity.
Qed.

(** A new APM maps a probability to itself, nearly: in any context but
    0, whose first entries the first call trains, the first call returns
    [pr] up to the grain of the tables, between [pr - 1] and [pr + 3],
    whatever the bit and the rate. *)
Theorem APM_ctor_identity (y pr cx rate n : Z) :
  0 <= pr <= 4095 -> 1 <= cx < n ->
  pr - 1 <= fst (APM.p y pr cx rate (APM.ctor n)) <= pr + 3.
Proof.
  intros Hp Hc.
  pose proof (forallb_zrange _ _ _ apm_interp_enum pr ltac:(lia)) as H.
  unfold apm_interp_ok in H. apply andb_prop in H as [H1 H2].
  apply Z.leb_le in H1, H2.
  replace (fst (APM.p y pr cx rate (APM.ctor n))) with (apm_interp pr); [lia|].
  unfold APM.p, APM.ctor, apm_interp. cbn [fst APM.index APM.N APM.t].
  change (fun k : Z => squash ((k mod 33 - 16) * 128) * 16) with apm_row.
  pose proof (apm_slot pr Hp) as Hj.
  set (j := Z.shiftr (stretch pr + 2048) 7) in *.
  rewrite !set_neq by lia.
  unfold Arr.init.
  replace ((0 <=? j + cx * 33) && (j + cx * 33 <? n * 33)) with true
    by (symmetry; apply andb_true_intro; split; [apply Z.leb_le | apply Z.ltb_lt]; nia).
  replace ((0 <=? j + cx * 33 + 1) && (j + cx * 33 + 1 <? n * 33)) with true
    by (symmetry; apply andb_true_intro; split; [apply Z.leb_le | apply Z.ltb_lt]; nia).
  replace (j + cx * 33 + 1) with (j + 1 + cx * 33) by lia.
  rewrite !apm_row_mod by lia. reflexivity.
Qed.

Lemma APM_ctor_identity_witness :
  (0 <= 1000 <= 4095 /\ 1 <= 5 < 256) /\
  1000 - 1 <= fst (APM.p 1 1000 5 7 (APM.ctor 256)) <= 1000 + 3.
Proof.
  split; [lia|]. exact (APM_ctor_identity 1 1000 5 7 256 ltac:(lia) ltac:(lia)).
Defined.

(** *** APM under a constant bit *)

Lemma apm_train_one (v : Z) : 0 <= v <= 65535 -> v <= apm_train 1 v <= 65535.
Proof.
  intros Hv. unfold apm_train.
  change (Z.shiftl 1 16 + Z.shiftl 1 7 - 1 - 1) with 65662.
  rewrite Z.shiftr_div_pow2 by lia. change (2 ^ 7) with 128.
  pose proof (Z.div_mod (65662 - v) 128 ltac:(lia)).
  pose proof (Z.mod_pos_bound (65662 - v) 128 ltac:(lia)).
  rewrite u16_id by lia. lia.
Qed.

Lemma apm_train_one_mono (v v' : Z) :
  0 <= v <= v' -> v' <= 65535 -> apm_train 1 v <= apm_train 1 v'.
Proof.
  intros Hv Hv'. unfold apm_train.
  change (Z.shiftl 1 16 + Z.shiftl 1 7 - 1 - 1) with 65662.
  rewrite !Z.shiftr_div_pow2 by lia. change (2 ^ 7) with 128.
  pose proof (Z.div_mod (65662 - v) 128 ltac:(lia)).
  pose proof (Z.mod_pos_bound (65662 - v) 128 ltac:(lia)).
  pose proof (Z.div_mod (65662 - v') 128 ltac:(lia)).
  pose proof (Z.mod_pos_bound (65662 - v') 128 ltac:(lia)).
  rewrite !u16_id by lia. lia.
Qed.

Lemma apm_train_zero (v : Z) : 0 <= v <= 65535 -> 0 <= apm_train 0 v <= v.
Proof.
  intros Hv. unfold apm_train.
  change (Z.shiftl 0 16 + Z.shiftl 0 7 - 0 - 0) with 0.
  rewrite Z.shiftr_div_pow2 by lia. change (2 ^ 7) with 128.
  pose proof (Z.div_mod (0 - v) 128 ltac:(lia)).
  pose proof (Z.mod_pos_bound (0 - v) 128 ltac:(lia)).
  rewrite u16_id by lia. lia.
Qed.

Lemma apm_train_zero_mono (v v' : Z) :
  0 <= v <= v' -> v' <= 65535 -> apm_train 0 v <= apm_train 0 v'.
Proof.
  intros Hv Hv'. unfold apm_train.
  change (Z.shiftl 0 16 + Z.shiftl 0 7 - 0 - 0) with 0.
  rewrite !Z.shiftr_div_pow2 by lia. change (2 ^ 7) with 128.
  pose proof (Z.div_mod (0 - v) 128 ltac:(lia)).
  pose proof (Z.mod_pos_bound (0 - v) 128 ltac:(lia)).
  pose proof (Z.div_mod (0 - v') 128 ltac:(lia)).
  pose proof (Z.mod_pos_bound (0 - v') 128 ltac:(lia)).
  rewrite !u16_id by lia. lia.
Qed.

Lemma apm_trained_S (n : nat) (y v : Z) :
  apm_trained (S n) y v = apm_train y (apm_trained n y v).
Proof.
  revert v. induction n as [|n IH]; intros v; [reflexivity|].
  change (apm_trained (S (S n)) y v) with (apm_trained (S n) y (apm_train y v)).
  rewrite IH. reflexivity.
Qed.

Lemma apm_trained_add (n m : nat) (y v : Z) :
  apm_trained (n + m) y v = apm_trained m y (apm_trained n y v).
Proof.
  revert v. induction n as [|n IH]; intros v; [reflexivity|].
  cbn [Nat.add apm_trained]. apply IH.
Qed.

Lemma apm_trained_one (n : nat) : forall v v',
  0 <= v <= v' -> v' <= 65535 ->
  v <= apm_trained n 1 v <= apm_trained n 1 v' /\ apm_trained n 1 v' <= 65535.
Proof.
  induction n as [|n IH]; intros v v' Hv Hv'; simpl; [lia|].
  pose proof (apm_train_one v ltac:(lia)). pose proof (apm_train_one v' ltac:(lia)).
  pose proof (apm_train_one_mono v v' Hv Hv').
  specialize (IH (apm_train 1 v) (apm_train 1 v') ltac:(lia) ltac:(lia)). lia.
Qed.

Lemma apm_trained_zero (n : nat) : forall v v',
  0 <= v <= v' -> v' <= 65535 ->
  apm_trained n 0 v <= apm_trained n 0 v' <= v' /\ 0 <= apm_trained n 0 v.
Proof.
  induction n as [|n IH]; intros v v' Hv Hv'; simpl; [lia|].
  pose proof (apm_train_zero v ltac:(lia)). pose proof (apm_train_zero v' ltac:(lia)).
  pose proof (apm_train_zero_mono v v' Hv Hv').
  specialize (IH (apm_train 0 v) (apm_train 0 v') ltac:(lia) ltac:(lia)). lia.
Qed.

(** 870 steps take any entry to 65535 under 1 and to 0 under 0: the
    target of the training is set just beyond the range so that the
    rounded steps reach its ends *)
Lemma apm_trained_870 : apm_trained 870 1 0 = 65535 /\ apm_trained 870 0 65535 = 0.
Proof. split; vm_compute; reflexivity. Qed.

Lemma apm_trained_one_late (n : nat) (v : Z) :
  (870 <= n)%nat -> 0 <= v <= 65535 -> apm_trained n 1 v = 65535.
Proof.
  intros Hn Hv. replace n with (870 + (n - 870))%nat by lia.
  rewrite apm_trained_add.
  destruct (apm_trained_one 870 0 v ltac:(lia) ltac:(lia)) as [H1 H2].
  rewrite (proj1 apm_trained_870) in H1.
  pose proof (apm_trained_one (n - 870) (apm_trained 870 1 v) (apm_trained 870 1 v)
                ltac:(lia) ltac:(lia)).
  lia.
Qed.

Lemma apm_trained_zero_late (n : nat) (v : Z) :
  (870 <= n)%nat -> 0 <= v <= 65535 -> apm_trained n 0 v = 0.
Proof.
  intros Hn Hv. replace n with (870 + (n - 870))%nat by lia.
  rewrite apm_trained_add.
  destruct (apm_trained_zero 870 v 65535 ltac:(lia) ltac:(lia)) as [H1 H2].
  rewrite (proj2 apm_trained_870) in H1.
  pose proof (apm_trained_zero (n - 870) (apm_trained 870 0 v) (apm_trained 870 0 v)
                ltac:(lia) ltac:(lia)).
  lia.
Qed.

Lemma interpolate_mono (u v u' v' w : Z) :
  0 <= w <= 127 -> u <= u' -> v <= v' ->
  Z.shiftr (u * (128 - w) + v * w) 11 <= Z.shiftr (u' * (128 - w) + v' * w) 11.
Proof. intros Hw Hu Hv. apply shiftr_mono; [lia | nia]. Qed.

Lemma interpolate_same (u w : Z) :
  Z.shiftr (u * (128 - w) + u * w) 11 = Z.shiftr (u * 128) 11.
Proof. f_equal. lia. Qed.

Lemma APM_calls_S (n : nat) (y pr cx : Z) (a : APM.state) :
  APM_calls (S n) y pr cx a =
  fst (APM.p y pr cx 7 a) :: APM_calls n y pr cx (snd (APM.p y pr cx 7 a)).
Proof. cbn [APM_calls]. destruct (APM.p y pr cx 7 a). reflexivity. Qed.

Lemma APM_p_result (y pr cx : Z) (a : APM.state) :
  let a' := snd (APM.p y pr cx 7 a) in
  APM.index a' = Z.shiftr (stretch pr + 2048) 7 + cx * 33 /\
  fst (APM.p y pr cx 7 a) =
  Z.shiftr (APM.t a' (APM.index a') * (128 - Z.land (stretch pr) 127)
            + APM.t a' (APM.index a' + 1) * Z.land (stretch pr) 127) 11.
Proof.
  unfold APM.p. cbn [fst snd APM.index APM.t]. split; reflexivity.
Qed.

(** the calls after the first, exactly: each trains the two entries it
    then interpolates *)
Lemma APM_calls_nth (y pr cx : Z) (n : nat) : forall (a : APM.state) (k : nat),
  APM.index a = Z.shiftr (stretch pr + 2048) 7 + cx * 33 ->
  (k < n)%nat ->
  nth k (APM_calls n y pr cx a) 0 =
  Z.shiftr (apm_trained (S k) y (APM.t a (APM.index a))
              * (128 - Z.land (stretch pr) 127)
            + apm_trained (S k) y (APM.t a (APM.index a + 1))
              * Z.land (stretch pr) 127) 11.
Proof.
  induction n as [|n IH]; intros a k Hi Hk; [lia|].
  rewrite APM_calls_S.
  assert (Hstep : let a' := snd (APM.p y pr cx 7 a) in
            APM.index a' = APM.index a /\
            APM.t a' (APM.index a) = apm_train y (APM.t a (APM.index a)) /\
            APM.t a' (APM.index a + 1) = apm_train y (APM.t a (APM.index a + 1)) /\
            fst (APM.p y pr cx 7 a) =
            Z.shiftr (APM.t a' (APM.index a) * (128 - Z.land (stretch pr) 127)
                      + APM.t a' (APM.index a + 1) * Z.land (stretch pr) 127) 11).
  { unfold APM.p. cbn [fst snd APM.index APM.t]. rewrite <- Hi.
    split; [reflexivity|]. split; [|split].
    - rewrite set_neq by lia. rewrite set_eq. reflexivity.
    - rewrite set_eq. rewrite set_neq by lia. reflexivity.
    - reflexivity. }
  cbv zeta in Hstep. destruct Hstep as (Hidx & Hu & Hv & Hr).
  destruct k as [|k]; cbn [nth].
  - rewrite Hr, Hu, Hv. reflexivity.
  - rewrite IH by (try lia; rewrite Hidx; exact Hi).
    rewrite Hidx, Hu, Hv. reflexivity.
Qed.

(** With the probability, the context and the bit held, an APM with a
    16-bit table returns values in 0..4095 that never fall under the bit 1
    and are 4095 from the 872nd call on, and that never rise under the bit
    0 and are 0 from the 872nd call on. *)
Theorem APM_constant_bit (a : APM.state) (pr cx : Z) (n : nat) :
  apm_ok a ->
  let ones := APM_calls n 1 pr cx a in
  let zeros := APM_calls n 0 pr cx a in
  (forall k, (S k < n)%nat -> nth k ones 0 <= nth (S k) ones 0) /\
  (forall k, (k < n)%nat -> 0 <= nth k ones 0 <= 4095) /\
  (forall k, (871 <= k < n)%nat -> nth k ones 0 = 4095) /\
  (forall k, (S k < n)%nat -> nth (S k) zeros 0 <= nth k zeros 0) /\
  (forall k, (k < n)%nat -> 0 <= nth k zeros 0 <= 4095) /\
  (forall k, (871 <= k < n)%nat -> nth k zeros 0 = 0).
Proof.
  intros Ha. cbv zeta.
  pose proof (land_127 (stretch pr)) as Hw.
  assert (Hseq : forall y k, (k < n)%nat ->
            exists u v, 0 <= u <= 65535 /\ 0 <= v <= 65535 /\
              forall j, (j <= k)%nat ->
              nth j (APM_calls n y pr cx a) 0 =
              Z.shiftr (apm_trained j y u * (128 - Z.land (stretch pr) 127)
                        + apm_trained j y v * Z.land (stretch pr) 127) 11).
  { intros y k Hk. destruct n as [|n]; [lia|].
    pose proof (proj2 (APM_p_ok y pr cx 7 a Ha)) as Ha1.
    set (a1 := snd (APM.p y pr cx 7 a)) in *.
    exists (APM.t a1 (APM.index a1)), (APM.t a1 (APM.index a1 + 1)).
    split; [apply Ha1|]. split; [apply Ha1|].
    intros j Hj. rewrite APM_calls_S. fold a1.
    destruct (APM_p_result y pr cx a) as [Hidx Hres]. fold a1 in Hidx, Hres.
    destruct j as [|j]; cbn [nth].
    - exact Hres.
    - rewrite APM_calls_nth by (try lia; exact Hidx). reflexivity. }
  split; [|split; [|split; [|split; [|split]]]]; intros k Hk.
  - destruct (Hseq 1 (S k) ltac:(lia)) as (u & v & Hu & Hv & E).
    rewrite (E k ltac:(lia)), (E (S k) ltac:(lia)), !apm_trained_S.
    destruct (apm_trained_one k u u ltac:(lia) ltac:(lia)).
    destruct (apm_trained_one k v v ltac:(lia) ltac:(lia)).
    apply interpolate_mono; [exact Hw | apply apm_train_one; lia | apply apm_train_one; lia].
  - destruct (Hseq 1 k ltac:(lia)) as (u & v & Hu & Hv & E).
    rewrite (E k ltac:(lia)).
    destruct (apm_trained_one k u u ltac:(lia) ltac:(lia)).
    destruct (apm_trained_one k v v ltac:(lia) ltac:(lia)).
    apply interpolate_range; lia.
  - destruct (Hseq 1 k ltac:(lia)) as (u & v & Hu & Hv & E).
    rewrite (E k ltac:(lia)).
    rewrite !apm_trained_one_late by lia. rewrite interpolate_same. reflexivity.
  - destruct (Hseq 0 (S k) ltac:(lia)) as (u & v & Hu & Hv & E).
    rewrite (E k ltac:(lia)), (E (S k) ltac:(lia)), !apm_trained_S.
    destruct (apm_trained_zero k u u ltac:(lia) ltac:(lia)).
    destruct (apm_trained_zero k v v ltac:(lia) ltac:(lia)).
    apply interpolate_mono; [exact Hw | apply apm_train_zero; lia | apply apm_train_zero; lia].
  - destruct (Hseq 0 k ltac:(lia)) as (u & v & Hu & Hv & E).
    rewrite (E k ltac:(lia)).
    destruct (apm_trained_zero k u u ltac:(lia) ltac:(lia)).
    destruct (apm_trained_zero k v v ltac:(lia) ltac:(lia)).
    apply interpolate_range; lia.
  - destruct (Hseq 0 k ltac:(lia)) as (u & v & Hu & Hv & E).
    rewrite (E k ltac:(lia)).
    rewrite !apm_trained_zero_late by lia. rewrite interpolate_same. reflexivity.
Qed.

Lemma APM_constant_bit_witness :
  apm_ok (APM.ctor 256) /\
  (forall k, (S k < 3)%nat ->
     nth k (APM_calls 3 1 1000 5 (APM.ctor 256)) 0
     <= nth (S k) (APM_calls 3 1 1000 5 (APM.ctor 256)) 0).
Proof.
  split; [apply apm_ok_ctor|].
  exact (proj1 (APM_constant_bit (APM.ctor 256) 1000 5 3 (apm_ok_ctor 256))).
Defined.

(** ** Whole bytes through the global context *)

Lemma byte_sum_enum : forallb byte_sum_ok (zrange 0 256) = true.
Proof. vm_cast_no_check (eq_refl true). Qed.

(** a bit that leaves [c0] below 256 only extends it; one that takes it
    to 256 or more commits the byte *)
Lemma step_within (y : Z) (g : Ctx) :
  c0 g + (c0 g + y) < 256 ->
  Predictor.update_ctx y g =
  {| c0 := c0 g + (c0 g + y); c4 := c4 g; bpos := Z.land (bpos g + 1) 7;
     buf := buf g; pos := pos g |}.
Proof.
  intros H. unfold Predictor.update_ctx.
  replace (256 <=? c0 g + (c0 g + y)) with false by (symmetry; apply Z.leb_gt; lia).
  reflexivity.
Qed.

Lemma step_commit (y : Z) (g : Ctx) :
  256 <= c0 g + (c0 g + y) ->
  Predictor.update_ctx y g =
  {| c0 := 1; c4 := u32 (Z.shiftl (c4 g) 8 + (c0 g + (c0 g + y)) - 256);
     bpos := Z.land (bpos g + 1) 7;
     buf := Buf_store (buf g) (pos g) (c0 g + (c0 g + y));
     pos := int (pos g + 1) |}.
Proof.
  intros H. unfold Predictor.update_ctx.
  replace (256 <=? c0 g + (c0 g + y)) with true by (symmetry; apply Z.leb_le; lia).
  reflexivity.
Qed.

Lemma store_mod (bf : Buf) (i v : Z) : Buf_store bf i (256 + v) = Buf_store bf i v.
Proof.
  unfold Buf_store. f_equal. f_equal. unfold u8.
  replace (256 + v) with (v + 1 * 256) by lia. apply Z_mod_plus_full.
Qed.

(** eight bits from a byte boundary commit the byte they spell *)
Lemma feed_bits (b7 b6 b5 b4 b3 b2 b1 b0 : bool) (g : Ctx) :
  c0 g = 1 -> bpos g = 0 ->
  let x := 128 * b2i b7 + 64 * b2i b6 + 32 * b2i b5 + 16 * b2i b4
           + 8 * b2i b3 + 4 * b2i b2 + 2 * b2i b1 + b2i b0 in
  ctx_run [b7; b6; b5; b4; b3; b2; b1; b0] g =
  {| c0 := 1;
     c4 := u32 (Z.shiftl (c4 g) 8 + x);
     bpos := 0;
     buf := Buf_store (buf g) (pos g) x;
     pos := int (pos g + 1) |}.
Proof.
  intros Hc Hb. cbv zeta. unfold ctx_run. cbn [fold_left].
  pose proof (b2i_bit b7). pose proof (b2i_bit b6). pose proof (b2i_bit b5).
  pose proof (b2i_bit b4). pose proof (b2i_bit b3). pose proof (b2i_bit b2).
  pose proof (b2i_bit b1). pose proof (b2i_bit b0).
  rewrite (step_within (b2i b7) g) by lia. rewrite Hc, Hb.
  rewrite (step_within (b2i b6)) by (cbn [c0]; lia). cbn [c0 c4 bpos buf pos].
  rewrite (step_within (b2i b5)) by (cbn [c0]; lia). cbn [c0 c4 bpos buf pos].
  rewrite (step_within (b2i b4)) by (cbn [c0]; lia). cbn [c0 c4 bpos buf pos].
  rewrite (step_within (b2i b3)) by (cbn [c0]; lia). cbn [c0 c4 bpos buf pos].
  rewrite (step_within (b2i b2)) by (cbn [c0]; lia). cbn [c0 c4 bpos buf pos].
  rewrite (step_within (b2i b1)) by (cbn [c0]; lia). cbn [c0 c4 bpos buf pos].
  rewrite (step_commit (b2i b0)) by (cbn [c0]; lia). cbn [c0 c4 bpos buf pos].
  f_equal.
  - f_equal. lia.
  - etransitivity; [|apply store_mod]. f_equal. lia.
Qed.

Lemma feed_byte (x : Z) (g : Ctx) :
  0 <= x <= 255 -> c0 g = 1 -> bpos g = 0 ->
  ctx_run (byte_bits x) g =
  {| c0 := 1;
     c4 := u32 (Z.shiftl (c4 g) 8 + x);
     bpos := 0;
     buf := Buf_store (buf g) (pos g) x;
     pos := int (pos g + 1) |}.
Proof.
  intros Hx Hc Hb. unfold byte_bits. cbn [map].
  rewrite feed_bits by assumption. cbv zeta.
  pose proof (forallb_zrange _ _ _ byte_sum_enum x ltac:(lia)) as H.
  unfold byte_sum_ok in H. apply Z.eqb_eq in H. rewrite <- H. reflexivity.
Qed.

Lemma ctx_run_app (bits1 bits2 : list bool) (g : Ctx) :
  ctx_run (bits1 ++ bits2) g = ctx_run bits2 (ctx_run bits1 g).
Proof. unfold ctx_run. apply fold_left_app. Qed.

Lemma bytes_bits_snoc (l : list Z) (x : Z) :
  bytes_bits (l ++ [x]) = bytes_bits l ++ byte_bits x.
Proof.
  unfold bytes_bits. rewrite flat_map_app. cbn [flat_map]. now rewrite app_nil_r.
Qed.

Lemma run_g (MEM : Z) (bits : list bool) :
  Predictor.g (Predictor.run MEM bits) = ctx_run bits Ctx_init.
Proof.
  induction bits as [|y bits IH] using rev_ind; [reflexivity|].
  rewrite run_snoc, Predictor_update_g, IH, ctx_run_app. reflexivity.
Qed.

Lemma land_mask_small (k : Z) : 0 <= k < 16777216 -> Z.land k 16777215 = k.
Proof. intros H. rewrite land_ones24. apply Z.mod_small. exact H. Qed.

(** after whole bytes: a byte boundary, with the bytes in [buf] in the
    order they came *)
Lemma bytes_buf (l : list Z) :
  Forall (fun x => 0 <= x <= 255) l -> Z.of_nat (length l) <= 16777216 ->
  let g := ctx_run (bytes_bits l) Ctx_init in
  c0 g = 1 /\ bpos g = 0 /\ bsize (buf g) = 16777216 /\
  pos g = Z.of_nat (length l) /\
  (forall k, (k < length l)%nat -> b (buf g) (Z.of_nat k) = nth k l 0).
Proof.
  induction l as [|x l IH] using rev_ind; intros Hl Hn; cbv zeta.
  - cbn. repeat split; intros; lia.
  - apply Forall_app in Hl as [Hl Hx]. apply Forall_inv in Hx.
    rewrite length_app in *. cbn [length] in *.
    destruct (IH Hl ltac:(lia)) as (Hc & Hb & Hs & Hp & Hbuf).
    rewrite bytes_bits_snoc, ctx_run_app, feed_byte by assumption.
    cbn [c0 bpos buf pos]. unfold Buf_store. cbn [b bsize].
    split; [reflexivity|]. split; [reflexivity|]. split; [exact Hs|].
    split; [rewrite Hp, int_id by lia; lia|].
    intros k Hk. rewrite Hs, Hp. change (16777216 - 1) with 16777215.
    rewrite land_mask_small by lia. rewrite u8_id by lia.
    destruct (Nat.eq_dec k (length l)) as [-> | Hne].
    + rewrite set_eq, nth_middle. reflexivity.
    + rewrite set_neq by lia. rewrite app_nth1 by lia. apply Hbuf. lia.
Qed.

(** [buf(i)] reads the bytes back in the order they were coded: after
    the bits of at most 2^24 bytes, none included, the predictor is at a
    byte boundary, [pos] counts the bytes, and [buf(i)] is the [i]'th last
    of them for every [i] from 1 to their number. *)
Theorem Predictor_buf_bytes (MEM : Z) (l : list Z) :
  Forall (fun x => 0 <= x <= 255) l -> Z.of_nat (length l) <= 16777216 ->
  let g := Predictor.g (Predictor.run MEM (bytes_bits l)) in
  c0 g = 1 /\ bpos g = 0 /\ pos g = Z.of_nat (length l) /\
  forall i, 1 <= i <= Z.of_nat (length l) -> Buf_back g i = back l i.
Proof.
  intros Hl Hn. cbv zeta. rewrite run_g.
  destruct (bytes_buf l Hl Hn) as (Hc & Hb & Hs & Hp & Hbuf).
  split; [exact Hc|]. split; [exact Hb|]. split; [exact Hp|].
  intros i Hi.
  unfold Buf_back, back. rewrite Hs, Hp. change (16777216 - 1) with 16777215.
  rewrite land_mask_small by lia.
  replace ((1 <=? i) && (i <=? Z.of_nat (length l))) with true
    by (symmetry; apply andb_true_intro; split; apply Z.leb_le; lia).
  rewrite <- (Hbuf (Z.to_nat (Z.of_nat (length l) - i))) by lia.
  f_equal. lia.
Qed.

Lemma Predictor_buf_bytes_witness :
  (Forall (fun x => 0 <= x <= 255) [65; 66; 67] /\
   Z.of_nat (length [65; 66; 67]) <= 16777216) /\
  pos (Predictor.g (Predictor.run 65536 (bytes_bits [65; 66; 67]))) = 3 /\
  Buf_back (Predictor.g (Predictor.run 65536 (bytes_bits [65; 66; 67]))) 2 = 66.
Proof.
  assert (H : Forall (fun x => 0 <= x <= 255) [65; 66; 67])
    by (repeat constructor; lia).
  split; [split; [exact H | cbn; lia]|].
  destruct (Predictor_buf_bytes 65536 [65; 66; 67] H ltac:(cbn; lia))
    as (_ & _ & Hp & Hb).
  split; [exact Hp | exact (Hb 2 ltac:(cbn; lia))].
Defined.

Lemma back_snoc_1 (l : list Z) (x : Z) : back (l ++ [x]) 1 = x.
Proof.
  unfold back. rewrite length_app. cbn [length].
  replace ((1 <=? 1) && (1 <=? Z.of_nat (length l + 1))) with true
    by (symmetry; apply andb_true_intro; split; apply Z.leb_le; lia).
  replace (Z.to_nat (Z.of_nat (length l + 1) - 1)) with (length l) by lia.
  apply nth_middle.
Qed.

Lemma back_snoc_S (l : list Z) (x i : Z) : 1 <= i -> back (l ++ [x]) (i + 1) = back l i.
Proof.
  intros Hi. unfold back. rewrite length_app. cbn [length].
  destruct (Z_le_gt_dec i (Z.of_nat (length l))) as [Hle | Hgt].
  - replace ((1 <=? i + 1) && (i + 1 <=? Z.of_nat (length l + 1))) with true
      by (symmetry; apply andb_true_intro; split; apply Z.leb_le; lia).
    replace ((1 <=? i) && (i <=? Z.of_nat (length l))) with true
      by (symmetry; apply andb_true_intro; split; apply Z.leb_le; lia).
    replace (Z.to_nat (Z.of_nat (length l + 1) - (i + 1)))
      with (Z.to_nat (Z.of_nat (length l) - i)) by lia.
    apply app_nth1. lia.
  - replace (i + 1 <=? Z.of_nat (length l + 1)) with false
      by (symmetry; apply Z.leb_gt; lia).
    replace (i <=? Z.of_nat (length l)) with false
      by (symmetry; apply Z.leb_gt; lia).
    rewrite !andb_false_r. reflexivity.
Qed.

Lemma back_range (l : list Z) (i : Z) :
  Forall (fun x => 0 <= x <= 255) l -> 0 <= back l i <= 255.
Proof.
  intros Hl. unfold back.
  destruct ((1 <=? i) && (i <=? Z.of_nat (length l))) eqn:E; [|lia].
  apply andb_prop in E as [E1 E2]. apply Z.leb_le in E1, E2.
  rewrite Forall_forall in Hl. apply Hl, nth_In. lia.
Qed.

(** [c4] holds the last four bytes coded, the last one lowest (zeros
    where fewer than four were coded). *)
Theorem Predictor_c4_bytes (MEM : Z) (l : list Z) :
  Forall (fun x => 0 <= x <= 255) l ->
  let g := Predictor.g (Predictor.run MEM (bytes_bits l)) in
  c4 g = back l 4 * 16777216 + back l 3 * 65536 + back l 2 * 256 + back l 1.
Proof.
  intros Hl. cbv zeta. rewrite run_g.
  assert (H : c0 (ctx_run (bytes_bits l) Ctx_init) = 1 /\
              bpos (ctx_run (bytes_bits l) Ctx_init) = 0 /\
              c4 (ctx_run (bytes_bits l) Ctx_init) =
              back l 4 * 16777216 + back l 3 * 65536 + back l 2 * 256 + back l 1);
    [|exact (proj2 (proj2 H))].
  induction l as [|x l IH] using rev_ind.
  - cbn. repeat split.
  - apply Forall_app in Hl as [Hl Hx]. apply Forall_inv in Hx.
    destruct (IH Hl) as (Hc & Hb & H4).
    rewrite bytes_bits_snoc, ctx_run_app, feed_byte by assumption.
    cbn [c0 bpos c4]. split; [reflexivity|]. split; [reflexivity|].
    rewrite H4, back_snoc_1.
    change 4 with (3 + 1) at 2. change 3 with (2 + 1) at 3. change 2 with (1 + 1) at 3.
    rewrite !back_snoc_S by lia.
    pose proof (back_range l 4 Hl). pose proof (back_range l 3 Hl).
    pose proof (back_range l 2 Hl). pose proof (back_range l 1 Hl).
    unfold u32. rewrite Z.shiftl_mul_pow2 by lia. change (2 ^ 8) with 256.
    replace ((back l 4 * 16777216 + back l 3 * 65536 + back l 2 * 256 + back l 1) * 256 + x)
      with (back l 3 * 16777216 + back l 2 * 65536 + back l 1 * 256 + x
            + back l 4 * 4294967296) by lia.
    rewrite Z_mod_plus_full. apply Z.mod_small. lia.
Qed.

Lemma Predictor_c4_bytes_witness :
  Forall (fun x => 0 <= x <= 255) [1; 2; 3; 4; 5] /\
  c4 (Predictor.g (Predictor.run 65536 (bytes_bits [1; 2; 3; 4; 5])))
  = 2 * 16777216 + 3 * 65536 + 4 * 256 + 5.
Proof.
  assert (H : Forall (fun x => 0 <= x <= 255) [1; 2; 3; 4; 5])
    by (repeat constructor; lia).
  split; [exact H|]. exact (Predictor_c4_bytes 65536 [1; 2; 3; 4; 5] H).
Defined.

(** ** Mixer: which weights are trained, and how the sets are chosen *)

Lemma train_outside (t w : array) (wo n e k : Z) :
  k < wo \/ wo + Z.land (n + 7) (-8) <= k -> train t w wo n e k = w k.
Proof.
  intros Hk. unfold train.
  apply (for_inv (fun w' : array => w' k = w k)); [reflexivity|].
  intros i w' Hi Hw'. rewrite set_neq by lia. exact Hw'.
Qed.

Lemma train_zero_err (t w : array) (wo n : Z) :
  (forall k, -32768 <= w k <= 32767) -> forall k, train t w wo n 0 k = w k.
Proof.
  intros Hw. unfold train.
  apply (for_inv (fun w' : array => forall k, w' k = w k)); [reflexivity|].
  intros i w' _ Hw' k.
  replace (t i * 0 * 2) with 0 by lia. change (int 0) with 0.
  change (Z.shiftr (Z.shiftr 0 16 + 1) 1) with 0.
  rewrite Z.add_0_r. pose proof (Hw (wo + i)) as Hr. rewrite <- Hw' in Hr.
  replace (w' (wo + i) <? -32768) with false by (symmetry; apply Z.ltb_ge; lia).
  replace (32767 <? w' (wo + i)) with false by (symmetry; apply Z.ltb_ge; lia).
  rewrite short_id by lia.
  unfold Arr.set. destruct (k =? wo + i) eqn:E; [|apply Hw'].
  apply Z.eqb_eq in E. subst k. apply Hw'.
Qed.

(** [update] trains the selected weight sets only: a weight outside the
    rows of the contexts chosen by [set] is left as it is. *)
Theorem Mixer_update_selected (y : Z) (f : Mixer.fields) (k : Z) :
  (forall i, 0 <= i < Mixer.ncxt f ->
     k < Mixer.cxt f i * Mixer.N f \/
     Mixer.cxt f i * Mixer.N f + Z.land (Mixer.nx f + 7) (-8) <= k) ->
  Mixer.wx (Mixer.update_f y f) k = Mixer.wx f k.
Proof.
  intros Hk. unfold Mixer.update_f. cbn [Mixer.wx].
  apply (for_inv (fun w : array => w k = Mixer.wx f k)); [reflexivity|].
  intros i w Hi Hw. rewrite train_outside by (apply Hk; exact Hi). exact Hw.
Qed.

Lemma Mixer_update_selected_witness :
  (forall i, 0 <= i < Mixer.ncxt (Mixer.set_f 3 8 (Mixer.add_f 5 (Mixer.ctor_f 8 16 1 7))) ->
     0 < Mixer.cxt (Mixer.set_f 3 8 (Mixer.add_f 5 (Mixer.ctor_f 8 16 1 7))) i
         * Mixer.N (Mixer.set_f 3 8 (Mixer.add_f 5 (Mixer.ctor_f 8 16 1 7))) \/
     Mixer.cxt (Mixer.set_f 3 8 (Mixer.add_f 5 (Mixer.ctor_f 8 16 1 7))) i
       * Mixer.N (Mixer.set_f 3 8 (Mixer.add_f 5 (Mixer.ctor_f 8 16 1 7)))
     + Z.land (Mixer.nx (Mixer.set_f 3 8 (Mixer.add_f 5 (Mixer.ctor_f 8 16 1 7))) + 7) (-8)
     <= 0) /\
  Mixer.wx (Mixer.update_f 1 (Mixer.set_f 3 8 (Mixer.add_f 5 (Mixer.ctor_f 8 16 1 7)))) 0
  = Mixer.wx (Mixer.set_f 3 8 (Mixer.add_f 5 (Mixer.ctor_f 8 16 1 7))) 0.
Proof.
  assert (H : forall i,
    0 <= i < Mixer.ncxt (Mixer.set_f 3 8 (Mixer.add_f 5 (Mixer.ctor_f 8 16 1 7))) ->
     0 < Mixer.cxt (Mixer.set_f 3 8 (Mixer.add_f 5 (Mixer.ctor_f 8 16 1 7))) i
         * Mixer.N (Mixer.set_f 3 8 (Mixer.add_f 5 (Mixer.ctor_f 8 16 1 7))) \/
     Mixer.cxt (Mixer.set_f 3 8 (Mixer.add_f 5 (Mixer.ctor_f 8 16 1 7))) i
       * Mixer.N (Mixer.set_f 3 8 (Mixer.add_f 5 (Mixer.ctor_f 8 16 1 7)))
     + Z.land (Mixer.nx (Mixer.set_f 3 8 (Mixer.add_f 5 (Mixer.ctor_f 8 16 1 7))) + 7) (-8)
     <= 0).
  { cbn. intros i Hi. assert (i = 0) as -> by lia. left. reflexivity. }
  split; [exact H|].
  exact (Mixer_update_selected 1
           (Mixer.set_f 3 8 (Mixer.add_f 5 (Mixer.ctor_f 8 16 1 7))) 0 H).
Defined.

(** Where the error of every selected context is 0 (a 0 bit predicted at
    0), [update] moves no weight. *)
Theorem Mixer_update_no_error (y : Z) (f : Mixer.fields) (k : Z) :
  wx_ok f ->
  (forall i, 0 <= i < Mixer.ncxt f -> Mixer.err y f i = 0) ->
  Mixer.wx (Mixer.update_f y f) k = Mixer.wx f k.
Proof.
  intros Hw Herr. revert k. unfold Mixer.update_f. cbn [Mixer.wx].
  apply (for_inv (fun w : array => forall k, w k = Mixer.wx f k)); [reflexivity|].
  intros i w Hi Hw' k. rewrite (Herr i Hi).
  rewrite train_zero_err; [apply Hw'|].
  intros j. rewrite Hw'. apply Hw.
Qed.

Lemma Mixer_update_no_error_witness :
  wx_ok (Mixer.set_f 0 1 (Mixer.set_pr 0 0 (Mixer.add_f 100 (Mixer.ctor_f 8 1 1 5)))) /\
  Mixer.wx (Mixer.update_f 0
              (Mixer.set_f 0 1 (Mixer.set_pr 0 0 (Mixer.add_f 100 (Mixer.ctor_f 8 1 1 5))))) 0
  = Mixer.wx (Mixer.set_f 0 1 (Mixer.set_pr 0 0 (Mixer.add_f 100 (Mixer.ctor_f 8 1 1 5)))) 0.
Proof.
  assert (Hw : wx_ok (Mixer.set_f 0 1 (Mixer.set_pr 0 0
                        (Mixer.add_f 100 (Mixer.ctor_f 8 1 1 5)))))
    by exact (ctor_wx_ok 8 1 1 5).
  split; [exact Hw|].
  apply (Mixer_update_no_error 0 _ 0 Hw).
  cbn. intros i Hi. assert (i = 0) as -> by lia. reflexivity.
Defined.

(** ** Mixer: the sets chosen by [set] *)

Lemma sets_snoc (l : list (Z * Z)) (cx r : Z) (f : Mixer.fields) :
  Mixer_sets (l ++ [(cx, r)]) f = Mixer.set_f cx r (Mixer_sets l f).
Proof. unfold Mixer_sets. rewrite fold_left_app. reflexivity. Qed.

Lemma ranges_snoc (l : list (Z * Z)) (cx r : Z) :
  ranges (l ++ [(cx, r)]) = ranges l + r.
Proof.
  unfold ranges. induction l as [|a l IH]; cbn [app fold_right snd]; [lia|].
  fold (ranges l) in *. rewrite IH. lia.
Qed.

Lemma sets_inv (l : list (Z * Z)) (f : Mixer.fields) :
  Mixer.ncxt f = 0 -> Mixer.base f = 0 ->
  Forall (fun cr => 0 <= fst cr < snd cr) l ->
  let f' := Mixer_sets l f in
  Mixer.ncxt f' = Z.of_nat (length l) /\
  Mixer.base f' = ranges l /\
  Mixer.wx f' = Mixer.wx f /\ Mixer.tx f' = Mixer.tx f /\ Mixer.nx f' = Mixer.nx f /\
  (forall j : nat, (j < length l)%nat ->
     Mixer.cxt f' (Z.of_nat j) = ranges (firstn j l) + fst (nth j l (0, 0))).
Proof.
  intros Hn Hb. induction l as [|[cx r] l IH] using rev_ind; intros Hl; cbv zeta.
  - cbn. repeat split; try assumption. intros j Hj. lia.
  - apply Forall_app in Hl as [Hl Hx].
    destruct (IH Hl) as (H1 & H2 & H3 & H4 & H5 & H6).
    rewrite sets_snoc, ranges_snoc, length_app. cbn [length].
    unfold Mixer.set_f.
    cbn [Mixer.ncxt Mixer.base Mixer.wx Mixer.tx Mixer.nx Mixer.cxt].
    rewrite H1, H2.
    split; [lia|]. split; [reflexivity|].
    split; [exact H3|]. split; [exact H4|]. split; [exact H5|].
    intros j Hj. unfold Arr.set.
    destruct (Z.eqb_spec (Z.of_nat j) (Z.of_nat (length l))) as [E | E].
    + assert (j = length l) by lia. subst j.
      rewrite firstn_app, firstn_all, Nat.sub_diag, firstn_O, app_nil_r.
      rewrite app_nth2 by lia. rewrite Nat.sub_diag. reflexivity.
    + assert (Hj' : (j < length l)%nat) by lia.
      rewrite H6 by exact Hj'.
      rewrite firstn_app. replace (j - length l)%nat with 0%nat by lia.
      rewrite firstn_O, app_nil_r. rewrite app_nth1 by exact Hj'. reflexivity.
Qed.

Lemma ranges_firstn_S (l : list (Z * Z)) : forall j : nat, (j < length l)%nat ->
  ranges (firstn (S j) l) = ranges (firstn j l) + snd (nth j l (0, 0)).
Proof.
  induction l as [|a l IH]; intros j Hj; cbn [length] in Hj; [lia|].
  destruct j as [|j].
  - cbn [firstn nth]. unfold ranges. cbn [fold_right]. lia.
  - cbn [nth]. rewrite (firstn_cons (S j)), (firstn_cons j).
    unfold ranges in *. cbn [fold_right]. rewrite IH by lia. lia.
Qed.

Lemma ranges_firstn_le (l : list (Z * Z)) :
  Forall (fun cr => 0 <= fst cr < snd cr) l ->
  forall i j : nat, (i <= j)%nat -> ranges (firstn i l) <= ranges (firstn j l).
Proof.
  intros Hl i j Hij. induction Hij as [|j Hij IH]; [lia|].
  destruct (Nat.lt_ge_cases j (length l)) as [Hj | Hj].
  - rewrite ranges_firstn_S by exact Hj.
    rewrite Forall_forall in Hl.
    pose proof (Hl (nth j l (0, 0)) (nth_In l (0, 0) Hj)). lia.
  - rewrite (firstn_all2 (n := S j)) by lia.
    rewrite (firstn_all2 (n := j)) in IH by lia. exact IH.
Qed.

(** Contexts chosen by successive calls [set(cx, range)] with
    [0 <= cx < range], after an [update], select different weight sets:
    the [j]'th is [cx] counted from the sum of the ranges before it, so
    it lies in the [j]'th range, the ranges following one another from 0;
    the sets rise strictly and [base] ends at the sum of the ranges. *)
Theorem Mixer_set_disjoint (l : list (Z * Z)) (y : Z) (f : Mixer.fields) :
  Forall (fun cr => 0 <= fst cr < snd cr) l ->
  let f' := Mixer_sets l (Mixer.update_f y f) in
  Mixer.ncxt f' = Z.of_nat (length l) /\
  Mixer.base f' = ranges l /\
  (forall j : nat, (j < length l)%nat ->
     Mixer.cxt f' (Z.of_nat j) = ranges (firstn j l) + fst (nth j l (0, 0)) /\
     ranges (firstn j l) <= Mixer.cxt f' (Z.of_nat j) < ranges (firstn (S j) l) /\
     ranges (firstn (S j) l) = ranges (firstn j l) + snd (nth j l (0, 0)) /\
     0 <= ranges (firstn j l) /\ ranges (firstn (S j) l) <= ranges l) /\
  (forall i j : nat, (i < j < length l)%nat ->
     Mixer.cxt f' (Z.of_nat i) < Mixer.cxt f' (Z.of_nat j)).
Proof.
  intros Hl. cbv zeta.
  destruct (sets_inv l (Mixer.update_f y f) eq_refl eq_refl Hl)
    as (H1 & H2 & _ & _ & _ & H6).
  assert (Hin : forall j : nat, (j < length l)%nat ->
            0 <= fst (nth j l (0, 0)) < snd (nth j l (0, 0))).
  { intros j Hj. rewrite Forall_forall in Hl. apply Hl, nth_In, Hj. }
  assert (H0 : forall j : nat, 0 <= ranges (firstn j l)).
  { intros j. pose proof (ranges_firstn_le l Hl 0 j ltac:(lia)) as H.
    cbn [firstn] in H. exact H. }
  split; [exact H1|]. split; [exact H2|]. split.
  - intros j Hj. pose proof (Hin j Hj). pose proof (ranges_firstn_S l j Hj) as HS.
    rewrite (H6 j Hj). split; [reflexivity|]. split; [lia|]. split; [exact HS|].
    split; [apply H0|].
    rewrite <- (firstn_all l) at 2. apply ranges_firstn_le; [exact Hl | lia].
  - intros i j Hij. rewrite (H6 i), (H6 j) by lia.
    pose proof (Hin i ltac:(lia)). pose proof (Hin j ltac:(lia)).
    pose proof (ranges_firstn_S l i ltac:(lia)).
    pose proof (ranges_firstn_le l Hl (S i) j ltac:(lia)). lia.
Qed.

Lemma Mixer_set_disjoint_witness :
  Forall (fun cr => 0 <= fst cr < snd cr) [(3, 8); (200, 256); (17, 256)] /\
  Mixer.cxt (Mixer_sets [(3, 8); (200, 256); (17, 256)]
               (Mixer.update_f 1 (Mixer.ctor_f 800 3088 7 128))) 1
  = 8 + 200.
Proof.
  assert (H : Forall (fun cr => 0 <= fst cr < snd cr) [(3, 8); (200, 256); (17, 256)])
    by (repeat constructor; cbn; lia).
  split; [exact H|].
  exact (proj1 (proj1 (proj2 (proj2
    (Mixer_set_disjoint [(3, 8); (200, 256); (17, 256)] 1
       (Mixer.ctor_f 800 3088 7 128) H))) 1%nat ltac:(cbn; lia))).
Defined.

(** ** Mixer: the padding of the inputs *)

Lemma pad_spec (fuel : nat) : forall f,
  (- Mixer.nx f) mod 8 <= Z.of_nat fuel ->
  let f' := Mixer.pad fuel f in
  Mixer.nx f' = Mixer.nx f + (- Mixer.nx f) mod 8 /\
  (forall k, Mixer.tx f' k =
             if (Mixer.nx f <=? k) && (k <? Mixer.nx f') then 0 else Mixer.tx f k) /\
  Mixer.wx f' = Mixer.wx f /\ Mixer.cxt f' = Mixer.cxt f /\
  Mixer.ncxt f' = Mixer.ncxt f /\ Mixer.pr f' = Mixer.pr f /\
  Mixer.N f' = Mixer.N f.
Proof.
  induction fuel as [|fuel IH]; intros f Hd; cbv zeta.
  - cbn [Mixer.pad].
    pose proof (Z.mod_pos_bound (- Mixer.nx f) 8 ltac:(lia)).
    replace ((- Mixer.nx f) mod 8) with 0 in * by lia.
    rewrite Z.add_0_r. repeat split; try reflexivity.
    intros k. replace ((Mixer.nx f <=? k) && (k <? Mixer.nx f)) with false; [reflexivity|].
    symmetry. apply andb_false_iff.
    destruct (Z_le_gt_dec (Mixer.nx f) k); [right; apply Z.ltb_ge; lia | left; apply Z.leb_gt; lia].
  - cbn [Mixer.pad]. rewrite land_7.
    pose proof (Z.mod_pos_bound (Mixer.nx f) 8 ltac:(lia)) as Hm.
    pose proof (Z.mod_pos_bound (- Mixer.nx f) 8 ltac:(lia)) as Hm'.
    pose proof (Z.div_mod (Mixer.nx f) 8 ltac:(lia)) as Hdm.
    destruct (Mixer.nx f mod 8 =? 0) eqn:E.
    + apply Z.eqb_eq in E.
      assert (Hz : (- Mixer.nx f) mod 8 = 0).
      { replace (- Mixer.nx f) with (0 + (- (Mixer.nx f / 8)) * 8) by lia.
        rewrite Z.mod_add by lia. reflexivity. }
      rewrite Hz, Z.add_0_r. repeat split; try reflexivity.
      intros k. replace ((Mixer.nx f <=? k) && (k <? Mixer.nx f)) with false; [reflexivity|].
      symmetry. apply andb_false_iff.
      destruct (Z_le_gt_dec (Mixer.nx f) k); [right; apply Z.ltb_ge; lia | left; apply Z.leb_gt; lia].
    + apply Z.eqb_neq in E.
      assert (Hz : (- Mixer.nx f) mod 8 = 8 - Mixer.nx f mod 8).
      { replace (- Mixer.nx f) with (8 - Mixer.nx f mod 8 + (- (Mixer.nx f / 8) - 1) * 8) by lia.
        rewrite Z.mod_add by lia. apply Z.mod_small. lia. }
      assert (Hz1 : (- (Mixer.nx f + 1)) mod 8 = 8 - Mixer.nx f mod 8 - 1).
      { replace (- (Mixer.nx f + 1))
          with (8 - Mixer.nx f mod 8 - 1 + (- (Mixer.nx f / 8) - 1) * 8) by lia.
        rewrite Z.mod_add by lia. apply Z.mod_small. lia. }
      specialize (IH (Mixer.add_f 0 f)). cbn [Mixer.add_f Mixer.nx] in IH.
      rewrite Hz1 in IH. specialize (IH ltac:(lia)). cbv zeta in IH.
      destruct IH as (H1 & H2 & H3 & H4 & H5 & H6 & H7).
      cbn [Mixer.wx Mixer.cxt Mixer.ncxt Mixer.pr Mixer.N Mixer.tx] in *.
      rewrite Hz. split; [lia|]. split; [|repeat split; assumption].
      intros k. rewrite H2, H1. cbn [Mixer.add_f Mixer.tx Mixer.nx].
      change (short 0) with 0. unfold Arr.set.
      repeat match goal with
             | |- context [?a <=? ?c] => destruct (Z.leb_spec a c)
             | |- context [?a <? ?c] => destruct (Z.ltb_spec a c)
             | |- context [?a =? ?c] => destruct (Z.eqb_spec a c)
             end; cbn [andb]; try reflexivity; lia.
Qed.

(** [p] first pads the inputs with zeros to a multiple of 8, as
    [dot_product] and [train] read them in eights: whatever the number of
    inputs, fewer than 8 are added, they are 0, and the inputs given
    stay. *)
Theorem Mixer_pad_inputs (f : Mixer.fields) :
  let f' := Mixer.pad 8 f in
  Z.land (Mixer.nx f') 7 = 0 /\
  Mixer.nx f <= Mixer.nx f' < Mixer.nx f + 8 /\
  (forall k, Mixer.nx f <= k < Mixer.nx f' -> Mixer.tx f' k = 0) /\
  (forall k, k < Mixer.nx f \/ Mixer.nx f' <= k -> Mixer.tx f' k = Mixer.tx f k) /\
  Z.land (Mixer.nx f' + 7) (-8) = Mixer.nx f'.
Proof.
  cbv zeta.
  pose proof (Z.mod_pos_bound (- Mixer.nx f) 8 ltac:(lia)) as Hm.
  destruct (pad_spec 8 f ltac:(lia)) as (H1 & H2 & _).
  assert (H8 : Mixer.nx (Mixer.pad 8 f) mod 8 = 0).
  { rewrite H1.
    pose proof (Z.div_mod (- Mixer.nx f) 8 ltac:(lia)) as Hd.
    replace (Mixer.nx f + (- Mixer.nx f) mod 8)
      with (0 + (- ((- Mixer.nx f) / 8)) * 8) by lia.
    rewrite Z.mod_add by lia. reflexivity. }
  split; [rewrite land_7; exact H8|].
  split; [lia|]. split; [|split].
  - intros k Hk. rewrite H2.
    replace ((Mixer.nx f <=? k) && (k <? Mixer.nx (Mixer.pad 8 f))) with true; [reflexivity|].
    symmetry. apply andb_true_intro. split; [apply Z.leb_le | apply Z.ltb_lt]; lia.
  - intros k Hk. rewrite H2.
    replace ((Mixer.nx f <=? k) && (k <? Mixer.nx (Mixer.pad 8 f))) with false; [reflexivity|].
    symmetry. apply andb_false_iff.
    destruct Hk; [left; apply Z.leb_gt | right; apply Z.ltb_ge]; lia.
  - change (-8) with (Z.lnot 7). rewrite <- Z.ldiff_land.
    change 7 with (Z.ones 3) at 2. rewrite Z.ldiff_ones_r by lia.
    rewrite Z.shiftr_div_pow2, Z.shiftl_mul_pow2 by lia. change (2 ^ 3) with 8.
    pose proof (Z.div_mod (Mixer.nx (Mixer.pad 8 f)) 8 ltac:(lia)) as Hd.
    replace (Mixer.nx (Mixer.pad 8 f) + 7)
      with (7 + (Mixer.nx (Mixer.pad 8 f) / 8) * 8) by lia.
    rewrite Z.div_add by lia. change (7 / 8) with 0. lia.
Qed.

(** ** BH: the lookup *)

(** the search: it stops at the first element that is free or holds the
    checksum, which then holds the checksum; it writes nothing else *)
Lemma search_spec (fuel : nat) : forall (j i ck : Z) (h : BH.state),
  let j' := fst (BH.search fuel j i ck h) in
  let h' := snd (BH.search fuel j i ck h) in
  BH.B h' = BH.B h /\ BH.n h' = BH.n h /\ BH.t h' = BH.t h /\
  j <= j' <= j + Z.of_nat fuel /\
  (j' < j + Z.of_nat fuel -> BH.chk h' (i + j') = ck /\ BH_match h ck (i + j')) /\
  (forall e, j <= e < j' -> BH_other h ck (i + e)) /\
  (forall e, e <> i + j' -> BH.chk h' e = BH.chk h e) /\
  (j' = j + Z.of_nat fuel -> forall e, BH.chk h' e = BH.chk h e).
Proof.
  induction fuel as [|fuel IH]; intros j i ck h; cbv zeta.
  - cbn [BH.search fst snd].
    split; [reflexivity|]. split; [reflexivity|]. split; [reflexivity|].
    split; [lia|]. split; [intros H; lia|]. split; [intros e He; lia|].
    split; intros; reflexivity.
  - cbn [BH.search].
    destruct (BH.t h ((i + j) * BH.B h + 2) =? 0) eqn:Ez.
    + (* a free element adopts the checksum and ends the search *)
      apply Z.eqb_eq in Ez. cbn [BH.chk]. rewrite set_eq, Z.eqb_refl.
      cbn [fst snd BH.B BH.n BH.t BH.chk].
      split; [reflexivity|]. split; [reflexivity|]. split; [reflexivity|].
      split; [lia|]. split; [intros _; split; [apply set_eq | left; exact Ez]|].
      split; [intros e He; lia|].
      split; [intros e He; apply set_neq; exact He|]. intros Hj. lia.
    + apply Z.eqb_neq in Ez.
      destruct (BH.chk h (i + j) =? ck) eqn:Ec.
      * apply Z.eqb_eq in Ec. cbn [fst snd].
        split; [reflexivity|]. split; [reflexivity|]. split; [reflexivity|].
        split; [lia|]. split; [intros _; split; [exact Ec | right; exact Ec]|].
        split; [intros e He; lia|].
        split; [intros e He; reflexivity|]. intros Hj. lia.
      * apply Z.eqb_neq in Ec.
        specialize (IH (j + 1) i ck h). cbv zeta in IH.
        destruct IH as (H1 & H2 & H3 & H4 & H5 & H6 & H7 & H8).
        split; [exact H1|]. split; [exact H2|]. split; [exact H3|].
        split; [lia|]. split; [intros Hlt; apply H5; lia|].
        split.
        -- intros e He. destruct (Z.eq_dec e j) as [-> | Hne].
           ++ split; assumption.
           ++ apply H6. lia.
        -- split; [exact H7|]. intros Hj. apply H8. lia.
Qed.

(** the element returned, and what the lookup leaves alone *)
Lemma index_front (key : Z) (h : BH.state) :
  0 < BH.B h ->
  let i := BH_bucket key h in
  let p := fst (BH.index key h) in
  let h' := snd (BH.index key h) in
  p = i * BH.B h + 1 /\
  BH.chk h' i = BH_check key /\
  BH.B h' = BH.B h /\ BH.n h' = BH.n h /\
  (forall a, a < i * BH.B h \/ (i + 8) * BH.B h <= a -> BH.t h' a = BH.t h a) /\
  (forall e, e < i \/ i + 8 <= e -> BH.chk h' e = BH.chk h e).
Proof.
  intros HB. cbv zeta. unfold BH.index.
  fold (BH_check key). fold (BH_bucket key h).
  set (ck := BH_check key). set (i := BH_bucket key h).
  pose proof (search_spec 8 0 i ck h) as Hs. cbv zeta in Hs.
  destruct (BH.search 8 0 i ck h) as [j h1]. cbn [fst snd] in Hs.
  destruct Hs as (H1 & H2 & H3 & H4 & H5 & H6 & H7 & H8).
  destruct (j =? 0) eqn:E0.
  - apply Z.eqb_eq in E0. subst j. cbn [fst snd].
    destruct (H5 ltac:(lia)) as [Hck _]. rewrite Z.add_0_r in Hck.
    rewrite H1, H2, H3. repeat split; try reflexivity; try assumption.
    intros e He. apply H7. lia.
  - apply Z.eqb_neq in E0. unfold BH.M.
    destruct (j =? 8) eqn:E8.
    + apply Z.eqb_eq in E8. subst j.
      destruct (BH.t h1 ((i + (8 - 1) - 1) * BH.B h1 + 2)
                <? BH.t h1 ((i + (8 - 1)) * BH.B h1 + 2));
        cbn [fst snd BH.B BH.n BH.t BH.chk]; rewrite ?H1, ?H2, ?H3;
        (split; [reflexivity|]; split; [apply set_eq|];
         split; [reflexivity|]; split; [reflexivity|]; split;
         [ intros a Ha;
           replace ((i * BH.B h <=? a) && (a <? (i + 1) * BH.B h)) with false
             by (symmetry; apply andb_false_iff;
                 destruct Ha; [left; apply Z.leb_gt; lia | right; apply Z.ltb_ge; nia]);
           match goal with
           | |- (if ?c then _ else _) = _ =>
               replace c with false
                 by (symmetry; apply andb_false_iff;
                     destruct Ha; [left; apply Z.leb_gt; nia | right; apply Z.ltb_ge; nia])
           end; reflexivity
         | intros e He; rewrite set_neq by lia;
           match goal with
           | |- (if ?c then _ else _) = _ =>
               replace c with false
                 by (symmetry; apply andb_false_iff;
                     destruct He; [left; apply Z.leb_gt; lia | right; apply Z.ltb_ge; lia])
           end; apply H8; lia ]).
    + apply Z.eqb_neq in E8.
      cbn [fst snd BH.B BH.n BH.t BH.chk]. rewrite ?H1, ?H2, ?H3.
      split; [reflexivity|]. split; [rewrite set_eq; apply H5; lia|].
      split; [reflexivity|]. split; [reflexivity|]. split.
      * intros a Ha.
        replace ((i * BH.B h <=? a) && (a <? (i + 1) * BH.B h)) with false
          by (symmetry; apply andb_false_iff;
              destruct Ha; [left; apply Z.leb_gt; lia | right; apply Z.ltb_ge; nia]).
        replace (((i + 1) * BH.B h <=? a) && (a <? (i + 1 + j) * BH.B h)) with false
          by (symmetry; apply andb_false_iff;
              destruct Ha; [left; apply Z.leb_gt; nia | right; apply Z.ltb_ge; nia]).
        reflexivity.
      * intros e He. rewrite set_neq by lia.
        replace ((i + 1 <=? e) && (e <? i + 1 + j)) with false
          by (symmetry; apply andb_false_iff;
              destruct He; [left; apply Z.leb_gt; lia | right; apply Z.ltb_ge; lia]).
        apply H7. lia.
Qed.

(** [operator[]] returns the first element of the bucket of the key, with
    the checksum of the key on it, and writes within the 8 elements of the
    bucket only. *)
Theorem BH_index_front (key : Z) (h : BH.state) :
  0 < BH.B h ->
  let i := BH_bucket key h in
  let p := fst (BH.index key h) in
  let h' := snd (BH.index key h) in
  p = i * BH.B h + 1 /\
  BH.chk h' i = BH_check key /\
  BH.B h' = BH.B h /\ BH.n h' = BH.n h /\
  (forall a, a < i * BH.B h \/ (i + 8) * BH.B h <= a -> BH.t h' a = BH.t h a) /\
  (forall e, e < i \/ i + 8 <= e -> BH.chk h' e = BH.chk h e).
Proof. exact (index_front key h). Qed.

Lemma BH_index_front_witness :
  0 < BH.B (BH.ctor 4 1024) /\
  fst (BH.index 12345 (BH.ctor 4 1024))
  = BH_bucket 12345 (BH.ctor 4 1024) * BH.B (BH.ctor 4 1024) + 1.
Proof.
  split; [cbn; lia|].
  exact (proj1 (BH_index_front 12345 (BH.ctor 4 1024) ltac:(cbn; lia))).
Defined.

Lemma other_not_match (h : BH.state) (ck e : Z) : BH_other h ck e -> BH_match h ck e -> False.
Proof. intros [H1 H2] [H | H]; contradiction. Qed.

(** where the search stops *)
Lemma search_finds (i ck j : Z) (h : BH.state) :
  0 <= j <= 8 ->
  (forall e, 0 <= e < j -> BH_other h ck (i + e)) ->
  (j < 8 -> BH_match h ck (i + j)) ->
  fst (BH.search 8 0 i ck h) = j.
Proof.
  intros Hj Ho Hm.
  pose proof (search_spec 8 0 i ck h) as Hs. cbv zeta in Hs.
  destruct Hs as (_ & _ & _ & H4 & H5 & H6 & _).
  set (j' := fst (BH.search 8 0 i ck h)) in *.
  destruct (Z.lt_trichotomy j' j) as [Hlt | [Heq | Hgt]]; [|exact Heq|].
  - exfalso. destruct (H5 ltac:(lia)) as [_ Hmatch].
    exact (other_not_match _ _ _ (Ho j' ltac:(lia)) Hmatch).
  - exfalso. exact (other_not_match _ _ _ (H6 j ltac:(lia)) (Hm ltac:(lia))).
Qed.

(** A hit moves the element to the front: when the checksum of the key
    is on the [j]'th element of its bucket (or that element is free) and
    the elements before it are in use under other checksums, the element
    returned holds the bytes of that element, the elements before it have
    each moved one place down, and the elements after it are as they
    were ([k] runs over the bytes after the checksum). *)
Theorem BH_index_hit (key : Z) (h : BH.state) (j : Z) :
  0 < BH.B h -> 0 <= j < 8 ->
  let i := BH_bucket key h in
  (forall e, 0 <= e < j -> BH_other h (BH_check key) (i + e)) ->
  BH_match h (BH_check key) (i + j) ->
  let h' := snd (BH.index key h) in
  (forall k, 2 <= k < BH.B h ->
     BH.t h' (i * BH.B h + k) = BH.t h ((i + j) * BH.B h + k)) /\
  (forall e k, 0 <= e < j -> 2 <= k < BH.B h ->
     BH.t h' ((i + 1 + e) * BH.B h + k) = BH.t h ((i + e) * BH.B h + k) /\
     BH.chk h' (i + 1 + e) = BH.chk h (i + e)) /\
  (forall e k, j < e -> 2 <= k < BH.B h ->
     BH.t h' ((i + e) * BH.B h + k) = BH.t h ((i + e) * BH.B h + k) /\
     BH.chk h' (i + e) = BH.chk h (i + e)).
Proof.
  intros HB Hj. cbv zeta. intros Ho Hm.
  pose proof (search_finds (BH_bucket key h) (BH_check key) j h ltac:(lia) Ho
                (fun _ => Hm)) as Hf.
  unfold BH.index. fold (BH_check key). fold (BH_bucket key h).
  set (ck := BH_check key) in *. set (i := BH_bucket key h) in *.
  pose proof (search_spec 8 0 i ck h) as Hs. cbv zeta in Hs.
  destruct (BH.search 8 0 i ck h) as [j' h1]. cbn [fst snd] in Hs, Hf. subst j'.
  destruct Hs as (H1 & H2 & H3 & H4 & H5 & H6 & H7 & H8).
  destruct (j =? 0) eqn:E0.
  - apply Z.eqb_eq in E0. subst j. cbn [snd]. rewrite H3.
    split; [intros k Hk; f_equal; lia|].
    split; [intros e k He; lia|].
    intros e k He Hk. split; [reflexivity|]. apply H7. lia.
  - apply Z.eqb_neq in E0. unfold BH.M.
    replace (j =? 8) with false by (symmetry; apply Z.eqb_neq; lia).
    cbn [snd BH.t BH.chk]. rewrite ?H1, ?H3.
    split; [|split].
    + intros k Hk.
      replace ((i * BH.B h <=? i * BH.B h + k) && (i * BH.B h + k <? (i + 1) * BH.B h))
        with true
        by (symmetry; apply andb_true_intro; split; [apply Z.leb_le | apply Z.ltb_lt]; nia).
      f_equal. lia.
    + intros e k He Hk.
      replace ((i * BH.B h <=? (i + 1 + e) * BH.B h + k)
               && ((i + 1 + e) * BH.B h + k <? (i + 1) * BH.B h)) with false
        by (symmetry; apply andb_false_iff; right; apply Z.ltb_ge; nia).
      replace (((i + 1) * BH.B h <=? (i + 1 + e) * BH.B h + k)
               && ((i + 1 + e) * BH.B h + k <? (i + 1 + j) * BH.B h)) with true
        by (symmetry; apply andb_true_intro; split; [apply Z.leb_le | apply Z.ltb_lt]; nia).
      split; [f_equal; lia|].
      rewrite set_neq by lia.
      replace ((i + 1 <=? i + 1 + e) && (i + 1 + e <? i + 1 + j)) with true
        by (symmetry; apply andb_true_intro; split; [apply Z.leb_le | apply Z.ltb_lt]; lia).
      replace (i + 1 + e - 1) with (i + e) by lia. apply H7. lia.
    + intros e k He Hk.
      replace ((i * BH.B h <=? (i + e) * BH.B h + k)
               && ((i + e) * BH.B h + k <? (i + 1) * BH.B h)) with false
        by (symmetry; apply andb_false_iff; right; apply Z.ltb_ge; nia).
      replace (((i + 1) * BH.B h <=? (i + e) * BH.B h + k)
               && ((i + e) * BH.B h + k <? (i + 1 + j) * BH.B h)) with false
        by (symmetry; apply andb_false_iff; right; apply Z.ltb_ge; nia).
      split; [reflexivity|].
      rewrite set_neq by lia.
      replace ((i + 1 <=? i + e) && (i + e <? i + 1 + j)) with false
        by (symmetry; apply andb_false_iff; right; apply Z.ltb_ge; lia).
      apply H7. lia.
Qed.

(** the key 12345 has its checksum on the second element of its bucket,
    456: the lookup brings the bytes of the element 457 to the front and
    those of the element 456, with its checksum, to the second place *)
Lemma BH_index_hit_witness :
  (0 < BH.B BH_second /\ 0 <= 1 < 8 /\
   (forall e, 0 <= e < 1 ->
      BH_other BH_second (BH_check 12345) (BH_bucket 12345 BH_second + e)) /\
   BH_match BH_second (BH_check 12345) (BH_bucket 12345 BH_second + 1)) /\
  BH_bucket 12345 BH_second = 456 /\
  BH.t BH_second (457 * 4 + 3) = 75 /\ BH.t BH_second (456 * 4 + 3) = 71 /\
  BH.t (snd (BH.index 12345 BH_second)) (456 * 4 + 3) = 75 /\
  BH.t (snd (BH.index 12345 BH_second)) (457 * 4 + 3) = 71 /\
  BH.chk (snd (BH.index 12345 BH_second)) 457 = 0.
Proof.
  assert (HB : 0 < BH.B BH_second) by (cbn; lia).
  assert (Ho : forall e, 0 <= e < 1 ->
             BH_other BH_second (BH_check 12345) (BH_bucket 12345 BH_second + e)).
  { intros e He. assert (e = 0) by lia. subst e. split; vm_compute; discriminate. }
  assert (Hm : BH_match BH_second (BH_check 12345) (BH_bucket 12345 BH_second + 1))
    by (right; reflexivity).
  split; [split; [exact HB | split; [lia | split; [exact Ho | exact Hm]]]|].
  split; [reflexivity|]. split; [reflexivity|]. split; [reflexivity|].
  destruct (BH_index_hit 12345 BH_second 1 HB ltac:(lia) Ho Hm) as (H1 & H2 & _).
  split; [exact (H1 3 ltac:(cbn; lia))|].
  split; [exact (proj1 (H2 0 3 ltac:(lia) ltac:(cbn; lia)))|].
  exact (proj2 (H2 0 3 ltac:(lia) ltac:(cbn; lia))).
Defined.

(** A miss makes room at the front: when the 8 elements of the bucket
    are all in use under other checksums, the element returned is all
    zeros under the checksum of the key; of the last two elements the one
    whose first byte, the priority, is lower is dropped (the last one on
    a tie), and the elements before it have each moved one place down. *)
Theorem BH_index_miss (key : Z) (h : BH.state) :
  0 < BH.B h ->
  let i := BH_bucket key h in
  (forall e, 0 <= e < 8 -> BH_other h (BH_check key) (i + e)) ->
  let h' := snd (BH.index key h) in
  let v := if BH.t h ((i + 6) * BH.B h + 2) <? BH.t h ((i + 7) * BH.B h + 2)
           then 6 else 7 in
  (forall k, 2 <= k < BH.B h -> BH.t h' (i * BH.B h + k) = 0) /\
  BH.chk h' i = BH_check key /\
  (forall e k, 0 <= e < v -> 2 <= k < BH.B h ->
     BH.t h' ((i + 1 + e) * BH.B h + k) = BH.t h ((i + e) * BH.B h + k) /\
     BH.chk h' (i + 1 + e) = BH.chk h (i + e)) /\
  (forall e k, v < e -> 2 <= k < BH.B h ->
     BH.t h' ((i + e) * BH.B h + k) = BH.t h ((i + e) * BH.B h + k) /\
     BH.chk h' (i + e) = BH.chk h (i + e)).
Proof.
  intros HB. cbv zeta. intros Ho.
  pose proof (search_finds (BH_bucket key h) (BH_check key) 8 h ltac:(lia) Ho
                ltac:(lia)) as Hf.
  unfold BH.index. fold (BH_check key). fold (BH_bucket key h).
  set (ck := BH_check key) in *. set (i := BH_bucket key h) in *.
  pose proof (search_spec 8 0 i ck h) as Hs. cbv zeta in Hs.
  destruct (BH.search 8 0 i ck h) as [j' h1]. cbn [fst snd] in Hs, Hf. subst j'.
  destruct Hs as (H1 & H2 & H3 & H4 & H5 & H6 & H7 & H8).
  specialize (H8 eq_refl).
  change (8 =? 0) with false. unfold BH.M. change (8 =? 8) with true.
  cbv iota. rewrite H1, H3.
  replace (i + (8 - 1) - 1) with (i + 6) by lia.
  replace (i + (8 - 1)) with (i + 7) by lia.
  set (v := if BH.t h ((i + 6) * BH.B h + 2) <? BH.t h ((i + 7) * BH.B h + 2)
            then 8 - 1 - 1 else 8 - 1).
  assert (Hv : v = if BH.t h ((i + 6) * BH.B h + 2) <? BH.t h ((i + 7) * BH.B h + 2)
                   then 6 else 7)
    by (unfold v; destruct (_ <? _); reflexivity).
  rewrite <- Hv.
  assert (Hv67 : v = 6 \/ v = 7) by (rewrite Hv; destruct (_ <? _); lia).
  clearbody v.
  cbn [snd BH.t BH.chk].
  split; [|split; [apply set_eq|split]].
  - intros k Hk.
    replace ((i * BH.B h <=? i * BH.B h + k) && (i * BH.B h + k <? (i + 1) * BH.B h))
      with true
      by (symmetry; apply andb_true_intro; split; [apply Z.leb_le | apply Z.ltb_lt]; nia).
    reflexivity.
  - intros e k He Hk.
    replace ((i * BH.B h <=? (i + 1 + e) * BH.B h + k)
             && ((i + 1 + e) * BH.B h + k <? (i + 1) * BH.B h)) with false
      by (symmetry; apply andb_false_iff; right; apply Z.ltb_ge; nia).
    replace (((i + 1) * BH.B h <=? (i + 1 + e) * BH.B h + k)
             && ((i + 1 + e) * BH.B h + k <? (i + 1 + v) * BH.B h)) with true
      by (symmetry; apply andb_true_intro; split; [apply Z.leb_le | apply Z.ltb_lt]; nia).
    split; [f_equal; lia|].
    rewrite set_neq by lia.
    replace ((i + 1 <=? i + 1 + e) && (i + 1 + e <? i + 1 + v)) with true
      by (symmetry; apply andb_true_intro; split; [apply Z.leb_le | apply Z.ltb_lt]; lia).
    replace (i + 1 + e - 1) with (i + e) by lia. apply H8.
  - intros e k He Hk.
    replace ((i * BH.B h <=? (i + e) * BH.B h + k)
             && ((i + e) * BH.B h + k <? (i + 1) * BH.B h)) with false
      by (symmetry; apply andb_false_iff; right; apply Z.ltb_ge; nia).
    replace (((i + 1) * BH.B h <=? (i + e) * BH.B h + k)
             && ((i + e) * BH.B h + k <? (i + 1 + v) * BH.B h)) with false
      by (symmetry; apply andb_false_iff; right; apply Z.ltb_ge; nia).
    split; [reflexivity|].
    rewrite set_neq by lia.
    replace ((i + 1 <=? i + e) && (i + e <? i + 1 + v)) with false
      by (symmetry; apply andb_false_iff; right; apply Z.ltb_ge; lia).
    apply H8.
Qed.

Lemma BH_index_miss_witness :
  (0 < BH.B BH_full /\
   forall e, 0 <= e < 8 -> BH_other BH_full (BH_check 12345) (BH_bucket 12345 BH_full + e)) /\
  BH.chk (snd (BH.index 12345 BH_full)) (BH_bucket 12345 BH_full) = BH_check 12345.
Proof.
  assert (Ho : forall e, 0 <= e < 8 ->
                 BH_other BH_full (BH_check 12345) (BH_bucket 12345 BH_full + e))
    by (intros e He; split; cbn; discriminate).
  split; [split; [cbn; lia | exact Ho]|].
  exact (proj1 (proj2 (BH_index_miss 12345 BH_full ltac:(cbn; lia) Ho))).
Defined.

(** The element of a key stays where a lookup put it: a second lookup of
    the key, with nothing in between, returns the same element and leaves
    every byte and every checksum as the first left them. *)
Theorem BH_index_again (key : Z) (h : BH.state) :
  0 < BH.B h ->
  let h1 := snd (BH.index key h) in
  fst (BH.index key h1) = fst (BH.index key h) /\
  (forall a, BH.t (snd (BH.index key h1)) a = BH.t h1 a) /\
  (forall e, BH.chk (snd (BH.index key h1)) e = BH.chk h1 e).
Proof.
  intros HB. cbv zeta.
  destruct (index_front key h HB) as (Hp & Hck & HB1 & Hn1 & _ & _).
  set (h1 := snd (BH.index key h)) in *.
  assert (Hi : BH_bucket key h1 = BH_bucket key h) by (unfold BH_bucket; now rewrite Hn1).
  rewrite Hp.
  assert (Hm : BH_match h1 (BH_check key) (BH_bucket key h1 + 0)).
  { right. rewrite Z.add_0_r, Hi. exact Hck. }
  pose proof (search_finds (BH_bucket key h1) (BH_check key) 0 h1 ltac:(lia)
                ltac:(intros e He; lia) (fun _ => Hm)) as Hf.
  unfold BH.index. fold (BH_check key). fold (BH_bucket key h1).
  pose proof (search_spec 8 0 (BH_bucket key h1) (BH_check key) h1) as Hs.
  cbv zeta in Hs.
  destruct (BH.search 8 0 (BH_bucket key h1) (BH_check key) h1) as [j' h2].
  cbn [fst snd] in Hs, Hf. subst j'.
  destruct Hs as (H1 & H2 & H3 & H4 & H5 & H6 & H7 & H8).
  change (0 =? 0) with true. cbv iota. cbn [fst snd].
  rewrite H1, HB1, Hi. split; [reflexivity|]. split.
  - intros a. now rewrite H3.
  - intros e. destruct (Z.eq_dec e (BH_bucket key h1 + 0)) as [-> | Hne].
    + rewrite (proj1 (H5 ltac:(lia))). rewrite Z.add_0_r, Hi. symmetry. exact Hck.
    + apply H7. exact Hne.
Qed.

Lemma BH_index_again_witness :
  0 < BH.B (BH.ctor 4 1024) /\
  fst (BH.index 777 (snd (BH.index 777 (BH.ctor 4 1024))))
  = fst (BH.index 777 (BH.ctor 4 1024)).
Proof.
  split; [cbn; lia|].
  exact (proj1 (BH_index_again 777 (BH.ctor 4 1024) ltac:(cbn; lia))).
Defined.

(** ** ContextMap: the lookup in an element *)

Lemma E_scan_O (e ch i b bi : Z) (t : array) :
  ContextMap.E_scan 0 e ch i b bi t
  = (ContextMap.bh_at e bi,
     ContextMap.clear7 (ContextMap.bh_at e bi)
       (Arr.set (Arr.set t (ContextMap.last_at e) (u8 (Z.lor 240 bi)))
                (ContextMap.chk_at e bi) ch)).
Proof. reflexivity. Qed.

Lemma E_scan_S (fuel : nat) (e ch i b bi : Z) (t : array) :
  ContextMap.E_scan (S fuel) e ch i b bi t
  = if t (ContextMap.chk_at e i) =? ch
    then (ContextMap.bh_at e i,
          Arr.set t (ContextMap.last_at e)
            (u8 (Z.lor (Z.shiftl (t (ContextMap.last_at e)) 4) i)))
    else if negb (Z.land (t (ContextMap.last_at e)) 15 =? i)
            && negb (Z.shiftr (t (ContextMap.last_at e)) 4 =? i)
            && (t (ContextMap.bh_at e i) <? b)
         then ContextMap.E_scan fuel e ch (i + 1) (t (ContextMap.bh_at e i)) i t
         else ContextMap.E_scan fuel e ch (i + 1) b bi t.
Proof. reflexivity. Qed.

(** the loop of [E::get]: it stops at the first slot with the checksum,
    and otherwise takes the slot of lowest priority *)
Lemma E_scan_spec (fuel : nat) : forall (e ch i b bi : Z) (t : array),
  0 <= i -> i + Z.of_nat fuel = 7 ->
  E_lowest t e i b bi ->
  (exists k, i <= k < 7 /\ t (ContextMap.chk_at e k) = ch /\
     (forall k', i <= k' < k -> t (ContextMap.chk_at e k') <> ch) /\
     ContextMap.E_scan fuel e ch i b bi t
     = (ContextMap.bh_at e k,
        Arr.set t (ContextMap.last_at e)
          (u8 (Z.lor (Z.shiftl (t (ContextMap.last_at e)) 4) k)))) \/
  ((forall k, i <= k < 7 -> t (ContextMap.chk_at e k) <> ch) /\
   exists b' v, E_lowest t e 7 b' v /\
     ContextMap.E_scan fuel e ch i b bi t
     = (ContextMap.bh_at e v,
        ContextMap.clear7 (ContextMap.bh_at e v)
          (Arr.set (Arr.set t (ContextMap.last_at e) (u8 (Z.lor 240 v)))
                   (ContextMap.chk_at e v) ch))).
Proof.
  induction fuel as [|fuel IH]; intros e ch i b bi t Hi Hf Hinv.
  - right. split; [intros k Hk; lia|].
    exists b, bi. replace i with 7 in Hinv by lia. split; [exact Hinv|apply E_scan_O].
  - rewrite E_scan_S.
    destruct (Z.eqb_spec (t (ContextMap.chk_at e i)) ch) as [Heq | Hne].
    + left. exists i. split; [lia|]. split; [exact Heq|].
      split; [intros k' Hk'; lia | reflexivity].
    + assert (Hstep : forall b1 bi1, E_lowest t e (i + 1) b1 bi1 ->
                (exists k, i <= k < 7 /\ t (ContextMap.chk_at e k) = ch /\
                   (forall k', i <= k' < k -> t (ContextMap.chk_at e k') <> ch) /\
                   ContextMap.E_scan fuel e ch (i + 1) b1 bi1 t
                   = (ContextMap.bh_at e k,
                      Arr.set t (ContextMap.last_at e)
                        (u8 (Z.lor (Z.shiftl (t (ContextMap.last_at e)) 4) k)))) \/
                ((forall k, i <= k < 7 -> t (ContextMap.chk_at e k) <> ch) /\
                 exists b' v, E_lowest t e 7 b' v /\
                   ContextMap.E_scan fuel e ch (i + 1) b1 bi1 t
                   = (ContextMap.bh_at e v,
                      ContextMap.clear7 (ContextMap.bh_at e v)
                        (Arr.set (Arr.set t (ContextMap.last_at e) (u8 (Z.lor 240 v)))
                                 (ContextMap.chk_at e v) ch)))).
      { intros b1 bi1 Hinv1.
        destruct (IH e ch (i + 1) b1 bi1 t ltac:(lia) ltac:(lia) Hinv1)
          as [(k & Hk & Hck & Hfirst & Hr) | (Hnone & Hr)].
        - left. exists k. split; [lia|]. split; [exact Hck|]. split; [|exact Hr].
          intros k' Hk'. destruct (Z.eq_dec k' i) as [-> | Hki]; [exact Hne|].
          apply Hfirst. lia.
        - right. split; [|exact Hr].
          intros k Hk. destruct (Z.eq_dec k i) as [-> | Hki]; [exact Hne|].
          apply Hnone. lia. }
      destruct (Z.eqb_spec (Z.land (t (ContextMap.last_at e)) 15) i) as [Hl | Hl];
        cbn [negb andb].
      { apply Hstep. destruct Hinv as [(Hb & Hbi & Hall) | (Hbi & Hnr & Hpri & Hall)].
        - left. split; [exact Hb|]. split; [exact Hbi|].
          intros k Hk Hnk. destruct (Z.eq_dec k i) as [-> | Hki].
          + exfalso. apply Hnk. left. exact Hl.
          + apply Hall; [lia | exact Hnk].
        - right. split; [lia|]. split; [exact Hnr|]. split; [exact Hpri|].
          intros k Hk Hnk. destruct (Z.eq_dec k i) as [-> | Hki].
          + exfalso. apply Hnk. left. exact Hl.
          + apply Hall; [lia | exact Hnk]. }
      destruct (Z.eqb_spec (Z.shiftr (t (ContextMap.last_at e)) 4) i) as [Hh | Hh];
        cbn [negb andb].
      { apply Hstep. destruct Hinv as [(Hb & Hbi & Hall) | (Hbi & Hnr & Hpri & Hall)].
        - left. split; [exact Hb|]. split; [exact Hbi|].
          intros k Hk Hnk. destruct (Z.eq_dec k i) as [-> | Hki].
          + exfalso. apply Hnk. right. exact Hh.
          + apply Hall; [lia | exact Hnk].
        - right. split; [lia|]. split; [exact Hnr|]. split; [exact Hpri|].
          intros k Hk Hnk. destruct (Z.eq_dec k i) as [-> | Hki].
          + exfalso. apply Hnk. right. exact Hh.
          + apply Hall; [lia | exact Hnk]. }
      destruct (Z.ltb_spec (t (ContextMap.bh_at e i)) b) as [Hlt | Hge].
      { apply Hstep. right. split; [lia|].
        split; [intros [H | H]; contradiction|]. split; [reflexivity|].
        intros k Hk Hnk. destruct (Z.eq_dec k i) as [-> | Hki]; [lia|].
        destruct Hinv as [(Hb & Hbi & Hall) | (Hbi & Hnr & Hpri & Hall)].
        - specialize (Hall k ltac:(lia) Hnk). lia.
        - specialize (Hall k ltac:(lia) Hnk). lia. }
      apply Hstep. destruct Hinv as [(Hb & Hbi & Hall) | (Hbi & Hnr & Hpri & Hall)].
      * left. split; [exact Hb|]. split; [exact Hbi|].
        intros k Hk Hnk. destruct (Z.eq_dec k i) as [-> | Hki]; [lia|].
        apply Hall; [lia | exact Hnk].
      * right. split; [lia|]. split; [exact Hnr|]. split; [exact Hpri|].
        intros k Hk Hnk. destruct (Z.eq_dec k i) as [-> | Hki]; [lia|].
        apply Hall; [lia | exact Hnk].
Qed.

Lemma E_lowest_start (t : array) (e : Z) : E_lowest t e 0 65535 0.
Proof. left. split; [reflexivity|]. split; [reflexivity|]. intros k Hk. lia. Qed.

Lemma E_lowest_slot (t : array) (e b v : Z) : E_lowest t e 7 b v -> 0 <= v < 7.
Proof. intros [(_ & -> & _) | (H & _)]; lia. Qed.

Lemma land_15_range (x : Z) : 0 <= Z.land x 15 <= 15.
Proof.
  change 15 with (Z.ones 4) at 1 2. rewrite Z.land_ones by lia.
  pose proof (Z.mod_pos_bound x (2 ^ 4) ltac:(lia)). change (Z.ones 4) with 15.
  change (2 ^ 4) with 16 in *. lia.
Qed.

(** the low nibble of [last << 4 | k] *)
Lemma last_low (l k : Z) : 0 <= k < 16 -> Z.land (u8 (Z.lor (Z.shiftl l 4) k)) 15 = k.
Proof.
  intros Hk. unfold u8.
  change 256 with (2 ^ 8). rewrite <- Z.land_ones by lia.
  rewrite <- Z.land_assoc. change (Z.land (Z.ones 8) 15) with (Z.ones 4).
  rewrite Z.land_lor_distr_l.
  rewrite !Z.land_ones by lia. rewrite Z.shiftl_mul_pow2 by lia.
  rewrite Z.mod_mul by lia. rewrite Z.lor_0_l. apply Z.mod_small. change (2 ^ 4) with 16. lia.
Qed.

Lemma last_miss (v : Z) : 0 <= v < 7 -> u8 (Z.lor 240 v) = 240 + v.
Proof.
  intros Hv.
  assert (H : v = 0 \/ v = 1 \/ v = 2 \/ v = 3 \/ v = 4 \/ v = 5 \/ v = 6) by lia.
  destruct H as [-> | [-> | [-> | [-> | [-> | [-> | ->]]]]]]; reflexivity.
Qed.

Lemma clear7_out (a k : Z) (t : array) :
  k < a \/ a + 7 <= k -> ContextMap.clear7 a t k = t k.
Proof.
  intros H. unfold ContextMap.clear7.
  destruct (Z.leb_spec a k), (Z.ltb_spec k (a + 7)); cbn [andb]; try reflexivity; lia.
Qed.

Lemma clear7_in (a k : Z) (t : array) :
  a <= k < a + 7 -> ContextMap.clear7 a t k = 0.
Proof.
  intros H. unfold ContextMap.clear7.
  destruct (Z.leb_spec a k), (Z.ltb_spec k (a + 7)); cbn [andb]; try reflexivity; lia.
Qed.

(** the slot returned, and what the lookup leaves alone *)
Lemma E_get_spec (e ch : Z) (t : array) :
  Z.land (t (ContextMap.last_at e)) 15 <= 6 ->
  0 <= t (ContextMap.last_at e) <= 255 ->
  let p := fst (ContextMap.E_get e ch t) in
  let t' := snd (ContextMap.E_get e ch t) in
  exists i, 0 <= i < 7 /\ p = ContextMap.bh_at e i /\
    t' (ContextMap.chk_at e i) = ch /\
    Z.land (t' (ContextMap.last_at e)) 15 = i /\
    0 <= t' (ContextMap.last_at e) <= 255 /\
    (forall a, a < e * 64 \/ e * 64 + 64 <= a -> t' a = t a).
Proof.
  intros Hl Hb. cbv zeta. unfold ContextMap.E_get.
  pose proof (land_15_range (t (ContextMap.last_at e))) as Hr.
  destruct (Z.eqb_spec (t (ContextMap.chk_at e (Z.land (t (ContextMap.last_at e)) 15))) ch)
    as [Heq | Hne]; cbn [fst snd].
  - exists (Z.land (t (ContextMap.last_at e)) 15).
    split; [lia|]. split; [reflexivity|]. split; [exact Heq|].
    split; [reflexivity|]. split; [exact Hb|]. intros a Ha. reflexivity.
  - destruct (E_scan_spec 7 e ch 0 65535 0 t ltac:(lia) ltac:(lia) (E_lowest_start t e))
      as [(k & Hk & Hck & _ & Hres) | (_ & b' & v & Hinv & Hres)]; rewrite Hres; cbn [fst snd].
    + exists k. split; [lia|]. split; [reflexivity|].
      unfold ContextMap.chk_at, ContextMap.last_at in *.
      split; [rewrite set_neq by lia; exact Hck|].
      rewrite set_eq. split; [apply last_low; lia|]. split; [apply u8_range|].
      intros a Ha. apply set_neq. lia.
    + pose proof (E_lowest_slot _ _ _ _ Hinv) as Hv.
      exists v. split; [lia|]. split; [reflexivity|].
      unfold ContextMap.chk_at, ContextMap.last_at, ContextMap.bh_at in *.
      split; [rewrite clear7_out by lia; apply set_eq|].
      rewrite clear7_out by lia. rewrite set_neq by lia. rewrite set_eq.
      split; [change 240 with (Z.shiftl 15 4); apply last_low; lia|].
      split; [apply u8_range|].
      intros a Ha. rewrite clear7_out by lia. rewrite !set_neq by lia. reflexivity.
Qed.

(** [E::get] returns one of the 7 slots of the element, with the checksum
    asked for on it and its number in the low nibble of [last], and
    writes nothing outside the 64 bytes of the element. *)
Theorem E_get_slot (e ch : Z) (t : array) :
  Z.land (t (ContextMap.last_at e)) 15 <= 6 ->
  0 <= t (ContextMap.last_at e) <= 255 ->
  let p := fst (ContextMap.E_get e ch t) in
  let t' := snd (ContextMap.E_get e ch t) in
  exists i, 0 <= i < 7 /\ p = ContextMap.bh_at e i /\
    t' (ContextMap.chk_at e i) = ch /\
    Z.land (t' (ContextMap.last_at e)) 15 = i /\
    0 <= t' (ContextMap.last_at e) <= 255 /\
    (forall a, a < e * 64 \/ e * 64 + 64 <= a -> t' a = t a).
Proof. exact (E_get_spec e ch t). Qed.

Lemma E_get_slot_witness :
  (Z.land (zeros (ContextMap.last_at 3)) 15 <= 6 /\
   0 <= zeros (ContextMap.last_at 3) <= 255) /\
  exists i, 0 <= i < 7 /\
    fst (ContextMap.E_get 3 4660 zeros) = ContextMap.bh_at 3 i /\
    snd (ContextMap.E_get 3 4660 zeros) (ContextMap.chk_at 3 i) = 4660.
Proof.
  split; [unfold zeros; cbn; lia|].
  destruct (E_get_slot 3 4660 zeros ltac:(unfold zeros; cbn; lia) ltac:(unfold zeros; lia))
    as (i & Hi & Hp & Hc & _).
  exists i. split; [exact Hi|]. split; [exact Hp | exact Hc].
Defined.

(** A checksum that is in the element is found: [E::get] returns a slot
    that holds it and changes no byte but [last], so the bit histories
    kept under the checksum are as they were. *)
Theorem E_get_hit (e ch k : Z) (t : array) :
  Z.land (t (ContextMap.last_at e)) 15 <= 6 ->
  0 <= k < 7 -> t (ContextMap.chk_at e k) = ch ->
  let p := fst (ContextMap.E_get e ch t) in
  let t' := snd (ContextMap.E_get e ch t) in
  (exists i, 0 <= i < 7 /\ p = ContextMap.bh_at e i /\ t (ContextMap.chk_at e i) = ch) /\
  (forall a, a <> ContextMap.last_at e -> t' a = t a).
Proof.
  intros Hl Hk Hck. cbv zeta. unfold ContextMap.E_get.
  pose proof (land_15_range (t (ContextMap.last_at e))) as Hr.
  destruct (Z.eqb_spec (t (ContextMap.chk_at e (Z.land (t (ContextMap.last_at e)) 15))) ch)
    as [Heq | Hne]; cbn [fst snd].
  - split; [|intros a Ha; reflexivity].
    exists (Z.land (t (ContextMap.last_at e)) 15).
    split; [lia|]. split; [reflexivity | exact Heq].
  - destruct (E_scan_spec 7 e ch 0 65535 0 t ltac:(lia) ltac:(lia) (E_lowest_start t e))
      as [(j & Hj & Hcj & _ & Hres) | (Hnone & _)].
    + rewrite Hres; cbn [fst snd]. split.
      * exists j. split; [lia|]. split; [reflexivity | exact Hcj].
      * intros a Ha. apply set_neq. exact Ha.
    + exfalso. exact (Hnone k ltac:(lia) Hck).
Qed.

Lemma E_get_hit_witness :
  (Z.land (Arr.set zeros (ContextMap.chk_at 0 2) 99 (ContextMap.last_at 0)) 15 <= 6 /\
   0 <= 2 < 7 /\
   Arr.set zeros (ContextMap.chk_at 0 2) 99 (ContextMap.chk_at 0 2) = 99) /\
  snd (ContextMap.E_get 0 99 (Arr.set zeros (ContextMap.chk_at 0 2) 99)) 17
  = Arr.set zeros (ContextMap.chk_at 0 2) 99 17.
Proof.
  split; [unfold zeros; cbn; lia|].
  exact (proj2 (E_get_hit 0 99 2 (Arr.set zeros (ContextMap.chk_at 0 2) 99)
                  ltac:(cbn; lia) ltac:(lia) eq_refl) 17 ltac:(cbn; lia)).
Defined.

(** A checksum that is not in the element takes the place of another:
    the slot [E::get] returns is neither of the last 2 accessed, no other
    such slot has a lower priority (the first byte of its bit histories),
    its 7 bytes are cleared, and [last] names it with an empty second
    nibble; every other slot keeps its checksum and its bytes. *)
Theorem E_get_miss (e ch : Z) (t : array) :
  Z.land (t (ContextMap.last_at e)) 15 <= 6 ->
  (forall k, 0 <= k < 7 -> 0 <= t (ContextMap.bh_at e k) <= 255) ->
  (forall k, 0 <= k < 7 -> t (ContextMap.chk_at e k) <> ch) ->
  let p := fst (ContextMap.E_get e ch t) in
  let t' := snd (ContextMap.E_get e ch t) in
  exists v, 0 <= v < 7 /\ p = ContextMap.bh_at e v /\
    ~ E_recent t e v /\
    (forall k, 0 <= k < 7 -> ~ E_recent t e k ->
       t (ContextMap.bh_at e v) <= t (ContextMap.bh_at e k)) /\
    (forall j, 0 <= j < 7 -> t' (p + j) = 0) /\
    t' (ContextMap.chk_at e v) = ch /\
    t' (ContextMap.last_at e) = 240 + v /\
    (forall a, a <> ContextMap.last_at e -> a <> ContextMap.chk_at e v ->
       a < p \/ p + 7 <= a -> t' a = t a).
Proof.
  intros Hl Hbytes Hnone. cbv zeta. unfold ContextMap.E_get.
  pose proof (land_15_range (t (ContextMap.last_at e))) as Hr.
  destruct (Z.eqb_spec (t (ContextMap.chk_at e (Z.land (t (ContextMap.last_at e)) 15))) ch)
    as [Heq | Hne].
  { exfalso. exact (Hnone (Z.land (t (ContextMap.last_at e)) 15) ltac:(lia) Heq). }
  destruct (E_scan_spec 7 e ch 0 65535 0 t ltac:(lia) ltac:(lia) (E_lowest_start t e))
    as [(j & Hj & Hcj & _) | (_ & b' & v & Hinv & Hres)].
  { exfalso. exact (Hnone j ltac:(lia) Hcj). }
  rewrite Hres; cbn [fst snd].
  pose proof (E_lowest_slot _ _ _ _ Hinv) as Hv.
  assert (Hlow : ~ E_recent t e v /\
                 forall k, 0 <= k < 7 -> ~ E_recent t e k ->
                   t (ContextMap.bh_at e v) <= t (ContextMap.bh_at e k)).
  { destruct Hinv as [(Hb & Hbi & Hall) | (Hbi & Hnr & Hpri & Hall)].
    - exfalso.
      assert (H0 : E_recent t e 0).
      { destruct (Z.eq_dec (Z.land (t (ContextMap.last_at e)) 15) 0) as [H | H];
          [left; exact H|].
        destruct (Z.eq_dec (Z.shiftr (t (ContextMap.last_at e)) 4) 0) as [H' | H'];
          [right; exact H'|].
        exfalso. pose proof (Hbytes 0 ltac:(lia)).
        assert (65535 <= t (ContextMap.bh_at e 0))
          by (apply Hall; [lia | intros [? | ?]; contradiction]). lia. }
      assert (H1 : E_recent t e 1).
      { destruct (Z.eq_dec (Z.land (t (ContextMap.last_at e)) 15) 1) as [H | H];
          [left; exact H|].
        destruct (Z.eq_dec (Z.shiftr (t (ContextMap.last_at e)) 4) 1) as [H' | H'];
          [right; exact H'|].
        exfalso. pose proof (Hbytes 1 ltac:(lia)).
        assert (65535 <= t (ContextMap.bh_at e 1))
          by (apply Hall; [lia | intros [? | ?]; contradiction]). lia. }
      assert (H2 : E_recent t e 2).
      { destruct (Z.eq_dec (Z.land (t (ContextMap.last_at e)) 15) 2) as [H | H];
          [left; exact H|].
        destruct (Z.eq_dec (Z.shiftr (t (ContextMap.last_at e)) 4) 2) as [H' | H'];
          [right; exact H'|].
        exfalso. pose proof (Hbytes 2 ltac:(lia)).
        assert (65535 <= t (ContextMap.bh_at e 2))
          by (apply Hall; [lia | intros [? | ?]; contradiction]). lia. }
      unfold E_recent in H0, H1, H2. lia.
    - split; [exact Hnr|]. rewrite Hpri. exact Hall. }
  exists v. split; [lia|]. split; [reflexivity|].
  split; [exact (proj1 Hlow)|]. split; [exact (proj2 Hlow)|].
  unfold ContextMap.chk_at, ContextMap.last_at, ContextMap.bh_at in *.
  split; [intros j Hj; apply clear7_in; lia|].
  split; [rewrite clear7_out by lia; apply set_eq|].
  split; [rewrite clear7_out by lia; rewrite set_neq by lia; rewrite set_eq;
          apply last_miss; lia|].
  intros a Ha1 Ha2 Ha3. rewrite clear7_out by lia. rewrite !set_neq by lia. reflexivity.
Qed.

Lemma E_get_miss_witness :
  (Z.land (zeros (ContextMap.last_at 0)) 15 <= 6 /\
   (forall k, 0 <= k < 7 -> 0 <= zeros (ContextMap.bh_at 0 k) <= 255) /\
   (forall k, 0 <= k < 7 -> zeros (ContextMap.chk_at 0 k) <> 5)) /\
  exists v, 0 <= v < 7 /\ fst (ContextMap.E_get 0 5 zeros) = ContextMap.bh_at 0 v /\
    ~ E_recent zeros 0 v.
Proof.
  assert (H1 : Z.land (zeros (ContextMap.last_at 0)) 15 <= 6) by (unfold zeros; cbn; lia).
  assert (H2 : forall k, 0 <= k < 7 -> 0 <= zeros (ContextMap.bh_at 0 k) <= 255)
    by (intros k Hk; unfold zeros; lia).
  assert (H3 : forall k, 0 <= k < 7 -> zeros (ContextMap.chk_at 0 k) <> 5)
    by (intros k Hk; unfold zeros; discriminate).
  split; [split; [exact H1 | split; [exact H2 | exact H3]]|].
  destruct (E_get_miss 0 5 zeros H1 H2 H3) as (v & Hv & Hp & Hr & _).
  exists v. split; [exact Hv|]. split; [exact Hp | exact Hr].
Defined.

(** ** ContextMap: the contexts as stored by set *)

(** multiplication by a unit of the 32-bit integers loses nothing *)
Lemma u32_mul_inj (m minv a b c : Z) :
  u32 (m * minv) = 1 -> u32 (a * m + c) = u32 (b * m + c) -> u32 a = u32 b.
Proof.
  unfold u32. intros Hinv H.
  pose proof (Z.div_mod (a * m + c) 4294967296 ltac:(lia)) as Ha.
  pose proof (Z.div_mod (b * m + c) 4294967296 ltac:(lia)) as Hb.
  pose proof (Z.div_mod (m * minv) 4294967296 ltac:(lia)) as Hm.
  rewrite Hinv in Hm. rewrite H in Ha.
  set (qa := (a * m + c) / 4294967296) in *.
  set (qb := (b * m + c) / 4294967296) in *.
  set (r := (m * minv) / 4294967296) in *.
  assert (E : a = b + ((qa - qb) * minv - (a - b) * r) * 4294967296) by nia.
  rewrite E at 1. apply Z_mod_plus_full.
Qed.

(** the two halves of [cx << 16 | cx >> 16] *)
Lemma rot_halves (x : Z) :
  0 <= x < 4294967296 ->
  let r := Z.lor (u32 (Z.shiftl x 16)) (Z.shiftr x 16) in
  Z.shiftr r 16 = x mod 65536 /\ Z.land r 65535 = x / 65536 /\ 0 <= r < 4294967296.
Proof.
  intros Hx. cbv zeta.
  assert (HA : u32 (Z.shiftl x 16) = (x mod 65536) * 65536).
  { unfold u32. rewrite Z.shiftl_mul_pow2 by lia.
    change 4294967296 with (65536 * 65536). change (2 ^ 16) with 65536.
    rewrite Z.mul_mod_distr_r by lia. reflexivity. }
  assert (HB : Z.shiftr x 16 = x / 65536) by (rewrite Z.shiftr_div_pow2 by lia; reflexivity).
  rewrite HA, HB.
  pose proof (Z.mod_pos_bound x 65536 ltac:(lia)) as Hm.
  assert (Hd : 0 <= x / 65536 < 65536).
  { split; [apply Z.div_pos; lia|]. apply Z.div_lt_upper_bound; lia. }
  split; [|split].
  - rewrite Z.shiftr_lor. rewrite !Z.shiftr_div_pow2 by lia. change (2 ^ 16) with 65536.
    rewrite Z.div_mul by lia. rewrite (Z.div_small (x / 65536)) by lia.
    apply Z.lor_0_r.
  - change 65535 with (Z.ones 16). rewrite Z.land_lor_distr_l.
    rewrite !Z.land_ones by lia. change (2 ^ 16) with 65536.
    rewrite Z.mod_mul by lia. rewrite Z.mod_small by lia. apply Z.lor_0_l.
  - assert (Hnn : 0 <= Z.lor (x mod 65536 * 65536) (x / 65536))
      by (apply Z.lor_nonneg; lia).
    split; [exact Hnn|].
    destruct (Z.eq_dec (Z.lor (x mod 65536 * 65536) (x / 65536)) 0) as [E | E]; [lia|].
    change 4294967296 with (2 ^ 32). apply Z.log2_lt_pow2; [lia|].
    rewrite Z.log2_lor by lia.
    assert (H1 : Z.log2 (x mod 65536 * 65536) < 32).
    { destruct (Z.eq_dec (x mod 65536 * 65536) 0) as [-> | H0]; [cbn; lia|].
      apply Z.log2_lt_pow2; [lia|]. change (2 ^ 32) with 4294967296. lia. }
    assert (H2 : Z.log2 (x / 65536) < 32).
    { destruct (Z.eq_dec (x / 65536) 0) as [-> | H0]; [cbn; lia|].
      apply Z.log2_lt_pow2; [lia|]. change (2 ^ 32) with 4294967296. lia. }
    lia.
Qed.

Lemma rot_inj (x x' : Z) :
  0 <= x < 4294967296 -> 0 <= x' < 4294967296 ->
  Z.lor (u32 (Z.shiftl x 16)) (Z.shiftr x 16)
  = Z.lor (u32 (Z.shiftl x' 16)) (Z.shiftr x' 16) ->
  x = x'.
Proof.
  intros Hx Hx' H.
  destruct (rot_halves x Hx) as (H1 & H2 & _).
  destruct (rot_halves x' Hx') as (H1' & H2' & _).
  rewrite H in H1, H2. rewrite H1' in H1. rewrite H2' in H2.
  rewrite (Z.div_mod x 65536) by lia. rewrite (Z.div_mod x' 65536) by lia. lia.
Qed.

Lemma u32_small (x : Z) : 0 <= x < 4294967296 -> u32 x = x.
Proof. intros H. apply Z.mod_small. exact H. Qed.

Lemma u32_bound (x : Z) : 0 <= u32 x < 4294967296.
Proof. apply Z.mod_pos_bound. lia. Qed.

(** [set] permutes, it does not hash: two different 32-bit contexts set
    in the same place are stored as two different values, and the value
    stored is a 32-bit one. *)
Theorem ContextMap_set_permutes (cx cx' next : Z) (s : ContextMap.state) :
  0 <= cx < 4294967296 -> 0 <= cx' < 4294967296 -> cx <> cx' ->
  let i := Z.land (ContextMap.cn s) next in
  ContextMap.cxt (ContextMap.set cx next s) i
  <> ContextMap.cxt (ContextMap.set cx' next s) i /\
  0 <= ContextMap.cxt (ContextMap.set cx next s) i < 4294967296.
Proof.
  intros Hx Hx' Hne. cbv zeta.
  unfold ContextMap.set. cbn [ContextMap.with_cxt ContextMap.with_cn ContextMap.cxt ContextMap.cn].
  rewrite !set_eq. split; [|apply u32_bound].
  intros H. apply Hne.
  apply (u32_mul_inj 123456791 2454338215) in H; [|reflexivity].
  set (i := Z.land (ContextMap.cn s) next) in *.
  pose proof (u32_bound (cx * 987654323 + i)) as Hb.
  pose proof (u32_bound (cx' * 987654323 + i)) as Hb'.
  rewrite (u32_small (Z.lor (u32 (Z.shiftl (u32 (cx * 987654323 + i)) 16)) _)) in H
    by (apply rot_halves; assumption).
  rewrite (u32_small (Z.lor (u32 (Z.shiftl (u32 (cx' * 987654323 + i)) 16)) _)) in H
    by (apply rot_halves; assumption).
  apply rot_inj in H; [|assumption|assumption].
  apply (u32_mul_inj 987654323 2974975611) in H; [|reflexivity].
  rewrite (u32_small cx), (u32_small cx') in H by assumption. exact H.
Qed.

Lemma ContextMap_set_permutes_witness :
  (0 <= 1 < 4294967296 /\ 0 <= 2 < 4294967296 /\ 1 <> 2) /\
  ContextMap.cxt (ContextMap.set 1 (-1) (ContextMap.ctor 65536 9)) 0
  <> ContextMap.cxt (ContextMap.set 2 (-1) (ContextMap.ctor 65536 9)) 0.
Proof.
  split; [lia|].
  exact (proj1 (ContextMap_set_permutes 1 2 (-1) (ContextMap.ctor 65536 9)
                  ltac:(lia) ltac:(lia) ltac:(lia))).
Defined.

(** ** The predictor: how many contexts and inputs, and which weights *)

Lemma same_sel_refl (f : Mixer.fields) : same_sel f f.
Proof. repeat split. Qed.

Lemma same_sel_trans (f1 f2 f3 : Mixer.fields) :
  same_sel f1 f2 -> same_sel f2 f3 -> same_sel f1 f3.
Proof.
  unfold same_sel. intros (A1 & A2 & A3 & A4 & A5 & A6) (B1 & B2 & B3 & B4 & B5 & B6).
  repeat split; congruence.
Qed.

Lemma grows_refl (m : Mixer.state) : grows m m 0.
Proof. split; [lia | apply same_sel_refl]. Qed.

Lemma grows_trans (m1 m2 m3 : Mixer.state) (j k : Z) :
  grows m1 m2 j -> grows m2 m3 k -> grows m1 m3 (j + k).
Proof.
  intros [A1 A2] [B1 B2]. split; [lia | exact (same_sel_trans _ _ _ A2 B2)].
Qed.

Lemma grows_add (x : Z) (m : Mixer.state) : grows m (Mixer.add x m) 1.
Proof. destruct m as [f c]. split; [reflexivity | repeat split]. Qed.

Lemma grows_add_after (x : Z) (m m' : Mixer.state) (k : Z) :
  grows m m' k -> grows m (Mixer.add x m') (k + 1).
Proof. intros H. exact (grows_trans _ _ _ _ _ H (grows_add x m')). Qed.

Lemma mix2_grows (y : Z) (m : Mixer.state) (s : Z) (sm : StateMap.state) :
  grows m (snd (fst (mix2 y m s sm))) 5 /\
  0 <= fst (fst (mix2 y m s sm)) <= 1.
Proof.
  unfold mix2. destruct (StateMap.p y s sm) as [p1 sm']. cbn [fst snd]. split.
  - change 5 with (0 + 1 + 1 + 1 + 1 + 1).
    repeat apply grows_add_after. apply grows_refl.
  - unfold b2i. destruct (0 <? s); lia.
Qed.

Lemma rcm_mix_grows (g : Ctx) (m : Mixer.state) (r : RunContextMap.state) :
  grows m (snd (RunContextMap.mix g m r)) 1.
Proof. unfold RunContextMap.mix. cbn [snd]. apply grows_add. Qed.

Lemma pending_cn (i : Z) (s : ContextMap.state) :
  ContextMap.cn (ContextMap.pending i s) = ContextMap.cn s /\
  ContextMap.C (ContextMap.pending i s) = ContextMap.C s.
Proof. unfold ContextMap.pending. repeat break_let. split; reflexivity. Qed.

Lemma pending_tsize (i : Z) (s : ContextMap.state) :
  ContextMap.tsize (ContextMap.pending i s) = ContextMap.tsize s.
Proof. unfold ContextMap.pending. repeat break_let. reflexivity. Qed.

Lemma cm_hist_fields (ns i : Z) (s : ContextMap.state) :
  ContextMap.C (cm_hist ns i s) = ContextMap.C s /\
  ContextMap.tsize (cm_hist ns i s) = ContextMap.tsize s /\
  ContextMap.cn (cm_hist ns i s) = ContextMap.cn s.
Proof. unfold cm_hist. destruct (_ =? 0); repeat split; reflexivity. Qed.

Lemma cm_point_fields (g : Ctx) (cc c1 i : Z) (s : ContextMap.state) :
  ContextMap.C (cm_point g cc c1 i s) = ContextMap.C s /\
  ContextMap.tsize (cm_point g cc c1 i s) = ContextMap.tsize s /\
  ContextMap.cn (cm_point g cc c1 i s) = ContextMap.cn s.
Proof.
  unfold cm_point.
  destruct (_ && _); [repeat split; reflexivity|].
  destruct (_ || _); [repeat split; reflexivity|].
  destruct (_ || _); [repeat split; reflexivity|].
  destruct (ContextMap.lookup _ _ _) as [p t1].
  destruct (bpos g =? 0); [|repeat split; reflexivity].
  destruct (run_update _ _ _) as [count byte].
  cbn [ContextMap.with_t ContextMap.with_runp ContextMap.C ContextMap.tsize ContextMap.cn].
  destruct (_ =? 2); [|repeat split; reflexivity].
  split; [rewrite (proj2 (pending_cn _ _)); reflexivity|].
  split; [rewrite pending_tsize | rewrite (proj1 (pending_cn _ _))]; reflexivity.
Qed.

(** the body of the loop of [mix1]: the two steps on the ContextMap, an
    input from the run, and [mix2] on the bit history *)
Lemma mix1_body_eq (g : Ctx) (cc bp c1 y1 i result : Z) (m : Mixer.state)
    (r : Random) (s : ContextMap.state) :
  exists ns f x sb smx r',
    forall res m' smi,
      mix2 y1 (Mixer.add x m) sb smx = (res, m', smi) ->
      ContextMap.mix1_body g cc bp c1 y1 i (result, m, r, s)
      = (result + res, m', r',
         ContextMap.with_sm (f smi) (cm_point g cc c1 i (cm_hist ns i s))).
Proof.
  unfold ContextMap.mix1_body, cm_hist.
  destruct (ContextMap.cp s i =? 0).
  - cbv beta iota zeta. exists 0. destruct (_ =? cc).
    + do 5 eexists. intros res m' smi E. rewrite E. reflexivity.
    + do 5 eexists. intros res m' smi E. rewrite E. reflexivity.
  - destruct (204 <=? nex (ContextMap.t s (ContextMap.cp s i)) y1).
    + destruct (rnd r) as [v r']. destruct (u32 _ =? 0).
      * cbv beta iota zeta. exists (nex (ContextMap.t s (ContextMap.cp s i)) y1).
        destruct (_ =? cc).
        -- do 5 eexists. intros res m' smi E. rewrite E. reflexivity.
        -- do 5 eexists. intros res m' smi E. rewrite E. reflexivity.
      * cbv beta iota zeta. exists (nex (ContextMap.t s (ContextMap.cp s i)) y1 - 4).
        destruct (_ =? cc).
        -- do 5 eexists. intros res m' smi E. rewrite E. reflexivity.
        -- do 5 eexists. intros res m' smi E. rewrite E. reflexivity.
    + cbv beta iota zeta. exists (nex (ContextMap.t s (ContextMap.cp s i)) y1).
      destruct (_ =? cc).
      * do 5 eexists. intros res m' smi E. rewrite E. reflexivity.
      * do 5 eexists. intros res m' smi E. rewrite E. reflexivity.
Qed.

(** one round of the loop of [mix1]: 6 more inputs, one more in the count
    at most, as many contexts *)
Lemma mix1_body_grows (g : Ctx) (cc bp c1 y1 i : Z)
    (st : Z * Mixer.state * Random * ContextMap.state) :
  let st' := ContextMap.mix1_body g cc bp c1 y1 i st in
  grows (mixer_of st) (mixer_of st') 6 /\
  (ContextMap.cn (snd st') = ContextMap.cn (snd st) /\
   ContextMap.C (snd st') = ContextMap.C (snd st)) /\
  fst (fst (fst st)) <= fst (fst (fst st')) <= fst (fst (fst st)) + 1.
Proof.
  destruct st as [[[result m] r] s]. cbv zeta.
  destruct (mix1_body_eq g cc bp c1 y1 i result m r s)
    as (ns & f & x & sb & smx & r' & H).
  pose proof (mix2_grows y1 (Mixer.add x m) sb smx) as [Hg Hres].
  destruct (mix2 y1 (Mixer.add x m) sb smx) as [[res m'] smi].
  rewrite (H res m' smi eq_refl). unfold mixer_of. cbn [fst snd] in *.
  destruct (cm_point_fields g cc c1 i (cm_hist ns i s)) as (A1 & _ & A3).
  destruct (cm_hist_fields ns i s) as (B1 & _ & B3).
  split; [|split; [|lia]].
  - change 6 with (1 + 5). exact (grows_trans _ _ _ _ _ (grows_add x m) Hg).
  - cbn [ContextMap.with_sm ContextMap.cn ContextMap.C]. split; congruence.
Qed.

(** the loop of [mix1] over the [cn] contexts *)
Lemma cm_mix_grows (y : Z) (g : Ctx) (m : Mixer.state) (r : Random)
    (s : ContextMap.state) :
  0 <= ContextMap.cn s ->
  let st' := ContextMap.mix y g m r s in
  grows m (mixer_of st') (6 * ContextMap.cn s) /\
  (ContextMap.cn (snd st') = (if bpos g =? 7 then 0 else ContextMap.cn s) /\
   ContextMap.C (snd st') = ContextMap.C s) /\
  0 <= fst (fst (fst st')) <= ContextMap.cn s.
Proof.
  intros Hcn. cbv zeta. unfold ContextMap.mix, ContextMap.mix1.
  pose proof (for_ind
    (fun k st => grows m (mixer_of st) (6 * k) /\
                 (ContextMap.cn (snd st) = ContextMap.cn s /\
                  ContextMap.C (snd st) = ContextMap.C s) /\
                 0 <= fst (fst (fst st)) <= k)
    0 (ContextMap.cn s)
    (ContextMap.mix1_body g (c0 g) (bpos g) (Buf_back g 1) y) (0, m, r, s) Hcn) as H.
  cbv beta in H.
  assert (H0 : grows m (mixer_of (0, m, r, s)) (6 * 0) /\
               (ContextMap.cn (snd (0, m, r, s)) = ContextMap.cn s /\
                ContextMap.C (snd (0, m, r, s)) = ContextMap.C s) /\
               0 <= fst (fst (fst (0, m, r, s))) <= 0).
  { unfold mixer_of. cbn [fst snd]. split; [apply grows_refl|].
    split; [split; reflexivity | lia]. }
  specialize (H H0). clear H0.
  assert (Hstep : forall i st, 0 <= i < ContextMap.cn s ->
            grows m (mixer_of st) (6 * i) /\
            (ContextMap.cn (snd st) = ContextMap.cn s /\
             ContextMap.C (snd st) = ContextMap.C s) /\
            0 <= fst (fst (fst st)) <= i ->
            grows m (mixer_of (ContextMap.mix1_body g (c0 g) (bpos g) (Buf_back g 1) y i st))
                  (6 * (i + 1)) /\
            (ContextMap.cn (snd (ContextMap.mix1_body g (c0 g) (bpos g) (Buf_back g 1) y i st))
             = ContextMap.cn s /\
             ContextMap.C (snd (ContextMap.mix1_body g (c0 g) (bpos g) (Buf_back g 1) y i st))
             = ContextMap.C s) /\
            0 <= fst (fst (fst (ContextMap.mix1_body g (c0 g) (bpos g) (Buf_back g 1) y i st)))
              <= i + 1).
  { intros i st Hi (A1 & [A2 A2'] & A3).
    destruct (mix1_body_grows g (c0 g) (bpos g) (Buf_back g 1) y i st)
      as (B1 & [B2 B2'] & B3).
    split; [|split; [split; congruence | lia]].
    replace (6 * (i + 1)) with (6 * i + 6) by lia.
    exact (grows_trans _ _ _ _ _ A1 B1). }
  specialize (H Hstep). clear Hstep.
  destruct (for_ 0 (ContextMap.cn s) _ _) as [[[result m'] r'] s'].
  unfold mixer_of in *. cbn [fst snd] in *.
  destruct H as (A1 & [A2 A2'] & A3). split; [exact A1|]. split; [|exact A3].
  split; [|destruct (bpos g =? 7); exact A2'].
  destruct (bpos g =? 7); [reflexivity | exact A2].
Qed.

Lemma pad_sel (fuel : nat) : forall f, same_sel f (Mixer.pad fuel f).
Proof.
  induction fuel as [|fuel IH]; intros f; cbn [Mixer.pad]; [apply same_sel_refl|].
  destruct (Z.land (Mixer.nx f) 7 =? 0); [apply same_sel_refl|].
  apply (same_sel_trans _ (Mixer.add_f 0 f)); [repeat split | apply IH].
Qed.

(** [p] pads the inputs to a multiple of 8 and keeps the selection *)
Lemma p_shape (y : Z) (m : Mixer.state) :
  let m' := snd (Mixer.p y m) in
  Mixer.nx (Mixer.own m') = Mixer.nx (Mixer.own m) + (- Mixer.nx (Mixer.own m)) mod 8 /\
  same_sel (Mixer.own m) (Mixer.own m').
Proof.
  cbv zeta. unfold Mixer.p. rewrite p_rec_eq. cbv zeta.
  pose proof (Z.mod_pos_bound (- Mixer.nx (Mixer.own m)) 8 ltac:(lia)) as Hm.
  destruct (pad_spec 8 (Mixer.own m) ltac:(lia)) as (Hnx & _).
  pose proof (pad_sel 8 (Mixer.own m)) as Hsel.
  set (f := Mixer.pad 8 (Mixer.own m)) in *.
  destruct (Mixer.mp m) as [c|].
  - pose proof (for_inv
        (fun st : Mixer.fields * Mixer.fields =>
           Mixer.nx (fst st) = Mixer.nx f /\ same_sel f (fst st))
        0 (Mixer.ncxt f)
        (fun i '(f, cf) =>
           let v := squash (Z.shiftr
                      (dot_product (Mixer.tx f) (Mixer.wx f)
                         (Mixer.cxt f i * Mixer.N f) (Mixer.nx f)) 5) in
           (Mixer.set_pr i v f, Mixer.add_f (stretch v) cf))
        (f, Mixer.update_f y (Mixer.own c))) as H.
    cbv beta in H. specialize (H (conj eq_refl (same_sel_refl f))).
    assert (Hstep : forall i (st : Mixer.fields * Mixer.fields),
              0 <= i < Mixer.ncxt f ->
              Mixer.nx (fst st) = Mixer.nx f /\ same_sel f (fst st) ->
              Mixer.nx (fst (let '(f, cf) := st in
                 let v := squash (Z.shiftr
                            (dot_product (Mixer.tx f) (Mixer.wx f)
                               (Mixer.cxt f i * Mixer.N f) (Mixer.nx f)) 5) in
                 (Mixer.set_pr i v f, Mixer.add_f (stretch v) cf))) = Mixer.nx f /\
              same_sel f (fst (let '(f, cf) := st in
                 let v := squash (Z.shiftr
                            (dot_product (Mixer.tx f) (Mixer.wx f)
                               (Mixer.cxt f i * Mixer.N f) (Mixer.nx f)) 5) in
                 (Mixer.set_pr i v f, Mixer.add_f (stretch v) cf)))).
    { intros i [f1 cf1] _ [A1 A2]. cbn [fst] in *. split; [exact A1 | exact A2]. }
    specialize (H Hstep). clear Hstep.
    destruct (for_ 0 (Mixer.ncxt f) _ _) as [f' cf']. cbn [fst] in H.
    destruct (Mixer.p_rec y (Mixer.set_f 0 1 cf') c) as [res c'].
    cbn [snd Mixer.own]. destruct H as [A1 A2].
    split; [lia | exact (same_sel_trans _ _ _ Hsel A2)].
  - cbn [snd Mixer.own]. split; [exact Hnx | exact Hsel].
Qed.

Lemma own_set (cx range : Z) (m : Mixer.state) :
  Mixer.own (Mixer.set cx range m) = Mixer.set_f cx range (Mixer.own m).
Proof. destruct m as [f c]. reflexivity. Qed.

Lemma own_add (x : Z) (m : Mixer.state) :
  Mixer.own (Mixer.add x m) = Mixer.add_f x (Mixer.own m).
Proof. destruct m as [f c]. reflexivity. Qed.

Lemma own_update (y : Z) (m : Mixer.state) :
  Mixer.own (Mixer.update y m) = Mixer.update_f y (Mixer.own m).
Proof. destruct m as [f c]. reflexivity. Qed.

Lemma cm_set_cn (cx next : Z) (s : ContextMap.state) :
  ContextMap.cn (ContextMap.set cx next s) = ContextMap.cn s + 1.
Proof. reflexivity. Qed.

Lemma mask_enum : forallb mask_ok (zrange 0 256) = true.
Proof. vm_cast_no_check (eq_refl true). Qed.

Lemma mask_range (x : Z) :
  0 <= Z.land x 192 <= 192 /\ 0 <= Z.land x 240 <= 240.
Proof.
  pose proof (Z.mod_pos_bound x 256 ltac:(lia)) as Hm.
  pose proof (forallb_zrange mask_ok 0 256 mask_enum (x mod 256) ltac:(lia)) as H.
  unfold mask_ok in H.
  apply andb_prop in H as [H H4]. apply andb_prop in H as [H H3].
  apply andb_prop in H as [H1 H2].
  apply Z.leb_le in H1, H2, H3, H4.
  assert (E : forall k, Z.land k 255 = k -> Z.land x k = Z.land (x mod 256) k).
  { intros k Hk. rewrite <- land_255, <- Z.land_assoc.
    rewrite (Z.land_comm 255 k), Hk. reflexivity. }
  rewrite (E 192 eq_refl), (E 240 eq_refl). lia.
Qed.

Lemma cm_sets_cn (c : array) (cm : ContextMap.state) :
  ContextMap.cn (for_ 0 7 (fun i cm => ContextMap.set (c i) (-1) cm) cm)
  = ContextMap.cn cm + 7.
Proof.
  apply (for_ind (fun k st => ContextMap.cn st = ContextMap.cn cm + k) 0 7
           (fun i cm => ContextMap.set (c i) (-1) cm) cm); [lia | lia |].
  intros i st _ H. cbv beta in *. rewrite cm_set_cn. lia.
Qed.

Lemma cm_set_C (cx next : Z) (s : ContextMap.state) :
  ContextMap.C (ContextMap.set cx next s) = ContextMap.C s.
Proof. reflexivity. Qed.

Lemma cm_sets_C (c : array) (c8 c14 : Z) (cm : ContextMap.state) :
  ContextMap.C (ContextMap.set c14 (-1) (ContextMap.set c8 (-1)
     (for_ 0 7 (fun i cm => ContextMap.set (c i) (-1) cm) cm)))
  = ContextMap.C cm.
Proof.
  rewrite !cm_set_C.
  apply (for_inv (fun st => ContextMap.C st = ContextMap.C cm)); [reflexivity|].
  intros i st _ H. exact H.
Qed.

Ltac open_run :=
  repeat match goal with
    | |- context [match ContextMap.mix ?y ?g ?m ?r ?s with pair _ _ => _ end] =>
        let H := fresh "Hcm" in
        pose proof (cm_mix_grows y g m r s) as H; cbv zeta in H;
        destruct (ContextMap.mix y g m r s) as [[[? ?] ?] ?];
        unfold mixer_of in H; cbn [fst snd] in H
    | |- context [match RunContextMap.mix ?g ?m ?r with pair _ _ => _ end] =>
        let H := fresh "Hrcm" in
        pose proof (rcm_mix_grows g m r) as H;
        destruct (RunContextMap.mix g m r); cbn [snd] in H
    | |- context [match Mixer.p ?y ?m with pair _ _ => _ end] =>
        let H := fresh "Hp" in
        pose proof (p_shape y m) as H; cbv zeta in H;
        destruct (Mixer.p y m); cbn [snd] in H
    | |- context [match (if ?c then _ else _) with pair _ _ => _ end] => destruct c
    | |- context [match (pair _ _) with pair _ _ => _ end] => cbv beta iota
    end.

Lemma back_byte (g : Ctx) (i : Z) : buf_ok g -> 0 <= Buf_back g i <= 255.
Proof. intros [H _]. unfold Buf_back. apply H. Qed.

(** [contextModel2]: the contexts of the ContextMap, the inputs of the
    mixer and the weight sets selected *)
Lemma ContextModel2_run_shape (y : Z) (g : Ctx) (r : Random) (s : ContextModel2.state) :
  ctx_ok g -> buf_ok g ->
  0 <= ContextMap.cn (ContextModel2.cm s) <= 9 ->
  (bpos g = 0 -> ContextMap.cn (ContextModel2.cm s) = 0) ->
  let cnm := if bpos g =? 0 then 9 else ContextMap.cn (ContextModel2.cm s) in
  let s' := snd (ContextModel2.run y g r s) in
  (ContextMap.cn (ContextModel2.cm s') = (if bpos g =? 7 then 0 else cnm) /\
   ContextMap.C (ContextModel2.cm s') = ContextMap.C (ContextModel2.cm s)) /\
  Mixer.nx (Mixer.own (ContextModel2.m s')) = 4 + 6 * cnm + (- (4 + 6 * cnm)) mod 8 /\
  sel_ok (Mixer.own (ContextModel2.m s')) /\
  Mixer.N (Mixer.own (ContextModel2.m s')) = Mixer.N (Mixer.own (ContextModel2.m s)) /\
  Mixer.M (Mixer.own (ContextModel2.m s')) = Mixer.M (Mixer.own (ContextModel2.m s)) /\
  Mixer.S (Mixer.own (ContextModel2.m s')) = Mixer.S (Mixer.own (ContextModel2.m s)).
Proof.
  intros Hg Hb Hcn H0.
  destruct (ctx_ok_c0 g Hg) as [Hc0 Hbp].
  pose proof (back_byte g 1 Hb) as Hc1.
  pose proof (back_byte g 2 Hb) as Hc2.
  pose proof (back_byte g 3 Hb) as Hc3.
  destruct Hb as [_ Hc4].
  unfold ContextModel2.run.
  set (m0 := Mixer.add 256 (Mixer.update y (ContextModel2.m s))).
  assert (Hm0 : Mixer.nx (Mixer.own m0) = 1 /\ Mixer.ncxt (Mixer.own m0) = 0 /\
                Mixer.base (Mixer.own m0) = 0 /\
                Mixer.N (Mixer.own m0) = Mixer.N (Mixer.own (ContextModel2.m s)) /\
                Mixer.M (Mixer.own m0) = Mixer.M (Mixer.own (ContextModel2.m s)) /\
                Mixer.S (Mixer.own m0) = Mixer.S (Mixer.own (ContextModel2.m s))).
  { unfold m0. rewrite own_add, own_update. repeat split. }
  clearbody m0.
  match goal with
  | |- context [match ?e with pair _ _ => _ end] => destruct e as [filetype size]
  end.
  set (cxt' := for_ 0 15 _ (ContextModel2.cxt s)). clearbody cxt'.
  assert (Hsel2 : forall z, 0 <= z <= 9 ->
            0 <= (if z - 2 <? 0 then 0 else z - 2)
                 + 8 * Z.land (Z.shiftr (c4 g) 5) 7
                 + 64 * b2i (Buf_back g 1 =? Buf_back g 2)
                 + 128 * b2i (filetype =? ContextModel2.EXE) < 256).
  { intros z Hz. rewrite land_7.
    pose proof (Z.mod_pos_bound (Z.shiftr (c4 g) 5) 8 ltac:(lia)).
    unfold b2i. destruct (z - 2 <? 0) eqn:E; [|apply Z.ltb_ge in E];
      destruct (Buf_back g 1 =? Buf_back g 2), (filetype =? ContextModel2.EXE); lia. }
  assert (Hfin : forall cn0 z (s0 s5 : Mixer.state) c,
            0 <= cn0 <= 9 -> 0 <= z <= 9 -> 0 <= c < 1536 ->
            grows m0 s0 (6 * cn0 + 3) ->
            Mixer.nx (Mixer.own s5)
            = Mixer.nx (Mixer.own
                (Mixer.set c 1536
                  (Mixer.set (Buf_back g 3) 256
                    (Mixer.set (Buf_back g 2) 256
                      (Mixer.set
                         ((if z - 2 <? 0 then 0 else z - 2)
                          + 8 * Z.land (Z.shiftr (c4 g) 5) 7
                          + 64 * b2i (Buf_back g 1 =? Buf_back g 2)
                          + 128 * b2i (filetype =? ContextModel2.EXE)) 256
                        (Mixer.set (c0 g) 256
                          (Mixer.set (Buf_back g 1 + 8) 264 s0)))))))
              + (- Mixer.nx (Mixer.own
                (Mixer.set c 1536
                  (Mixer.set (Buf_back g 3) 256
                    (Mixer.set (Buf_back g 2) 256
                      (Mixer.set
                         ((if z - 2 <? 0 then 0 else z - 2)
                          + 8 * Z.land (Z.shiftr (c4 g) 5) 7
                          + 64 * b2i (Buf_back g 1 =? Buf_back g 2)
                          + 128 * b2i (filetype =? ContextModel2.EXE)) 256
                        (Mixer.set (c0 g) 256
                          (Mixer.set (Buf_back g 1 + 8) 264 s0)))))))) mod 8 /\
            same_sel (Mixer.own
                (Mixer.set c 1536
                  (Mixer.set (Buf_back g 3) 256
                    (Mixer.set (Buf_back g 2) 256
                      (Mixer.set
                         ((if z - 2 <? 0 then 0 else z - 2)
                          + 8 * Z.land (Z.shiftr (c4 g) 5) 7
                          + 64 * b2i (Buf_back g 1 =? Buf_back g 2)
                          + 128 * b2i (filetype =? ContextModel2.EXE)) 256
                        (Mixer.set (c0 g) 256
                          (Mixer.set (Buf_back g 1 + 8) 264 s0)))))))
              (Mixer.own s5) ->
            Mixer.nx (Mixer.own s5) = 4 + 6 * cn0 + (- (4 + 6 * cn0)) mod 8 /\
            sel_ok (Mixer.own s5) /\
            Mixer.N (Mixer.own s5) = Mixer.N (Mixer.own (ContextModel2.m s)) /\
            Mixer.M (Mixer.own s5) = Mixer.M (Mixer.own (ContextModel2.m s)) /\
            Mixer.S (Mixer.own s5) = Mixer.S (Mixer.own (ContextModel2.m s))).
  { intros cn0 z s0 s5 c Hcn0 Hz Hc [Gnx Gsel] Hp.
    specialize (Hsel2 z Hz).
    rewrite !own_set in Hp.
    cbn [Mixer.set_f Mixer.nx Mixer.N Mixer.M Mixer.S Mixer.cxt Mixer.ncxt Mixer.base] in Hp.
    destruct Hp as (Pnx & PN & PM & PS & Pcxt & Pncxt & Pbase).
    cbn [Mixer.set_f Mixer.nx Mixer.N Mixer.M Mixer.S Mixer.cxt Mixer.ncxt Mixer.base]
      in PN, PM, PS, Pcxt, Pncxt, Pbase.
    destruct Gsel as (QN & QM & QS & Qcxt & Qncxt & Qbase).
    destruct Hm0 as (M1 & M2 & M3 & M4 & M5 & M6).
    rewrite Qncxt, M2 in Pcxt, Pncxt. rewrite Qbase, M3 in Pcxt, Pbase.
    split; [rewrite Pnx, Gnx, M1; f_equal; [lia | f_equal; lia]|].
    split; [|repeat split; congruence].
    change (0 + 1 + 1 + 1 + 1 + 1) with 5 in Pcxt.
    change (0 + 1 + 1 + 1 + 1) with 4 in Pcxt.
    change (0 + 1 + 1 + 1) with 3 in Pcxt.
    change (0 + 1 + 1) with 2 in Pcxt.
    change (0 + 1) with 1 in Pcxt.
    unfold sel_ok. rewrite Pcxt, Pncxt, Pbase.
    split; [reflexivity|]. split; [reflexivity|].
    repeat (rewrite set_eq || rewrite set_neq by lia).
    lia. }
  destruct (Z.eqb_spec (bpos g) 0) as [Hb0 | Hb0].
  - open_run. cbn [snd ContextModel2.cm ContextModel2.m].
    rewrite !cm_set_cn, cm_sets_cn, (H0 Hb0) in Hcm. cbn in Hcm.
    destruct (Hcm ltac:(lia)) as (G1 & [G2 G2'] & G3).
    split; [split; [exact G2 | rewrite G2'; exact (cm_sets_C cxt' (cxt' 8) (cxt' 14) (ContextModel2.cm s))]|].
    eapply Hfin; [| exact G3 | | | exact Hp]; [lia | |].
    + destruct (mask_range (Buf_back g 1)) as [_ Hm240].
      assert (0 <= Buf_back g 3 / 128 < 2)
        by (split; [apply Z.div_pos; lia | apply Z.div_lt_upper_bound; lia]).
      assert (0 <= Buf_back g 2 / 64 < 4)
        by (split; [apply Z.div_pos; lia | apply Z.div_lt_upper_bound; lia]).
      assert (0 <= Z.shiftr (c4 g) 31 < 2).
      { rewrite Z.shiftr_div_pow2 by lia.
        split; [apply Z.div_pos; lia | apply Z.div_lt_upper_bound; lia]. }
      cbn [negb]. rewrite u32_small by lia. lia.
    + change (6 * 9 + 3) with (6 * 9 + 1 + 1 + 1).
      exact (grows_trans _ _ _ _ _ (grows_trans _ _ _ _ _
               (grows_trans _ _ _ _ _ G1 Hrcm) Hrcm0) Hrcm1).
  - open_run. cbn [snd ContextModel2.cm ContextModel2.m].
    destruct (Hcm ltac:(lia)) as (G1 & G2 & G3).
    split; [exact G2|].
    eapply Hfin; [| | | | exact Hp]; [exact Hcn | lia | |].
    + cbn [negb].
      match goal with
      | |- context [Z.land ?c 192] => destruct (mask_range c) as [Hm192 _]
      end.
      assert (0 <= Buf_back g 1 / 32 < 8)
        by (split; [apply Z.div_pos; lia | apply Z.div_lt_upper_bound; lia]).
      assert (0 <= Buf_back g 2 / 32 < 8)
        by (split; [apply Z.div_pos; lia | apply Z.div_lt_upper_bound; lia]).
      rewrite u32_small by lia. lia.
    + replace (6 * ContextMap.cn (ContextModel2.cm s) + 3)
        with (6 * ContextMap.cn (ContextModel2.cm s) + 1 + 1 + 1) by lia.
      exact (grows_trans _ _ _ _ _ (grows_trans _ _ _ _ _
               (grows_trans _ _ _ _ _ G1 Hrcm) Hrcm0) Hrcm1).
Qed.

Lemma update_ctx_buf_ok (y : Z) (g : Ctx) : buf_ok g -> buf_ok (Predictor.update_ctx y g).
Proof.
  intros [Hb Hc]. unfold Predictor.update_ctx, buf_ok.
  destruct (256 <=? c0 g + (c0 g + y)); cbn [buf c4 b Buf_store]; [|split; assumption].
  split; [|apply u32_bound].
  intros k. unfold Arr.set. destruct (k =? _); [apply u8_range | apply Hb].
Qed.

Lemma run_buf_ok (MEM : Z) (bits : list bool) : buf_ok (Predictor.g (Predictor.run MEM bits)).
Proof.
  induction bits as [|y bits IH] using rev_ind.
  - split; [intros k; cbn; unfold zeros; lia | cbn; lia].
  - rewrite run_snoc, Predictor_update_g. apply update_ctx_buf_ok, IH.
Qed.

Lemma run_bpos (MEM : Z) (bits : list bool) :
  bpos (Predictor.g (Predictor.run MEM bits)) = Z.of_nat (length bits) mod 8.
Proof.
  induction bits as [|y bits IH] using rev_ind; [reflexivity|].
  rewrite run_snoc, Predictor_update_g, length_app. cbn [length].
  assert (E : forall g, bpos (Predictor.update_ctx (b2i y) g) = Z.land (bpos g + 1) 7).
  { intros g. unfold Predictor.update_ctx. destruct (256 <=? _); reflexivity. }
  rewrite E, IH, land_7. rewrite Nat2Z.inj_add. change (Z.of_nat 1) with 1.
  rewrite Zplus_mod_idemp_l. reflexivity.
Qed.

(** what the predictor keeps from one bit to the next: the count of
    contexts of the ContextMap and the shape of the mixer *)
Lemma run_shape (MEM : Z) (bits : list bool) :
  let n := Z.of_nat (length bits) in
  let c := Predictor.cm2 (Predictor.run MEM bits) in
  let f := Mixer.own (ContextModel2.m c) in
  ContextMap.cn (ContextModel2.cm c) = (if (n <? 8) || (n mod 8 =? 7) then 0 else 9) /\
  ContextMap.C (ContextModel2.cm c) = 9 /\
  Mixer.N f = 800 /\ Mixer.M f = 3088 /\ Mixer.S f = 7 /\
  (1 <= n -> Mixer.nx f = (if n <? 8 then 8 else 64) /\ sel_ok f).
Proof.
  induction bits as [|y bits IH] using rev_ind; cbv zeta.
  - cbn [length Z.of_nat]. split; [reflexivity|]. split; [reflexivity|].
    split; [reflexivity|]. split; [reflexivity|]. split; [reflexivity|]. intros H. lia.
  - cbv zeta in IH. destruct IH as (Icn & IC & IN & IM & IS & _).
    rewrite run_snoc, Predictor_update_cm2.
    pose proof (run_ctx_ok MEM (bits ++ [y])) as Hg.
    pose proof (run_buf_ok MEM (bits ++ [y])) as Hb.
    pose proof (run_bpos MEM (bits ++ [y])) as Hbp.
    rewrite run_snoc, Predictor_update_g in Hg, Hb, Hbp.
    rewrite length_app in *. cbn [length] in *. rewrite Nat2Z.inj_add in *.
    change (Z.of_nat 1) with 1 in *.
    set (n := Z.of_nat (length bits)) in *.
    assert (Hn : 0 <= n) by (unfold n; lia).
    pose proof (Z.div_mod n 8 ltac:(lia)) as Hd.
    pose proof (Z.mod_pos_bound n 8 ltac:(lia)) as Hm.
    pose proof (Z.div_mod (n + 1) 8 ltac:(lia)) as Hd1.
    pose proof (Z.mod_pos_bound (n + 1) 8 ltac:(lia)) as Hm1.
    set (g' := Predictor.update_ctx (b2i y) (Predictor.g (Predictor.run MEM bits))) in *.
    assert (Hcn : 0 <= ContextMap.cn (ContextModel2.cm (Predictor.cm2 (Predictor.run MEM bits)))
                  <= 9)
      by (rewrite Icn; destruct ((n <? 8) || (n mod 8 =? 7)); lia).
    assert (H0 : bpos g' = 0 ->
                 ContextMap.cn (ContextModel2.cm (Predictor.cm2 (Predictor.run MEM bits))) = 0).
    { intros E. rewrite Icn. rewrite E in Hbp.
      replace (n mod 8 =? 7) with true by (symmetry; apply Z.eqb_eq; lia).
      rewrite orb_true_r. reflexivity. }
    destruct (ContextModel2_run_shape (b2i y) g' (Predictor.rnd (Predictor.run MEM bits))
                (Predictor.cm2 (Predictor.run MEM bits)) Hg Hb Hcn H0)
      as ([Rcn RC] & Rnx & Rsel & RN & RM & RS).
    rewrite Hbp in Rcn, Rnx. rewrite Icn in Rcn, Rnx.
    split; [|split; [congruence|split; [congruence|split; [congruence|split;
              [congruence|]]]]].
    + rewrite Rcn.
      destruct (Z.eqb_spec ((n + 1) mod 8) 7) as [E7 | E7].
      * rewrite orb_true_r. reflexivity.
      * rewrite orb_false_r.
        destruct (Z.eqb_spec ((n + 1) mod 8) 0) as [E0 | E0].
        -- replace (n + 1 <? 8) with false by (symmetry; apply Z.ltb_ge; lia). reflexivity.
        -- replace (n mod 8 =? 7) with false by (symmetry; apply Z.eqb_neq; lia).
           rewrite orb_false_r.
           destruct (Z.ltb_spec n 8), (Z.ltb_spec (n + 1) 8); try reflexivity; lia.
    + intros _. split; [|exact Rsel]. rewrite Rnx.
      destruct (Z.eqb_spec ((n + 1) mod 8) 0) as [E0 | E0].
      * replace (n + 1 <? 8) with false by (symmetry; apply Z.ltb_ge; lia). reflexivity.
      * replace (n mod 8 =? 7) with false by (symmetry; apply Z.eqb_neq; lia).
        rewrite orb_false_r.
        destruct (Z.ltb_spec n 8), (Z.ltb_spec (n + 1) 8); try reflexivity; lia.
Qed.

(** The ContextMap of the predictor holds no context during the first
    byte, and from then on the 9 contexts that [contextModel2] sets at
    each byte boundary, dropped again after the 7th bit of the byte: [set]
    is never asked for more contexts than the [C] = 9 the map was made
    for. *)
Theorem Predictor_cm_count (MEM : Z) (bits : list bool) :
  let n := Z.of_nat (length bits) in
  let cm := ContextModel2.cm (Predictor.cm2 (Predictor.run MEM bits)) in
  ContextMap.cn cm = (if (n <? 8) || (n mod 8 =? 7) then 0 else 9) /\
  ContextMap.cn cm <= ContextMap.C cm.
Proof.
  cbv zeta. destruct (run_shape MEM bits) as (Hcn & HC & _). cbv zeta in Hcn, HC.
  split; [exact Hcn|]. rewrite Hcn, HC.
  destruct ((Z.of_nat (length bits) <? 8) || (Z.of_nat (length bits) mod 8 =? 7)); lia.
Qed.

(** After each bit the mixer of [contextModel2] has 8 inputs during the
    first byte and 64 after it, of the 800 it has room for, and 6 weight
    sets selected, each within the range given for it to [set], the ranges
    following one another up to 2824 of the 3088 sets: every weight that
    [train] and [dot_product] reach lies within the [N*M] weights. *)
Theorem Predictor_mixer_shape (MEM : Z) (bits : list bool) :
  bits <> [] ->
  let n := Z.of_nat (length bits) in
  let f := Mixer.own (ContextModel2.m (Predictor.cm2 (Predictor.run MEM bits))) in
  Mixer.nx f = (if n <? 8 then 8 else 64) /\ Mixer.nx f <= Mixer.N f /\
  Mixer.ncxt f = 6 /\ Mixer.ncxt f <= Mixer.S f /\
  Mixer.base f = 2824 /\ Mixer.base f <= Mixer.M f /\
  (0 <= Mixer.cxt f 0 < 264 /\ 264 <= Mixer.cxt f 1 < 520 /\
   520 <= Mixer.cxt f 2 < 776 /\ 776 <= Mixer.cxt f 3 < 1032 /\
   1032 <= Mixer.cxt f 4 < 1288 /\ 1288 <= Mixer.cxt f 5 < 2824) /\
  (forall i k, 0 <= i < Mixer.ncxt f -> 0 <= k < Mixer.nx f ->
     0 <= Mixer.cxt f i * Mixer.N f + k < Mixer.N f * Mixer.M f).
Proof.
  intros Hne. cbv zeta.
  destruct (run_shape MEM bits) as (_ & _ & HN & HM & HS & H). cbv zeta in HN, HM, HS, H.
  assert (Hn : 1 <= Z.of_nat (length bits)) by (destruct bits; [contradiction | cbn; lia]).
  destruct (H Hn) as (Hnx & Hncxt & Hbase & H0 & H1 & H2 & H3 & H4 & H5).
  set (f := Mixer.own (ContextModel2.m (Predictor.cm2 (Predictor.run MEM bits)))) in *.
  assert (Hnx' : Mixer.nx f = 8 \/ Mixer.nx f = 64)
    by (rewrite Hnx; destruct (_ <? 8); [left | right]; reflexivity).
  split; [exact Hnx|]. split; [lia|]. split; [exact Hncxt|]. split; [lia|].
  split; [exact Hbase|]. split; [lia|].
  split; [repeat split; lia|].
  intros i k Hi Hk. rewrite HN, HM.
  assert (Hc : 0 <= Mixer.cxt f i < 2824).
  { assert (Hcase : i = 0 \/ i = 1 \/ i = 2 \/ i = 3 \/ i = 4 \/ i = 5) by lia.
    destruct Hcase as [-> | [-> | [-> | [-> | [-> | ->]]]]]; lia. }
  nia.
Qed.

Lemma Predictor_mixer_shape_witness :
  [true] <> [] /\
  Mixer.ncxt (Mixer.own (ContextModel2.m (Predictor.cm2 (Predictor.run 65536 [true])))) = 6.
Proof.
  split; [discriminate|].
  exact (proj1 (proj2 (proj2 (Predictor_mixer_shape 65536 [true] ltac:(discriminate))))).
Defined.

(** ** rnd: the recurrence *)

Lemma land_63 (x : Z) : Z.land x 63 = x mod 64.
Proof. change 63 with (Z.ones 6). now rewrite Z.land_ones by lia. Qed.

(** the slot of [i - c], whatever the wrap of [i] *)
Lemma int_slot (x c : Z) : Z.land (int x - c) 63 = (x - c) mod 64.
Proof.
  rewrite land_63. unfold int.
  pose proof (Z.div_mod (x + 2147483648) 4294967296 ltac:(lia)) as H.
  replace ((x + 2147483648) mod 4294967296 - 2147483648 - c)
    with (x - c + (- 67108864 * ((x + 2147483648) / 4294967296)) * 64) by lia.
  apply Z_mod_plus_full.
Qed.

Lemma rnd_state_S (n : nat) (r : Random) :
  rnd_state (S n) r = snd (rnd (rnd_state n r)).
Proof. reflexivity. Qed.

Lemma rnd_ri (n : nat) (r : Random) :
  exists q, ri (rnd_state n r) = ri r + Z.of_nat n + q * 4294967296.
Proof.
  induction n as [|n [q IH]].
  - exists 0. cbn [rnd_state Z.of_nat]. lia.
  - rewrite rnd_state_S. unfold rnd. cbn [snd ri]. rewrite IH. unfold int.
    pose proof (Z.div_mod (ri r + Z.of_nat n + q * 4294967296 + 1 + 2147483648)
                  4294967296 ltac:(lia)) as H.
    exists (q - (ri r + Z.of_nat n + q * 4294967296 + 1 + 2147483648) / 4294967296).
    rewrite Nat2Z.inj_succ. lia.
Qed.

(** the slot the call number [n] (from 0) reads at the distance [c] *)
Lemma rnd_slot (n : nat) (r : Random) (c : Z) :
  Z.land (int (ri (rnd_state n r) + 1) - c) 63 = (ri r + Z.of_nat n + 1 - c) mod 64.
Proof.
  rewrite int_slot. destruct (rnd_ri n r) as [q ->].
  replace (ri r + Z.of_nat n + q * 4294967296 + 1 - c)
    with (ri r + Z.of_nat n + 1 - c + (q * 67108864) * 64) by lia.
  apply Z_mod_plus_full.
Qed.

Lemma rnd_out_eq (n : nat) (r : Random) :
  rnd_out n r =
  Z.lxor (rtable (rnd_state n r) ((ri r + Z.of_nat n + 1 - 24) mod 64))
         (rtable (rnd_state n r) ((ri r + Z.of_nat n + 1 - 55) mod 64)).
Proof.
  unfold rnd_out, rnd. cbn [fst]. now rewrite !rnd_slot.
Qed.

(** each of the last 64 values returned is still in the table *)
Lemma rnd_kept (r : Random) (n : nat) : forall j : nat,
  (j < n <= j + 64)%nat ->
  rtable (rnd_state n r) ((ri r + Z.of_nat j + 1) mod 64) = rnd_out j r.
Proof.
  induction n as [|n IH]; intros j Hj; [lia|].
  rewrite rnd_state_S. unfold rnd at 1. cbn [snd rtable].
  pose proof (rnd_slot n r 0) as Hs. rewrite Z.sub_0_r in Hs. rewrite Hs.
  replace (ri r + Z.of_nat n + 1 - 0) with (ri r + Z.of_nat n + 1) by lia.
  destruct (Nat.eq_dec j n) as [-> | Hne].
  - rewrite set_eq. unfold rnd_out, rnd. reflexivity.
  - rewrite set_neq; [apply IH; lia|].
    intros E.
    pose proof (Z.div_mod (ri r + Z.of_nat j + 1) 64 ltac:(lia)) as H1.
    pose proof (Z.div_mod (ri r + Z.of_nat n + 1) 64 ltac:(lia)) as H2.
    rewrite E in H1. lia.
Qed.

Lemma lxor_u32 (a c : Z) :
  0 <= a < 4294967296 -> 0 <= c < 4294967296 -> 0 <= Z.lxor a c < 4294967296.
Proof.
  intros Ha Hc.
  assert (Hnn : 0 <= Z.lxor a c) by (apply Z.lxor_nonneg; lia).
  split; [exact Hnn|].
  destruct (Z.eq_dec (Z.lxor a c) 0) as [E | E]; [lia|].
  change 4294967296 with (2 ^ 32). apply Z.log2_lt_pow2; [lia|].
  pose proof (Z.log2_lxor a c ltac:(lia) ltac:(lia)) as Hl.
  assert (H1 : Z.log2 a < 32).
  { destruct (Z.eq_dec a 0) as [-> | H0]; [cbn; lia|].
    apply Z.log2_lt_pow2; [lia|]. change (2 ^ 32) with 4294967296. lia. }
  assert (H2 : Z.log2 c < 32).
  { destruct (Z.eq_dec c 0) as [-> | H0]; [cbn; lia|].
    apply Z.log2_lt_pow2; [lia|]. change (2 ^ 32) with 4294967296. lia. }
  lia.
Qed.

Lemma rnd_ok_step (r : Random) : rnd_ok r -> rnd_ok (snd (rnd r)).
Proof.
  intros H k. unfold rnd. cbn [snd rtable]. unfold Arr.set.
  destruct (k =? _); [apply lxor_u32; apply H | apply H].
Qed.

Lemma rnd_ok_state (n : nat) (r : Random) : rnd_ok r -> rnd_ok (rnd_state n r).
Proof.
  intros H. induction n as [|n IH]; [exact H|]. rewrite rnd_state_S. apply rnd_ok_step, IH.
Qed.

Lemma rnd_ok_ctor : rnd_ok Random_ctor.
Proof.
  unfold rnd_ok, Random_ctor. cbn [rtable].
  apply (for_inv (fun t : array => forall k, 0 <= t k < 4294967296)).
  - intros k. unfold Arr.set, zeros.
    destruct (k =? 1); [lia|]. destruct (k =? 0); lia.
  - intros j t _ Ht k. unfold Arr.set. destruct (k =? j + 2); [apply u32_bound | apply Ht].
Qed.

(** rnd is a lagged Fibonacci generator: from the 56th on, each value
    returned is the exclusive or of the values returned 24 and 55 calls
    before it, whatever the table started as and however often the call
    counter has wrapped; every value returned is a 32-bit one. *)
Theorem rnd_lagged (k : nat) (r : Random) :
  (55 <= k)%nat ->
  rnd_out k r = Z.lxor (rnd_out (k - 24) r) (rnd_out (k - 55) r) /\
  (rnd_ok r -> 0 <= rnd_out k r < 4294967296).
Proof.
  intros Hk. split.
  - rewrite rnd_out_eq.
    rewrite <- (rnd_kept r k (k - 24)) by lia.
    rewrite <- (rnd_kept r k (k - 55)) by lia.
    f_equal; f_equal; f_equal; lia.
  - intros Hr. unfold rnd_out, rnd. cbn [fst].
    apply lxor_u32; apply (rnd_ok_state k r Hr).
Qed.

Lemma rnd_lagged_witness :
  (55 <= 60)%nat /\
  rnd_out 60 Random_ctor
  = Z.lxor (rnd_out (60 - 24) Random_ctor) (rnd_out (60 - 55) Random_ctor) /\
  0 <= rnd_out 60 Random_ctor < 4294967296.
Proof.
  split; [lia|].
  destruct (rnd_lagged 60 Random_ctor ltac:(lia)) as [H1 H2].
  split; [exact H1 | exact (H2 rnd_ok_ctor)].
Defined.

(** ** ContextMap: the pointers stay in the table *)
























(** ** Array and String *)

Lemma store_length (l : list Z) : forall i x, length (newArray.store l i x) = length l.
Proof.
  induction l as [|v l IH]; intros [|i] x; cbn [newArray.store length]; try reflexivity.
  now rewrite IH.
Qed.

Lemma store_firstn (l : list Z) : forall i x, (i < length l)%nat ->
  firstn (S i) (newArray.store l i x) = firstn i l ++ [x].
Proof.
  induction l as [|v l IH]; intros [|i] x Hi; cbn [length] in Hi; try lia.
  - reflexivity.
  - cbn [newArray.store]. rewrite firstn_cons. rewrite IH by lia. reflexivity.
Qed.

Lemma int_small (x : Z) : -2147483648 <= x < 2147483648 -> int x = x.
Proof. intros H. unfold int. rewrite Z.mod_small by lia. lia. Qed.

(** [push_back] appends, doubling the block when it is full *)
Lemma push_back_ok (ALIGN sizeofT x : Z) (a : newArray.state) (pc : ProgramChecker.state) :
  arr_wf a -> newArray.n a < 1073741824 ->
  exists a' pc',
    newArray.push_back ALIGN sizeofT x a pc = Some (a', pc') /\
    arr_wf a' /\ arr_view a' = arr_view a ++ [x] /\
    newArray.n a' = newArray.n a + 1 /\
    newArray.reserved a' =
      (if newArray.n a =? newArray.reserved a then Z.max 1 (2 * newArray.n a)
       else newArray.reserved a).
Proof.
  intros [Hn Hl] Hb. unfold newArray.push_back.
  destruct (Z.eqb_spec (newArray.n a) (newArray.reserved a)) as [E | E].
  - rewrite int_small by lia.
    set (i := Z.max 1 (newArray.n a * 2)).
    assert (Hi : newArray.reserved a < i) by (unfold i; lia).
    assert (Hi2 : i = Z.max 1 (2 * newArray.n a)) by (unfold i; lia).
    unfold newArray.resize.
    replace (i <=? newArray.reserved a) with false by (symmetry; apply Z.leb_gt; lia).
    unfold newArray.create.
    replace (i <=? 0) with false by (symmetry; apply Z.leb_gt; lia).
    destruct (Z.ltb_spec 0 (newArray.reserved a)) as [Hr | Hr].
    + cbn [newArray.n newArray.reserved newArray.data].
      replace (Z.min i (newArray.n a)) with (newArray.n a) by lia.
      replace ((0 <=? newArray.n a) && (newArray.n a <=? newArray.reserved a)
               && (newArray.n a <=? i)) with true
        by (symmetry; repeat (apply andb_true_intro; split); apply Z.leb_le; lia).
      cbn [newArray.n newArray.reserved newArray.data].
      replace ((0 <=? newArray.n a) && (newArray.n a <? i)) with true
        by (symmetry; apply andb_true_intro; split; [apply Z.leb_le | apply Z.ltb_lt]; lia).
      eexists; eexists. split; [reflexivity|].
      assert (Hfull : firstn (Z.to_nat (newArray.n a)) (newArray.data a) = newArray.data a)
        by (apply firstn_all2; lia).
      assert (Hlen : length (firstn (Z.to_nat (newArray.n a)) (newArray.data a)
                             ++ skipn (Z.to_nat (newArray.n a)) (repeat 0 (Z.to_nat i)))
                     = Z.to_nat i).
      { rewrite length_app, Hfull, length_skipn, repeat_length. lia. }
      unfold arr_wf, arr_view. cbn [newArray.n newArray.reserved newArray.data].
      rewrite store_length, Hlen.
      split; [lia|]. split; [|split; [reflexivity | exact Hi2]].
      replace (Z.to_nat (newArray.n a + 1)) with (S (Z.to_nat (newArray.n a))) by lia.
      rewrite store_firstn by (rewrite Hlen; lia).
      rewrite firstn_app, firstn_firstn, Nat.min_id.
      rewrite length_firstn.
      replace (Z.to_nat (newArray.n a) - Nat.min (Z.to_nat (newArray.n a))
                                           (length (newArray.data a)))%nat
        with 0%nat by lia.
      rewrite firstn_O, app_nil_r. reflexivity.
    + assert (E0 : newArray.n a = 0) by lia.
      cbn [newArray.n newArray.reserved newArray.data].
      assert (Ei : i = 1) by (unfold i; lia). rewrite Ei, E0.
      cbn. eexists; eexists. split; [reflexivity|].
      unfold arr_wf, arr_view. cbn [newArray.n newArray.reserved newArray.data].
      rewrite E0. change (repeat 0 (Pos.to_nat 1)) with [0].
      cbn [newArray.store length firstn Z.to_nat Pos.to_nat Pos.iter_op Nat.add app].
      split; [split; [lia | reflexivity]|]. split; [reflexivity|]. split; reflexivity.
  - replace ((0 <=? newArray.n a) && (newArray.n a <? newArray.reserved a)) with true
      by (symmetry; apply andb_true_intro; split; [apply Z.leb_le | apply Z.ltb_lt]; lia).
    eexists; eexists. split; [reflexivity|].
    unfold arr_wf, arr_view. cbn [newArray.n newArray.reserved newArray.data].
    rewrite store_length.
    split; [lia|]. split; [|split; reflexivity].
    replace (Z.to_nat (newArray.n a + 1)) with (S (Z.to_nat (newArray.n a))) by lia.
    apply store_firstn. lia.
Qed.

(** the loop of [operator+=] appends the characters before the NUL *)
Lemma push_chars_ok (s : list Z) : forall (rest : list Z) (a : newArray.state)
    (pc : ProgramChecker.state),
  Forall (fun c => c <> 0) s ->
  arr_wf a -> newArray.n a + Z.of_nat (length s) < 1073741824 ->
  exists a' pc',
    String.push_chars (s ++ 0 :: rest) a pc = Some (a', pc') /\
    arr_wf a' /\ arr_view a' = arr_view a ++ s /\
    newArray.n a' = newArray.n a + Z.of_nat (length s).
Proof.
  induction s as [|c s IH]; intros rest a pc Hs Hw Hb.
  - exists a, pc. cbn [app String.push_chars Z.eqb length Z.of_nat].
    rewrite app_nil_r. repeat split; try apply Hw. lia.
  - cbn [app String.push_chars]. inversion Hs as [|c' s' Hc Hs']; subst.
    replace (c =? 0) with false by (symmetry; apply Z.eqb_neq; exact Hc).
    cbn [length] in Hb.
    destruct (push_back_ok 0 1 c a pc Hw ltac:(lia)) as (a1 & pc1 & E1 & Hw1 & Hv1 & Hn1 & _).
    rewrite E1.
    destruct (IH rest a1 pc1 Hs' Hw1 ltac:(lia)) as (a2 & pc2 & E2 & Hw2 & Hv2 & Hn2).
    exists a2, pc2. split; [exact E2|]. split; [exact Hw2|].
    split; [rewrite Hv2, Hv1, <- app_assoc; reflexivity|].
    cbn [length]. lia.
Qed.

Lemma pop_back_ok (a : newArray.state) (l : list Z) (z : Z) :
  arr_wf a -> arr_view a = l ++ [z] ->
  arr_wf (newArray.pop_back a) /\ arr_view (newArray.pop_back a) = l /\
  newArray.n (newArray.pop_back a) = Z.of_nat (length l).
Proof.
  intros [Hn Hl] Hv. unfold arr_view in Hv.
  assert (Hlen : Z.to_nat (newArray.n a) = S (length l)).
  { apply (f_equal (@length Z)) in Hv. rewrite length_firstn, length_app in Hv.
    cbn [length] in Hv. lia. }
  unfold newArray.pop_back.
  replace (0 <? newArray.n a) with true by (symmetry; apply Z.ltb_lt; lia).
  unfold arr_wf, arr_view. cbn [newArray.n newArray.reserved newArray.data].
  split; [split; [lia | exact Hl]|]. split; [|lia].
  replace (Z.to_nat (newArray.n a - 1)) with (length l) by lia.
  replace (firstn (length l) (newArray.data a))
    with (firstn (length l) (firstn (Z.to_nat (newArray.n a)) (newArray.data a)))
    by (rewrite firstn_firstn; f_equal; lia).
  rewrite Hv. rewrite firstn_app, firstn_all, Nat.sub_diag, firstn_O, app_nil_r. reflexivity.
Qed.

(** [operator+=] on a string that ends in a NUL *)
Lemma plus_eq_ok (l s rest : list Z) (a : newArray.state) (pc : ProgramChecker.state) :
  arr_wf a -> arr_view a = l ++ [0] ->
  Forall (fun c => c <> 0) s ->
  Z.of_nat (length l) + Z.of_nat (length s) + 1 < 1073741824 ->
  exists a' pc',
    String.plus_eq (s ++ 0 :: rest) a pc = Some (a', pc') /\
    arr_wf a' /\ arr_view a' = l ++ s ++ [0] /\
    newArray.size a' = Z.of_nat (length l) + Z.of_nat (length s) + 1.
Proof.
  intros Hw Hv Hs Hb. unfold String.plus_eq.
  destruct (pop_back_ok a l 0 Hw Hv) as (Hw0 & Hv0 & Hn0).
  destruct (push_chars_ok s rest (newArray.pop_back a) pc Hs Hw0 ltac:(lia))
    as (a1 & pc1 & E1 & Hw1 & Hv1 & Hn1).
  rewrite E1.
  destruct (push_back_ok 0 1 0 a1 pc1 Hw1 ltac:(lia)) as (a2 & pc2 & E2 & Hw2 & Hv2 & Hn2 & _).
  exists a2, pc2. split; [exact E2|]. split; [exact Hw2|].
  split; [rewrite Hv2, Hv1, Hv0, <- app_assoc; reflexivity|].
  unfold newArray.size. lia.
Qed.

(** A String holds the characters given to it and a final NUL: made from
    [s] it is [s] and the NUL, and after [+= t] it is [s], [t] and the
    NUL, [size()] counting the NUL; the block is doubled as often as the
    characters need, and nothing is read or written outside it. *)
Theorem String_concat (s t rest1 rest2 : list Z) (pc : ProgramChecker.state) :
  Forall (fun c => c <> 0) s -> Forall (fun c => c <> 0) t ->
  Z.of_nat (length s) + Z.of_nat (length t) + 1 < 1073741824 ->
  exists a pc1 a' pc2,
    String.ctor (s ++ 0 :: rest1) pc = Some (a, pc1) /\
    String.plus_eq (t ++ 0 :: rest2) a pc1 = Some (a', pc2) /\
    arr_view a = s ++ [0] /\
    arr_view a' = s ++ t ++ [0] /\
    newArray.size a' = Z.of_nat (length s) + Z.of_nat (length t) + 1 /\
    newArray.size a' <= newArray.reserved a' /\
    Z.of_nat (length (String.c_str a')) = newArray.reserved a'.
Proof.
  intros Hs Ht Hb. unfold String.ctor, newArray.ctor, newArray.create.
  change (1 <=? 0) with false. cbv iota.
  set (a0 := {| newArray.n := 1; newArray.reserved := 1;
                newArray.data := repeat 0 (Z.to_nat 1) |}).
  assert (Hw0 : arr_wf a0) by (split; [cbn; lia | reflexivity]).
  assert (Hv0 : arr_view a0 = [] ++ [0]) by reflexivity.
  destruct (plus_eq_ok [] s rest1 a0 (ProgramChecker.alloc (int (0 + 1 * 1)) pc)
              Hw0 Hv0 Hs ltac:(cbn [length]; lia))
    as (a & pc1 & E1 & Hw1 & Hv1 & Hn1).
  cbn [app] in Hv1.
  destruct (plus_eq_ok s t rest2 a pc1 Hw1 Hv1 Ht Hb) as (a' & pc2 & E2 & Hw2 & Hv2 & Hn2).
  exists a, pc1, a', pc2.
  split; [exact E1|]. split; [exact E2|]. split; [exact Hv1|]. split; [exact Hv2|].
  split; [exact Hn2|]. destruct Hw2 as [Hw2 Hl2].
  split; [unfold newArray.size; lia | exact Hl2].
Qed.

Lemma String_concat_witness :
  (Forall (fun c => c <> 0) [104; 105] /\ Forall (fun c => c <> 0) [33] /\
   Z.of_nat (length [104; 105]) + Z.of_nat (length [33]) + 1 < 1073741824) /\
  exists a pc1 a' pc2,
    String.ctor ([104; 105] ++ 0 :: []) ProgramChecker.ctor = Some (a, pc1) /\
    String.plus_eq ([33] ++ 0 :: []) a pc1 = Some (a', pc2) /\
    arr_view a' = [104; 105] ++ [33] ++ [0].
Proof.
  assert (H1 : Forall (fun c => c <> 0) [104; 105]) by (repeat constructor; discriminate).
  assert (H2 : Forall (fun c => c <> 0) [33]) by (repeat constructor; discriminate).
  assert (H3 : Z.of_nat (length [104; 105]) + Z.of_nat (length [33]) + 1 < 1073741824)
    by (cbn; lia).
  split; [split; [exact H1 | split; [exact H2 | exact H3]]|].
  destruct (String_concat [104; 105] [33] [] [] ProgramChecker.ctor H1 H2 H3)
    as (a & pc1 & a' & pc2 & E1 & E2 & _ & Hv & _).
  exists a, pc1, a', pc2. split; [exact E1|]. split; [exact E2 | exact Hv].
Defined.
